(** * mjrl.utils: fully connected networks and the experiment log

    A shallow embedding of [mjrl/utils/fc_network.py] (the classes
    [FCNetwork] and [FCNetworkWithBatchNorm]) and of
    [mjrl/utils/logger.py] (the class [DataLog]), with the properties of
    the specification stated and settled against it.

    The tensor library is not part of the repository.  Its operations
    are modelled at the level the code uses them: a tensor carries the
    device it lives on and its entries, an elementwise operation raises
    when its operands live on different devices or have shapes that do
    not broadcast, and the scalars and the product of a row with the
    parameters of a layer are kept behind an interface ([Scalar]) that is
    instantiated with IEEE binary32 where a property depends on
    rounding. *)

From Stdlib Require Import ZArith List String Bool Lia DecimalString.
From Stdlib Require Import Floats.SpecFloat.
From Stdlib Require DecimalNat.
From stdpp Require Import base option list gmap strings.
Import ListNotations.

Local Open Scope string_scope.
Local Open Scope list_scope.
Local Open Scope Z_scope.

(* ===================================================================== *)
(** * Python exceptions and the monads of fallible, stateful code        *)
(* ===================================================================== *)

Inductive exn : Type :=
| AssertionError
| TypeError
| ValueError
| IndexError
| RuntimeError (msg : string)
| DeviceMismatch   (* RuntimeError: expected all tensors on the same device *)
| ShapeMismatch.   (* RuntimeError: sizes do not match / cannot be multiplied *)

Inductive result (A : Type) : Type :=
| Ok (a : A)
| Raise (e : exn).
Arguments Ok {A} a.
Arguments Raise {A} e.

Definition rbind {A B} (r : result A) (k : A -> result B) : result B :=
  match r with
  | Ok a => k a
  | Raise e => Raise e
  end.

Definition rmap {A B} (f : A -> B) (r : result A) : result B :=
  rbind r (fun a => Ok (f a)).

Definition is_ok {A} (r : result A) : bool :=
  match r with Ok _ => true | Raise _ => false end.

(** State and exceptions: a computation reads the mutable part of an
    object, may raise, and otherwise returns a value and the new state. *)
Definition M (S A : Type) : Type := S -> result (A * S).

Definition ret {S A} (a : A) : M S A := fun s => Ok (a, s).
Definition bind {S A B} (m : M S A) (k : A -> M S B) : M S B :=
  fun s => match m s with
           | Ok (a, s') => k a s'
           | Raise e => Raise e
           end.
Definition lift {S A} (r : result A) : M S A :=
  fun s => match r with Ok a => Ok (a, s) | Raise e => Raise e end.
Definition modify {S} (f : S -> S) : M S unit := fun s => Ok (tt, f s).

(** The value of a computation, when it is the same in every state. *)
Definition value_of {S A} (m : M S A) (v : result A) : Prop :=
  forall s, rmap fst (m s) = v.

Declare Scope py_scope.
Delimit Scope py_scope with py.
Notation "'let*' x ':=' m 'in' k" := (bind m (fun x => k))
  (at level 10, x name, m at level 100, k at level 200) : py_scope.
Notation "'try!' x ':=' r 'in' k" := (rbind r (fun x => k))
  (at level 10, x name, r at level 100, k at level 200) : py_scope.
Local Open Scope py_scope.

(** [for v in l: acc = body(v, acc)] *)
Fixpoint for_each {S A B} (body : A -> B -> M S B) (l : list A) (acc : B)
  : M S B :=
  match l with
  | [] => ret acc
  | v :: l' => bind (body v acc) (fun acc' => for_each body l' acc')
  end.

(** [range(n)] for a Python integer [n]: empty when [n <= 0]. *)
Definition py_range (n : Z) : list Z :=
  map Z.of_nat (seq 0 (Z.to_nat n)).

(** [l[i]] for a Python integer [i]: a negative index counts from the
    end, and an index outside the sequence raises [IndexError]. *)
Definition py_index {A} (l : list A) (i : Z) : result A :=
  let n := Z.of_nat (length l) in
  let j := if i <? 0 then i + n else i in
  if (j <? 0) || (n <=? j) then Raise IndexError
  else match nth_error l (Z.to_nat j) with
       | Some a => Ok a
       | None => Raise IndexError
       end.

(** [l[:n]] for a Python integer [n]: the first [n] entries, or all but
    the last [-n] when [n] is negative. *)
Definition py_slice_to {A} (l : list A) (n : Z) : list A :=
  if n <? 0 then firstn (Z.to_nat (Z.of_nat (length l) + n)) l
  else firstn (Z.to_nat n) l.

(** [f'{i}'] for a non-negative integer. *)
Definition str_of_nat (n : nat) : string :=
  NilZero.string_of_uint (Nat.to_uint n).

(* ===================================================================== *)
(** * The tensor substrate                                               *)
(* ===================================================================== *)

Inductive torch_device : Type :=
| cpu
| cuda (index : nat)
| mps.

Definition device_eqb (a b : torch_device) : bool :=
  match a, b with
  | cpu, cpu => true
  | cuda i, cuda j => Nat.eqb i j
  | mps, mps => true
  | _, _ => false
  end.

Definition device_is_cuda (d : torch_device) : bool :=
  match d with cuda _ => true | _ => false end.

(** The arithmetic of the tensor library at the dtype of the network.
    [f_eps] is the Python literal [1e-8] converted to that dtype.
    [f_linear W b r] is [F.linear] on one row, [r @ W.T + b] for the
    weight rows [W] and the biases [b]: the library does not fix the
    order of its additions nor whether they are fused with the
    products, so the product is a primitive of the interface and not
    a fold of [f_add] and [f_mul]. *)
Class Scalar (F : Type) : Type := {
  f_zero : F;
  f_one : F;
  f_eps : F;
  f_add : F -> F -> F;
  f_sub : F -> F -> F;
  f_mul : F -> F -> F;
  f_div : F -> F -> F;
  f_relu : F -> F;
  f_tanh : F -> F;
  f_linear : list (list F) -> list F -> list F -> list F
}.

Inductive nonlin : Type := Relu | Tanh.

Section Tensors.
Context {F : Type} {SF : Scalar F}.

(** A matrix of shape [N, width] on a device, its entries at the dtype
    of the network. *)
Record tensor : Type := Tensor {
  t_device : torch_device;
  t_rows : list (list F)
}.

(** A vector of shape [n] on a device. *)
Record vector : Type := Vector {
  v_device : torch_device;
  v_data : list F
}.

Definition is_cuda (x : tensor) : bool := device_is_cuda (t_device x).

(** [x.to(d)] *)
Definition tensor_to (d : torch_device) (x : tensor) : tensor :=
  Tensor d (t_rows x).
Definition vector_to (d : torch_device) (v : vector) : vector :=
  Vector d (v_data v).

(** [torch.zeros(n)], [torch.ones(n)]: created on the CPU. *)
Definition torch_full (c : F) (n : Z) : result vector :=
  if n <? 0 then Raise (RuntimeError "negative dimension")
  else Ok (Vector cpu (repeat c (Z.to_nat n))).
Definition torch_zeros : Z -> result vector := torch_full f_zero.
Definition torch_ones : Z -> result vector := torch_full f_one.

(** [torch.from_numpy(np.float32(a))]: created on the CPU. *)
Definition from_numpy (a : list F) : vector := Vector cpu a.

Fixpoint zip_with_F (op : F -> F -> F) (r v : list F) : list F :=
  match r, v with
  | a :: r', b :: v' => op a b :: zip_with_F op r' v'
  | _, _ => []
  end.

(** One row against a vector, with the broadcasting of the last
    dimension: equal lengths, or one of the two of length one. *)
Definition broadcast_row (op : F -> F -> F) (r v : list F)
  : result (list F) :=
  if Nat.eqb (length r) (length v) then Ok (zip_with_F op r v)
  else match v, r with
       | [b], _ => Ok (map (fun a => op a b) r)
       | _, [a] => Ok (map (fun b => op a b) v)
       | _, _ => Raise ShapeMismatch
       end.

Fixpoint map_result {A B} (f : A -> result B) (l : list A)
  : result (list B) :=
  match l with
  | [] => Ok []
  | a :: l' => rbind (f a) (fun b => rmap (cons b) (map_result f l'))
  end.

(** [x op v] for a matrix and a vector: shapes are broadcast first,
    then both operands must live on one device. *)
Definition tensor_op (op : F -> F -> F) (x : tensor) (v : vector)
  : result tensor :=
  rbind (map_result (fun r => broadcast_row op r (v_data v)) (t_rows x))
    (fun rows =>
       if device_eqb (t_device x) (v_device v)
       then Ok (Tensor (t_device x) rows)
       else Raise DeviceMismatch).

(** [v + c] for a vector and a Python scalar. *)
Definition vector_add_scalar (v : vector) (c : F) : vector :=
  Vector (v_device v) (map (fun a => f_add a c) (v_data v)).

Definition apply_scalar_nonlin (nl : nonlin) : F -> F :=
  match nl with Relu => f_relu | Tanh => f_tanh end.

(** [torch.relu(x)], [torch.tanh(x)] *)
Definition apply_nonlin (nl : nonlin) (x : tensor) : tensor :=
  Tensor (t_device x) (map (map (apply_scalar_nonlin nl)) (t_rows x)).

(** ** [nn.Linear] *)

Record Linear : Type := MkLinear {
  in_features : nat;
  out_features : nat;
  weight : list (list F);      (* out_features rows of in_features *)
  bias : list F;               (* out_features *)
  param_device : torch_device;
  forward_hooks : list string  (* the layer name each hook closes over *)
}.

Definition affine_row (l : Linear) (r : list F) : list F :=
  f_linear (weight l) (bias l) r.

Definition row_width_ok (n : nat) (r : list F) : bool :=
  Nat.eqb (length r) n.

(** The value of [layer(x)]: [x @ W.T + b]. *)
Definition linear_forward (l : Linear) (x : tensor) : result tensor :=
  if negb (device_eqb (t_device x) (param_device l)) then Raise DeviceMismatch
  else if negb (forallb (row_width_ok (in_features l)) (t_rows x))
       then Raise ShapeMismatch
       else Ok (Tensor (t_device x) (map (affine_row l) (t_rows x))).

(** [layer.to(d)] *)
Definition linear_to (d : torch_device) (l : Linear) : Linear :=
  MkLinear (in_features l) (out_features l) (weight l) (bias l) d
           (forward_hooks l).

(** [layer.register_forward_hook(hook_fn(name))]: the hook is added to
    the hooks of the layer, whatever is registered already. *)
Definition register_forward_hook (name : string) (l : Linear) : Linear :=
  MkLinear (in_features l) (out_features l) (weight l) (bias l)
           (param_device l) (forward_hooks l ++ [name]).

(** The number of observers attached to a layer. *)
Definition hook_count (l : Linear) : nat := length (forward_hooks l).

(** ** The activation cache and the histogram sink *)

Record recorder : Type := Recorder {
  activations : gmap string (list (list F));
  histograms : list (string * list (list F))
}.

Definition empty_recorder : recorder := Recorder ∅ [].

(** The body of [hook]: it stores the output under the layer name and
    writes a histogram; it returns nothing, so the output of the layer
    is left as it is.  The conversion to an array and the writer are
    taken to return. *)
Definition hook (layer_name : string) (output : tensor) (r : recorder)
  : recorder :=
  Recorder (<[layer_name := t_rows output]> (activations r))
           (histograms r ++ [("Activations/" +:+ layer_name, t_rows output)]).

(** [layer(x)] as a call: the forward value, then every hook in the
    order of registration. *)
Definition call_linear (l : Linear) (x : tensor) : M recorder tensor :=
  bind (lift (linear_forward l x)) (fun out =>
  bind (modify (fun r => fold_left (fun r' n => hook n out r')
                                   (forward_hooks l) r)) (fun _ =>
  ret out)).

End Tensors.

Arguments tensor F : clear implicits.
Arguments vector F : clear implicits.
Arguments Linear F : clear implicits.
Arguments recorder F : clear implicits.

(* ===================================================================== *)
(** * Python values at the constructors' boundary                        *)
(* ===================================================================== *)

(** The constructors check the type of [hidden_sizes] and compare
    [nonlinearity] with a string, so their arguments are modelled as
    dynamically typed values. *)
Local Unset Elimination Schemes.
Inductive pyval (F : Type) : Type :=
| PyNone
| PyInt (z : Z)
| PyStr (s : string)
| PyTuple (items : list (pyval F))
| PyList (items : list (pyval F))
| PyArray (a : list F)      (* a one-dimensional numpy array *)
| PyObject.                 (* an instance of a class of the program *)
Local Set Elimination Schemes.
Arguments PyNone {F}.
Arguments PyInt {F} z.
Arguments PyStr {F} s.
Arguments PyTuple {F} items.
Arguments PyList {F} items.
Arguments PyArray {F} a.
Arguments PyObject {F}.

(** The truth value of [v == s] for a string literal [s], as the
    condition of a conditional expression.  A numpy array is compared
    entry by entry, which gives an array of [False]; its truth value
    is [False] when it has one entry and raises [ValueError]
    otherwise. *)
Definition py_eq_str {F} (v : pyval F) (s : string) : result bool :=
  match v with
  | PyStr s' => Ok (String.eqb s' s)
  | PyArray [_] => Ok false
  | PyArray _ => Raise ValueError
  | _ => Ok false
  end.

(** [torch.relu if nonlinearity == 'relu' else torch.tanh] *)
Definition resolve_nonlinearity {F} (nonlinearity : pyval F)
  : result nonlin :=
  try! is_relu := py_eq_str nonlinearity "relu" in
  Ok (if is_relu : bool then Relu else Tanh).

Section Layers.
Context {F : Type} {SF : Scalar F} {rng : Type}.

(** The initial weight and bias of [nn.Linear(n_in, n_out)], drawn
    from the random generator of the tensor library. *)
Variable init_linear : nat -> nat -> rng -> (list (list F) * list F) * rng.

(** [nn.Linear(n_in, n_out)] *)
Definition nn_Linear (n_in n_out : pyval F) : M rng (Linear F) :=
  fun g =>
    match n_in, n_out with
    | PyInt a, PyInt b =>
        if (a <? 0) || (b <? 0)
        then Raise (RuntimeError "negative dimension")
        else let '((w, bs), g') := init_linear (Z.to_nat a) (Z.to_nat b) g in
             Ok (MkLinear (Z.to_nat a) (Z.to_nat b) w bs cpu [], g')
    | _, _ => Raise TypeError
    end.

(** [[nn.Linear(layer_sizes[i], layer_sizes[i+1])
      for i in range(len(layer_sizes) - 1)]] *)
Definition make_fc_layers (layer_sizes : list (pyval F))
  : M rng (list (Linear F)) :=
  for_each
    (fun i acc =>
       let* n_in := lift (py_index layer_sizes i) in
       let* n_out := lift (py_index layer_sizes (i + 1)) in
       let* layer := nn_Linear n_in n_out in
       ret (acc ++ [layer]))
    (py_range (Z.of_nat (length layer_sizes) - 1)) [].

(** One pass of the loops of both [forward] methods:
    [out = self.fc_layers[i](out)], followed by what the class does to
    the output of a hidden layer. *)
Definition layer_at {S} (layers : list (Linear F)) (i : Z)
    (call : Linear F -> tensor F -> M S (tensor F)) (out : tensor F)
  : M S (tensor F) :=
  let* layer := lift (py_index layers i) in
  call layer out.

(** [for i, layer in enumerate(self.fc_layers):
       layer.register_forward_hook(self.hook_fn(f'fc_layer_{i}'))] *)
Definition register_hooks_layers (layers : list (Linear F))
  : list (Linear F) :=
  imap (fun i layer =>
          register_forward_hook ("fc_layer_" +:+ str_of_nat i) layer)
       layers.

End Layers.

(* ===================================================================== *)
(** * class FCNetwork                                                    *)
(* ===================================================================== *)

Module FCNetwork.
Section Defs.
Context {F : Type} {SF : Scalar F} {rng : Type}.
Variable init_linear : nat -> nat -> rng -> (list (list F) * list F) * rng.

Record t : Type := Make {
  obs_dim : pyval F;
  act_dim : pyval F;
  layer_sizes : list (pyval F);
  transformations :
    option (list F) * option (list F) * option (list F) * option (list F);
  in_shift : vector F;
  in_scale : vector F;
  out_shift : vector F;
  out_scale : vector F;
  fc_layers : list (Linear F);
  nonlinearity : nonlin;
  observer : recorder F;       (* self.activations and self.writer *)
  log_dir : pyval F;
  device : option torch_device       (* the attribute exists once [to] ran *)
}.

(** [torch.zeros(self.obs_dim)] and the like on a dynamically typed
    size. *)
Definition full_of (c : F) (n : pyval F) : result (vector F) :=
  match n with
  | PyInt z => torch_full c z
  | _ => Raise TypeError
  end.

(** [torch.from_numpy(np.float32(v)) if v is not None else default] *)
Definition buffer_or (v : option (list F)) (c : F) (n : pyval F)
  : result (vector F) :=
  match v with
  | Some a => Ok (from_numpy a)
  | None => full_of c n
  end.

Definition set_transformations
    (in_shift in_scale out_shift out_scale : option (list F)) (self : t)
  : result t :=
  try! b_in_shift := buffer_or in_shift f_zero (obs_dim self) in
  try! b_in_scale := buffer_or in_scale f_one (obs_dim self) in
  try! b_out_shift := buffer_or out_shift f_zero (act_dim self) in
  try! b_out_scale := buffer_or out_scale f_one (act_dim self) in
  Ok (Make (obs_dim self) (act_dim self) (layer_sizes self)
           (in_shift, in_scale, out_shift, out_scale)
           b_in_shift b_in_scale b_out_shift b_out_scale
           (fc_layers self) (nonlinearity self) (observer self)
           (log_dir self) (device self)).

(** [self.fc_layers = ...; self.nonlinearity = ...] *)
Definition with_network (layers : list (Linear F)) (nl : nonlin) (self : t)
  : t :=
  Make (obs_dim self) (act_dim self) (layer_sizes self)
       (transformations self) (in_shift self) (in_scale self)
       (out_shift self) (out_scale self) layers nl
       (observer self) (log_dir self) (device self).

(** [__init__]: the attributes are set in the order of the source; the
    buffers are created by [set_transformations] before the layers. *)
Definition init (obs_dim act_dim hidden_sizes nonlinearity : pyval F)
    (in_shift in_scale out_shift out_scale : option (list F))
    (log_dir : pyval F) : M rng t :=
  match hidden_sizes with
  | PyTuple hs =>
      let layer_sizes := [obs_dim] ++ hs ++ [act_dim] in
      let self0 :=
        Make obs_dim act_dim layer_sizes (None, None, None, None)
             (Vector cpu []) (Vector cpu []) (Vector cpu []) (Vector cpu [])
             [] Tanh empty_recorder log_dir None in
      let* self1 :=
        lift (set_transformations in_shift in_scale out_shift out_scale
                                  self0) in
      let* layers := make_fc_layers init_linear layer_sizes in
      let* nl := lift (resolve_nonlinearity nonlinearity) in
      ret (with_network layers nl self1)
  | _ => lift (Raise AssertionError)
  end.

(** The hidden part of the loop body of [forward]. *)
Definition hidden_step (self : t) (i : Z) (out : tensor F)
  : M (recorder F) (tensor F) :=
  let* out := layer_at (fc_layers self) i call_linear out in
  ret (apply_nonlin (nonlinearity self) out).

(** [if x.is_cuda: out = x.to('cpu')] and [else: out = x] *)
Definition relocate (x : tensor F) : tensor F :=
  if is_cuda x then tensor_to cpu x else x.

Definition forward_body (self : t) (x : tensor F)
  : M (recorder F) (tensor F) :=
  let out := relocate x in
  let* num := lift (tensor_op f_sub out (in_shift self)) in
  let* out :=
    lift (tensor_op f_div num (vector_add_scalar (in_scale self) f_eps)) in
  let* out :=
    for_each (hidden_step self)
             (py_range (Z.of_nat (length (fc_layers self)) - 1)) out in
  let* out := layer_at (fc_layers self) (-1) call_linear out in
  let* out := lift (tensor_op f_mul out (out_scale self)) in
  let* out := lift (tensor_op f_add out (out_shift self)) in
  ret out.

Definition with_observer (self : t) (r : recorder F) : t :=
  Make (obs_dim self) (act_dim self) (layer_sizes self)
       (transformations self) (in_shift self) (in_scale self)
       (out_shift self) (out_scale self) (fc_layers self)
       (nonlinearity self) r (log_dir self) (device self).

(** [forward(x)]: the returned value, and the object after the hooks
    of the layers ran. *)
Definition forward (self : t) (x : tensor F) : result (tensor F * t) :=
  match forward_body self x (observer self) with
  | Ok (out, r) => Ok (out, with_observer self r)
  | Raise e => Raise e
  end.

Definition register_hooks (self : t) : t :=
  Make (obs_dim self) (act_dim self) (layer_sizes self)
       (transformations self) (in_shift self) (in_scale self)
       (out_shift self) (out_scale self)
       (register_hooks_layers (fc_layers self))
       (nonlinearity self) (observer self) (log_dir self) (device self).

(** Every tensor the network owns lives on [d]. *)
Definition resides_on (d : torch_device) (self : t) : Prop :=
  v_device (in_shift self) = d /\
  v_device (in_scale self) = d /\
  v_device (out_shift self) = d /\
  v_device (out_scale self) = d /\
  Forall (fun l => param_device l = d) (fc_layers self).

(** [to(device)]: the attribute, the four buffers, then the
    parameters of the layers through [super().to(device)]. *)
Definition to (d : torch_device) (self : t) : t :=
  Make (obs_dim self) (act_dim self) (layer_sizes self)
       (transformations self)
       (vector_to d (in_shift self)) (vector_to d (in_scale self))
       (vector_to d (out_shift self)) (vector_to d (out_scale self))
       (map (linear_to d) (fc_layers self))
       (nonlinearity self) (observer self) (log_dir self) (Some d).

End Defs.
End FCNetwork.

(* ===================================================================== *)
(** * Binding the arguments of a call                                    *)
(* ===================================================================== *)

(** [FCNetworkWithBatchNorm.__init__] ends its parameter list with
    [*args, **kwargs]; what a call binds to them is decided by the
    binding rules of the language, modelled here for a function whose
    parameters are all positional-or-keyword and which takes both
    [*args] and [**kwargs]. *)
Section Binding.
Context {F : Type}.

Fixpoint assoc {A} (k : string) (l : list (string * A)) : option A :=
  match l with
  | [] => None
  | (k', v) :: l' => if String.eqb k k' then Some v else assoc k l'
  end.

Definition is_param (params : list string) (k : string) : bool :=
  existsb (String.eqb k) params.

(** Keyword arguments, left to right: a keyword naming a parameter
    binds it unless it is bound already; any other keyword goes to
    [**kwargs]; a repeated keyword is an error. *)
Fixpoint bind_keywords (params : list string)
    (kw bound extra : list (string * pyval F))
  : result (list (string * pyval F) * list (string * pyval F)) :=
  match kw with
  | [] => Ok (bound, extra)
  | (k, v) :: kw' =>
      if is_param params k then
        match assoc k bound with
        | Some _ => Raise TypeError
        | None => bind_keywords params kw' (bound ++ [(k, v)]) extra
        end
      else
        match assoc k extra with
        | Some _ => Raise TypeError
        | None => bind_keywords params kw' bound (extra ++ [(k, v)])
        end
  end.

Record bound_call : Type := BoundCall {
  named : list (string * pyval F);
  star_args : list (pyval F);
  star_kwargs : list (string * pyval F)
}.

(** Positional arguments fill the parameters in order and the rest
    goes to [*args]; then the keywords are bound. *)
Definition bind_call (params : list string)
    (pos : list (pyval F)) (kw : list (string * pyval F))
  : result bound_call :=
  try! be := bind_keywords params kw (combine params pos) [] in
  Ok (BoundCall (fst be) (skipn (length params) pos) (snd be)).

(** The value of a parameter: the bound one, else its default, else
    the call is missing a required argument. *)
Definition param_value (defaults : list (string * pyval F))
    (b : bound_call) (name : string) : result (pyval F) :=
  match assoc name (named b) with
  | Some v => Ok v
  | None => match assoc name defaults with
            | Some v => Ok v
            | None => Raise TypeError
            end
  end.

End Binding.
Arguments bound_call F : clear implicits.

(* ===================================================================== *)
(** * class FCNetworkWithBatchNorm                                       *)
(* ===================================================================== *)

Module FCNetworkWithBatchNorm.
Section Defs.
Context {F : Type} {SF : Scalar F} {rng : Type}.
Variable init_linear : nat -> nat -> rng -> (list (list F) * list F) * rng.

(** [nn.BatchNorm1d] and [nn.Dropout] belong to the tensor library:
    their states ([BN]: running statistics, affine parameters and the
    training flag; [DO]: the probability and the training flag) and
    their behaviour are parameters. *)
Context {BN DO : Type}.
Variable batch_norm_init : pyval F -> result BN.
Variable dropout_init : pyval F -> result DO.
Variable batch_norm_forward :
  BN -> list (list F) -> result (list (list F) * BN).
Variable dropout_forward : DO -> list (list F) -> rng -> list (list F) * rng.

Record t : Type := Make {
  obs_dim : pyval F;
  act_dim : pyval F;
  layer_sizes : list (pyval F);
  device : torch_device;
  fc_layers : list (Linear F);
  nonlinearity : nonlin;
  input_batchnorm : BN;
  input_batchnorm_device : torch_device;  (* where its tensors live *)
  dropout : DO;
  observer : recorder F;       (* self.activations and self.writer *)
  log_dir : pyval F
}.

(** [__init__(self, obs_dim, act_dim, hidden_sizes, nonlinearity,
    dropout, log_dir, *args, **kwargs)] *)
Definition init (obs_dim act_dim hidden_sizes nonlinearity dropout
                 log_dir : pyval F)
    (args : list (pyval F)) (kwargs : list (string * pyval F))
  : M rng t :=
  match hidden_sizes with
  | PyTuple hs =>
      let layer_sizes := [obs_dim] ++ hs ++ [act_dim] in
      let* layers := make_fc_layers init_linear layer_sizes in
      let* nl := lift (resolve_nonlinearity nonlinearity) in
      let* bn := lift (batch_norm_init obs_dim) in
      let* do := lift (dropout_init dropout) in
      ret (Make obs_dim act_dim layer_sizes cpu layers nl bn cpu do
                empty_recorder log_dir)
  | _ => lift (Raise AssertionError)
  end.

(** The parameters of [__init__] before [*args]: the instance first. *)
Definition params : list string :=
  ["self"; "obs_dim"; "act_dim"; "hidden_sizes"; "nonlinearity"; "dropout";
   "log_dir"].

Definition defaults : list (string * pyval F) :=
  [("hidden_sizes", PyTuple [PyInt 64; PyInt 64]);
   ("nonlinearity", PyStr "relu");
   ("dropout", PyInt 0);
   ("log_dir", PyStr "runs/activations_with_batchnorm")].

(** A call of the class with positional arguments [pos] and keyword
    arguments [kw]: [__init__] is called with the new instance before
    [pos], and with [kw]. *)
Definition call (pos : list (pyval F)) (kw : list (string * pyval F))
  : M rng t :=
  let* b := lift (bind_call params (PyObject :: pos) kw) in
  let* obs_dim := lift (param_value defaults b "obs_dim") in
  let* act_dim := lift (param_value defaults b "act_dim") in
  let* hidden_sizes := lift (param_value defaults b "hidden_sizes") in
  let* nonlinearity := lift (param_value defaults b "nonlinearity") in
  let* dropout := lift (param_value defaults b "dropout") in
  let* log_dir := lift (param_value defaults b "log_dir") in
  init obs_dim act_dim hidden_sizes nonlinearity dropout log_dir
       (star_args b) (star_kwargs b).

(** What a forward pass reads and writes besides its argument. *)
Record world : Type := World {
  w_observer : recorder F;
  w_batchnorm : BN;
  w_rng : rng
}.

Definition observed {A} (m : M (recorder F) A) : M world A :=
  fun w => match m (w_observer w) with
           | Ok (a, r) => Ok (a, World r (w_batchnorm w) (w_rng w))
           | Raise e => Raise e
           end.

(** [self.input_batchnorm(out)] *)
Definition call_batchnorm (self : t) (out : tensor F) : M world (tensor F) :=
  fun w =>
    if negb (device_eqb (t_device out) (input_batchnorm_device self))
    then Raise DeviceMismatch
    else match batch_norm_forward (w_batchnorm w) (t_rows out) with
         | Ok (rows, bn') =>
             Ok (Tensor (t_device out) rows,
                 World (w_observer w) bn' (w_rng w))
         | Raise e => Raise e
         end.

(** [self.dropout(out)] *)
Definition call_dropout (self : t) (out : tensor F) : M world (tensor F) :=
  fun w =>
    let '(rows, g') := dropout_forward (dropout self) (t_rows out) (w_rng w) in
    Ok (Tensor (t_device out) rows, World (w_observer w) (w_batchnorm w) g').

(** The body of the loop of [forward]. *)
Definition hidden_step (self : t) (i : Z) (out : tensor F)
  : M world (tensor F) :=
  let* out :=
    layer_at (fc_layers self) i (fun l y => observed (call_linear l y)) out in
  let* out := call_dropout self out in
  ret (apply_nonlin (nonlinearity self) out).

Definition forward_body (self : t) (x : tensor F) : M world (tensor F) :=
  let out := tensor_to (device self) x in
  let* out := call_batchnorm self out in
  let* out :=
    for_each (hidden_step self)
             (py_range (Z.of_nat (length (fc_layers self)) - 1)) out in
  let* out :=
    layer_at (fc_layers self) (-1)
             (fun l y => observed (call_linear l y)) out in
  ret out.

Definition with_state (self : t) (w : world) : t :=
  Make (obs_dim self) (act_dim self) (layer_sizes self) (device self)
       (fc_layers self) (nonlinearity self) (w_batchnorm w)
       (input_batchnorm_device self) (dropout self) (w_observer w)
       (log_dir self).

(** [forward(x)] with the generator that dropout draws from, the one
    of the device the network is on, threaded through. *)
Definition forward (self : t) (x : tensor F) (g : rng)
  : result (tensor F * t * rng) :=
  match forward_body self x
          (World (observer self) (input_batchnorm self) g) with
  | Ok (out, w) => Ok (out, with_state self w, w_rng w)
  | Raise e => Raise e
  end.

Definition register_hooks (self : t) : t :=
  Make (obs_dim self) (act_dim self) (layer_sizes self) (device self)
       (register_hooks_layers (fc_layers self)) (nonlinearity self)
       (input_batchnorm self) (input_batchnorm_device self) (dropout self)
       (observer self) (log_dir self).

(** [to(device)]: the attribute, then every parameter and buffer of
    the sub-modules through [super().to(device)]. *)
Definition to (d : torch_device) (self : t) : t :=
  Make (obs_dim self) (act_dim self) (layer_sizes self) d
       (map (linear_to d) (fc_layers self)) (nonlinearity self)
       (input_batchnorm self) d (dropout self)
       (observer self) (log_dir self).

(** Every tensor the network owns lives on [d], the device the
    network records. *)
Definition resides_on (d : torch_device) (self : t) : Prop :=
  device self = d /\
  input_batchnorm_device self = d /\
  Forall (fun l => param_device l = d) (fc_layers self).

(** What a forward pass returns, with the state of the batch
    normalization and the generator it leaves. *)
Definition outcome (r : tensor F * t * rng) : tensor F * BN * rng :=
  (fst (fst r), input_batchnorm (snd (fst r)), snd r).

(** What is left of a world once the observer is put aside. *)
Definition visible {A} (r : A * world) : A * BN * rng :=
  (fst r, w_batchnorm (snd r), w_rng (snd r)).

(** [set_transformations(self, *args, **kwargs): pass] *)
Definition set_transformations (args : list (pyval F))
    (kwargs : list (string * pyval F)) (self : t) : t := self.

End Defs.
End FCNetworkWithBatchNorm.

(* ===================================================================== *)
(** * class DataLog                                                      *)
(* ===================================================================== *)

(** [s.endswith(suffix)] *)
Definition ends_with (s suffix : string) : bool :=
  let n := String.length s in
  let k := String.length suffix in
  (k <=? n)%nat && String.eqb (String.substring (n - k) k s) suffix.

(** [min(l)] and [max(l)] of a list of integers: an empty argument
    raises [ValueError]. *)
Definition py_min (l : list Z) : result Z :=
  match l with
  | [] => Raise ValueError
  | a :: l' => Ok (fold_left Z.min l' a)
  end.
Definition py_max (l : list Z) : result Z :=
  match l with
  | [] => Raise ValueError
  | a :: l' => Ok (fold_left Z.max l' a)
  end.

(** What [csv.DictReader] hands to [read_log]: the field names of the
    header ([None] for an empty file) and one dictionary per record.  A
    record has every field name as a key; a field the line is too short
    for holds [None], which is the absence of the key here. *)
Record csv_table : Type := CsvTable {
  fieldnames : option (list string);
  records : list (gmap string string)
}.

Module DataLog.
Section Defs.
(** The logged values are Python objects. *)
Context {V : Type}.

Record t : Type := Make {
  log : gmap string (list V);
  max_len : Z;
  global_step : Z
}.

(** [__init__] with [use_wandb=False]. *)
Definition init : t := Make ∅ 0 0.

(** [log_kv(key, value)] with [use_wandb=False]. *)
Definition log_kv (key : string) (value : V) (self : t) : t :=
  let series := default [] (log self !! key) ++ [value] in
  Make (<[key := series]> (log self))
       (if max_len self <? Z.of_nat (length series)
        then max_len self + 1 else max_len self)
       (global_step self).

Definition series_lengths (m : gmap string (list V)) : list Z :=
  (fun kv => Z.of_nat (length (snd kv))) <$> map_to_list m.

(** [shrink_to(num_entries)]: the object after the call, and the
    exception the call ends with, if any.  The series and [max_len]
    are assigned before the assertion is evaluated. *)
Definition shrink_to (num_entries : Z) (self : t) : t * option exn :=
  let self' :=
    Make ((fun series => py_slice_to series num_entries) <$> log self)
         num_entries (global_step self) in
  let lens := series_lengths (log self') in
  match py_min lens with
  | Raise e => (self', Some e)
  | Ok lo =>
      match py_max lens with
      | Raise e => (self', Some e)
      | Ok hi => if lo =? hi then (self', None)
                 else (self', Some AssertionError)
      end
  end.

(** Lines written to the standard output. *)
Inductive output : Type :=
| ErrorOnReading (key : string) (field : option string)
| LogRead (log_path : string) (entries : Z).

(** [eval] is called without a namespace, so the expression it is
    given sees the local names of [read_log] where it is called: the
    arguments, the records, the header, and what the loops have reached
    ([row], [row_dict], [data] and [key]). *)
Record frame : Type := Frame {
  fr_self : t;
  fr_log_path : string;
  fr_listr : list (gmap string string);
  fr_keys : list string;
  fr_row : nat;
  fr_row_dict : gmap string string;
  fr_data : gmap string (list V);
  fr_key : string
}.

(** [eval(s)] in a frame: the value of the expression [s], [None] when
    the evaluation raises.  The expression is taken to leave the names
    of the frame as they are. *)
Variable eval : frame -> string -> option V.
(** The scalar that the text of a field denotes, [None] for a text that
    is malformed. *)
Variable value : string -> option V.
(** [v != row] for a row number. *)
Variable differs_from : V -> Z -> bool.

(** The body of [for key in keys] for one record:
    [try: data[key].append(eval(row_dict[key]))] and the handler that
    prints.  [here] is the frame of the record, to which the series
    read so far and the key are added. *)
Definition read_field (here : gmap string (list V) -> string -> frame)
    (row_dict : gmap string string)
    (acc : gmap string (list V) * list output) (key : string)
  : gmap string (list V) * list output :=
  let '(data, out) := acc in
  match data !! key, row_dict !! key ≫= eval (here data key) with
  | Some series, Some v => (<[key := series ++ [v]]> data, out)
  | _, _ => (data, out ++ [ErrorOnReading key (row_dict !! key)])
  end.

Definition mismatch (row : nat) : exn :=
  RuntimeError ("Iteration " +:+ str_of_nat row
                +:+ " mismatch -- possibly corrupted logfile?").

(** [for row, row_dict in enumerate(listr)], from record number
    [row] on: [rest] is what is left of [listr]. *)
Fixpoint read_rows (self : t) (log_path : string)
    (listr : list (gmap string string)) (keys : list string)
    (rest : list (gmap string string))
    (row : nat) (data : gmap string (list V)) (out : list output)
  : gmap string (list V) * list output * option exn :=
  match rest with
  | [] => (data, out, None)
  | row_dict :: rest' =>
      let here := Frame self log_path listr keys row row_dict in
      let '(data', out') :=
        fold_left (read_field here row_dict) keys (data, out) in
      match data' !! "iteration" with
      | Some series =>
          match py_index series (-1) with
          | Raise e => (data', out', Some e)
          | Ok v =>
              if differs_from v (Z.of_nat row)
              then (data', out', Some (mismatch row))
              else read_rows self log_path listr keys rest' (S row) data' out'
          end
      | None => read_rows self log_path listr keys rest' (S row) data' out'
      end
  end.

(** [read_log(log_path)] on a file that holds [table]: the object
    after the call, what was printed, and the exception the call ends
    with, if any. *)
Definition read_log (log_path : string) (table : csv_table) (self : t)
  : t * list output * option exn :=
  if negb (ends_with log_path "log.csv") then (self, [], Some AssertionError)
  else
    match fieldnames table with
    | None => (self, [], Some TypeError)
    | Some keys =>
        let data0 := fold_left (fun d key => <[key := []]> d) keys ∅ in
        match read_rows self log_path (records table) keys (records table)
                        0 data0 [] with
        | (_, out, Some e) => (self, out, Some e)
        | (data, out, None) =>
            let self1 := Make data (max_len self) (global_step self) in
            match py_max (series_lengths data) with
            | Raise e => (self1, out, Some e)
            | Ok n =>
                (Make data n (global_step self),
                 out ++ [LogRead log_path n], None)
            end
        end
    end.

(** ** What a restored table holds, as the specification words it *)

(** The fields of the records under the header are scalars or
    malformed: wherever [read_log] evaluates one, it finds the scalar
    that the text denotes, or the evaluation raises. *)
Definition scalar_fields (keys : list string)
    (listr : list (gmap string string)) : Prop :=
  forall (fr : frame) (i : nat) row_dict key text,
    listr !! i = Some row_dict -> In key keys ->
    row_dict !! key = Some text ->
    eval fr text = value text.

(** The value of a field of a record, when it has one. *)
Definition field_value (row_dict : gmap string string) (key : string)
  : option V :=
  row_dict !! key ≫= value.

(** The series of a column: the values of its fields, the malformed
    ones skipped. *)
Definition column (listr : list (gmap string string)) (key : string)
  : list V :=
  omap (fun row_dict => field_value row_dict key) listr.

(** The diagnostics of a record: one per malformed field, in the
    order of the header. *)
Definition diagnostics (keys : list string) (row_dict : gmap string string)
  : list output :=
  flat_map (fun key =>
              match field_value row_dict key with
              | Some _ => []
              | None => [ErrorOnReading key (row_dict !! key)]
              end) keys.

(** What a record adds to the series of [key]: its value once per
    occurrence of [key] in the header. *)
Definition appended (keys : list string) (row_dict : gmap string string)
    (key : string) : list V :=
  flat_map (fun k => if String.eqb k key
                     then option_list (field_value row_dict key)
                     else []) keys.

(** The series after the fields of one record were read. *)
Definition extended (keys : list string) (row_dict : gmap string string)
    (data : gmap string (list V)) : gmap string (list V) :=
  map_imap (fun key series => Some (series ++ appended keys row_dict key))
           data.

(** The iteration fields of the records agree with their positions,
    counted from [row]. *)
Definition iteration_agrees (row : nat) (listr : list (gmap string string))
  : Prop :=
  forall (i : nat) row_dict,
    listr !! i = Some row_dict ->
    exists v, field_value row_dict "iteration" = Some v
              /\ differs_from v (Z.of_nat (row + i)) = false.

(** A value that is equal to a row number differs from the next one. *)
Definition counts_rows : Prop :=
  forall v (row : nat),
    differs_from v (Z.of_nat row) = false ->
    differs_from v (Z.of_nat (S row)) = true.

End Defs.
(** ** Reading the current row and saving *)

Section Files.
Context {V : Type}.
(** The text the csv writer writes for a value: [str(value)]. *)
Variable str : V -> string.
(** A Python integer as a logged value. *)
Variable of_int : Z -> V.

(** [get_current_log()]: the loop over the keys fills the dictionary
    with [self.log[key][-1]]; an empty series ends the call.  The keys
    are visited in the order of the map, which is not the order of
    insertion: the dictionary returned and the exception raised do not
    depend on it. *)
Definition get_current_log (self : t (V:=V)) : result (gmap string V) :=
  fold_left
    (fun acc kv =>
       try! row_dict := acc in
       try! v := py_index (snd kv) (-1) in
       Ok (<[fst kv := v]> row_dict))
    (map_to_list (log self)) (Ok ∅).

(** A new log after the calls [log_kv(key, value)] of [kvs], in their
    order. *)
Definition logged (kvs : list (string * V)) : t (V:=V) :=
  fold_left (fun self kv => log_kv (fst kv) (snd kv) self) kvs init.

(** The dictionary of one row of [save_log]:
    [row_dict = {'iteration': row}], then for every key
    [if row < len(self.log[key]): row_dict[key] = self.log[key][row]]. *)
Definition row_dict_of (self : t (V:=V)) (row : Z) : result (gmap string V) :=
  fold_left
    (fun acc kv =>
       try! row_dict := acc in
       if row <? Z.of_nat (length (snd kv))
       then try! v := py_index (snd kv) row in Ok (<[fst kv := v]> row_dict)
       else Ok row_dict)
    (map_to_list (log self)) (Ok {["iteration" := of_int row]}).

(** [writer.writerow(row_dict)] as [csv.DictReader] gives the line
    back: every field name of the header with the text of its value,
    and the empty text for a field the dictionary does not have. *)
Definition writerow (fieldnames : list string) (row_dict : gmap string V)
  : gmap string string :=
  list_to_map
    ((fun f => (f, from_option str EmptyString (row_dict !! f)))
       <$> fieldnames).

(** The two files [save_log] writes. *)
Record saved : Type := Saved {
  pickle_path : string;
  pickled : gmap string (list V);
  csv_path : string;
  csv_file : csv_table
}.

(** [save_log(save_path)].  [keys] is [list(self.log.keys())]: the keys
    of the log in the order of insertion, which the map does not
    record and the caller of this definition provides. *)
Definition save_log (keys : list string) (save_path : string)
    (self : t (V:=V)) : result saved :=
  let fieldnames :=
    if existsb (String.eqb "iteration") keys then keys
    else "iteration" :: keys in
  try! rows :=
    map_result (fun row => rmap (writerow fieldnames) (row_dict_of self row))
               (py_range (max_len self)) in
  Ok (Saved (save_path +:+ "/log.pickle") (log self)
            (save_path +:+ "/log.csv") (CsvTable (Some fieldnames) rows)).

(** [keys] lists the keys of the log, each once. *)
Definition lists_keys (keys : list string) (self : t (V:=V)) : Prop :=
  keys ≡ₚ fst <$> map_to_list (log self).

(** Every logged value is written as a text that evaluates to it. *)
Definition evaluates_back (eval : frame (V:=V) -> string -> option V)
    (self : t (V:=V)) : Prop :=
  forall fr key series v,
    log self !! key = Some series -> In v series ->
    eval fr (str v) = Some v.

End Files.
End DataLog.

(* ===================================================================== *)
(** * The forward pass as the specification words it                     *)
(* ===================================================================== *)

(** These definitions follow the sentences of the specification, on the
    entries of the tensors only; they are compared with the methods
    above, which follow the source. *)
Module Composition.
Section Defs.
Context {F : Type} {SF : Scalar F}.

Definition rows_op (op : F -> F -> F) (x : list (list F)) (v : list F)
  : result (list (list F)) :=
  map_result (fun r => broadcast_row op r v) x.

(** [(x - in_shift) / (in_scale + 1e-8)] *)
Definition normalize (in_shift in_scale : list F) (x : list (list F))
  : result (list (list F)) :=
  try! num := rows_op f_sub x in_shift in
  rows_op f_div num (map (fun s => f_add s f_eps) in_scale).

(** One affine layer. *)
Definition affine (l : Linear F) (x : list (list F))
  : result (list (list F)) :=
  if forallb (row_width_ok (in_features l)) x
  then Ok (map (affine_row l) x)
  else Raise ShapeMismatch.

Definition activate (nl : nonlin) (x : list (list F)) : list (list F) :=
  map (map (apply_scalar_nonlin nl)) x.

(** Each hidden layer followed by the nonlinearity. *)
Fixpoint hidden_stack (nl : nonlin) (hidden : list (Linear F))
    (x : list (list F)) : result (list (list F)) :=
  match hidden with
  | [] => Ok x
  | l :: hidden' =>
      try! y := affine l x in hidden_stack nl hidden' (activate nl y)
  end.

(** [out * out_scale + out_shift] *)
Definition denormalize (out_scale out_shift : list F) (y : list (list F))
  : result (list (list F)) :=
  try! s := rows_op f_mul y out_scale in
  rows_op f_add s out_shift.

(** The layers fit one another from width [w_in] to width [w_out]:
    each takes what the one before gives and has one weight row and
    one bias entry per output. *)
Fixpoint chain_ok (w_in : nat) (layers : list (Linear F)) (w_out : nat)
  : bool :=
  match layers with
  | [] => Nat.eqb w_in w_out
  | l :: layers' =>
      Nat.eqb (in_features l) w_in
      && Nat.eqb (length (weight l)) (out_features l)
      && Nat.eqb (length (bias l)) (out_features l)
      && chain_ok (out_features l) layers' w_out
  end.

(** Every row has [w] entries. *)
Definition width_is (w : nat) (x : list (list F)) : bool :=
  forallb (row_width_ok w) x.

(** Normalize, hidden layers with the nonlinearity, final layer
    without it, denormalize. *)
Definition normalized_mlp (in_shift in_scale out_shift out_scale : list F)
    (nl : nonlin) (hidden : list (Linear F)) (final : Linear F)
    (x : list (list F)) : result (list (list F)) :=
  try! n := normalize in_shift in_scale x in
  try! h := hidden_stack nl hidden n in
  try! y := affine final h in
  denormalize out_scale out_shift y.

(** A plain multi-layer perceptron: the layers only. *)
Definition plain_mlp (nl : nonlin) (hidden : list (Linear F))
    (final : Linear F) (x : list (list F)) : result (list (list F)) :=
  try! h := hidden_stack nl hidden x in
  affine final h.

End Defs.

Section BatchNorm.
Context {F : Type} {SF : Scalar F} {rng BN DO : Type}.
Variable batch_norm_forward :
  BN -> list (list F) -> result (list (list F) * BN).
Variable dropout_forward : DO -> list (list F) -> rng -> list (list F) * rng.

(** For each hidden layer: the affine transform, then dropout, then
    the nonlinearity. *)
Fixpoint hidden_stack_dropout (nl : nonlin) (do : DO)
    (hidden : list (Linear F)) (x : list (list F)) (g : rng)
  : result (list (list F) * rng) :=
  match hidden with
  | [] => Ok (x, g)
  | l :: hidden' =>
      try! y := affine l x in
      let '(y', g') := dropout_forward do y g in
      hidden_stack_dropout nl do hidden' (activate nl y') g'
  end.

(** Batch normalization of the input, the hidden layers, and the
    final affine layer alone: no dropout, no nonlinearity, no
    denormalization after it. *)
Definition batchnorm_mlp (bn : BN) (do : DO) (nl : nonlin)
    (hidden : list (Linear F)) (final : Linear F)
    (x : list (list F)) (g : rng)
  : result (list (list F) * BN * rng) :=
  try! nb := batch_norm_forward bn x in
  try! hg := hidden_stack_dropout nl do hidden (fst nb) g in
  try! y := affine final (fst hg) in
  Ok (y, snd nb, snd hg).

End BatchNorm.
End Composition.

(* ===================================================================== *)
(** * IEEE binary32 scalars                                              *)
(* ===================================================================== *)

(** The default dtype of the tensor library, through the executable
    specification of IEEE arithmetic of the standard library (rounding
    to nearest, ties to even). *)
Module Float32.

Definition prec : Z := 24.
Definition emax : Z := 128.

Definition zero : spec_float := S754_zero false.
Definition one : spec_float := S754_finite false 8388608 (-23).
(** [1e-8] to the nearest: [11258999 * 2^-50]. *)
Definition eps : spec_float := S754_finite false 11258999 (-50).

Definition add : spec_float -> spec_float -> spec_float := SFadd prec emax.
Definition sub : spec_float -> spec_float -> spec_float := SFsub prec emax.
Definition mul : spec_float -> spec_float -> spec_float := SFmul prec emax.
Definition div : spec_float -> spec_float -> spec_float := SFdiv prec emax.

(** [torch.relu]: a number below zero becomes zero, any other value is
    kept: a NaN stays a NaN and the negative zero keeps its sign. *)
Definition relu (x : spec_float) : spec_float :=
  match x with
  | S754_nan => S754_nan
  | _ => if SFltb x zero then zero else x
  end.

(** A value is a binary32 number when its mantissa and exponent are
    the canonical ones of the format. *)
Definition valid (x : spec_float) : bool := valid_binary prec emax x.

(** Every entry of a batch is a binary32 number. *)
Definition valid_rows (x : list (list spec_float)) : bool :=
  forallb (forallb valid) x.

(** The arithmetic of a float32 network.  The hyperbolic tangent and
    the product of a row with the parameters of a layer are not
    specified bit by bit by the library, so they are parameters. *)
Definition scalar (tanh : spec_float -> spec_float)
    (linear : list (list spec_float) -> list spec_float -> list spec_float
              -> list spec_float)
  : Scalar spec_float :=
  {| f_zero := zero; f_one := one; f_eps := eps;
     f_add := add; f_sub := sub; f_mul := mul; f_div := div;
     f_relu := relu; f_tanh := tanh; f_linear := linear |}.

(** The product returns binary32 numbers on binary32 numbers. *)
Definition closed_linear
    (linear : list (list spec_float) -> list spec_float -> list spec_float
              -> list spec_float) : Prop :=
  forall w b r,
    Forall (Forall (fun v => valid v = true)) w ->
    Forall (fun v => valid v = true) b ->
    Forall (fun v => valid v = true) r ->
    Forall (fun v => valid v = true) (linear w b r).

(** The hyperbolic tangent returns binary32 numbers on binary32
    numbers. *)
Definition closed_tanh (tanh : spec_float -> spec_float) : Prop :=
  forall v, valid v = true -> valid (tanh v) = true.

(** A zero without its sign; any other value as it is. *)
Definition unsigned_zero (x : spec_float) : spec_float :=
  match x with
  | S754_zero _ => S754_zero false
  | _ => x
  end.

(** The weights and the biases of a layer are binary32 numbers. *)
Definition valid_layer (l : Linear spec_float) : bool :=
  forallb (forallb valid) (weight l) && forallb valid (bias l).

(** [n] as a binary32 number, for small integers. *)
Definition of_Z (n : Z) : spec_float :=
  binary_normalize prec emax n 0 false.

End Float32.

(* ===================================================================== *)
(** * Concrete networks and logs                                         *)
(* ===================================================================== *)

Module Examples.

(** A clamp to [-1, 1] standing for the hyperbolic tangent. *)
Definition hardtanh (x : spec_float) : spec_float :=
  match x with
  | S754_nan => S754_nan
  | _ => if SFltb x (SFopp Float32.one) then SFopp Float32.one
         else if SFltb Float32.one x then Float32.one else x
  end.

(** A product that starts from the bias and adds the products of the
    entries in their order, each operation rounded. *)
Definition linear_row (w : list (list spec_float)) (b r : list spec_float)
  : list spec_float :=
  map (fun wb =>
         fold_left (fun acc xw => Float32.add acc
                                    (Float32.mul (fst xw) (snd xw)))
                   (combine r (fst wb)) (snd wb))
      (combine w b).

Definition F32 : Scalar spec_float := Float32.scalar hardtanh linear_row.

(** An initialiser that counts its calls: weights one, biases zero. *)
Definition init_ones (n_in n_out : nat) (g : nat)
  : (list (list spec_float) * list spec_float) * nat :=
  ((repeat (repeat Float32.one n_in) n_out, repeat Float32.zero n_out), S g).

Definition no_network : FCNetwork.t (F:=spec_float) :=
  FCNetwork.Make PyNone PyNone [] (None, None, None, None)
    (Vector cpu []) (Vector cpu []) (Vector cpu []) (Vector cpu [])
    [] Tanh empty_recorder PyNone None.

Definition built {A} (dflt : A) (r : result (A * nat)) : A :=
  match r with Ok (a, _) => a | Raise _ => dflt end.

(** [FCNetwork(2, 1, hidden_sizes=(2,), nonlinearity='relu')] *)
Definition relu_net : FCNetwork.t (F:=spec_float) :=
  Eval vm_compute in
    built no_network
      (FCNetwork.init (SF:=F32) init_ones (PyInt 2) (PyInt 1)
         (PyTuple [PyInt 2]) (PyStr "relu") None None None None
         (PyStr "runs/activations") 0%nat).

(** [FCNetwork(2, 1, hidden_sizes=(2,), nonlinearity='relu',
     in_shift=[1, 2], in_scale=[1, 3], out_shift=[3], out_scale=[2])] *)
Definition scaled_net : FCNetwork.t (F:=spec_float) :=
  Eval vm_compute in
    built no_network
      (FCNetwork.init (SF:=F32) init_ones (PyInt 2) (PyInt 1)
         (PyTuple [PyInt 2]) (PyStr "relu")
         (Some [Float32.of_Z 1; Float32.of_Z 2])
         (Some [Float32.of_Z 1; Float32.of_Z 3])
         (Some [Float32.of_Z 3]) (Some [Float32.of_Z 2])
         (PyStr "runs/activations") 0%nat).

Definition no_layer : Linear spec_float := MkLinear 0 0 [] [] cpu [].

(** Parameters that a layer can hold: weights zero, biases the
    negative zero. *)
Definition init_signed_zeros (n_in n_out : nat) (g : nat)
  : (list (list spec_float) * list spec_float) * nat :=
  ((repeat (repeat Float32.zero n_in) n_out, repeat (S754_zero true) n_out),
   S g).

(** [FCNetwork(1, 1, hidden_sizes=())] with these parameters. *)
Definition signed_zero_net : FCNetwork.t (F:=spec_float) :=
  Eval vm_compute in
    built no_network
      (FCNetwork.init (SF:=F32) init_signed_zeros (PyInt 1) (PyInt 1)
         (PyTuple []) (PyStr "tanh") None None None None
         (PyStr "runs/activations") 0%nat).

Definition signed_zero_final : Linear spec_float :=
  Eval vm_compute in List.last (FCNetwork.fc_layers signed_zero_net) no_layer.

Definition scaled_hidden : list (Linear spec_float) :=
  Eval vm_compute in removelast (FCNetwork.fc_layers scaled_net).
Definition scaled_final : Linear spec_float :=
  Eval vm_compute in List.last (FCNetwork.fc_layers scaled_net) no_layer.

(** Batch normalization in evaluation mode: the running statistics
    are used and left as they are. *)
Record bn_eval : Type := BnEval {
  running_mean : list spec_float;
  running_var : list spec_float;
  bn_weight : list spec_float;
  bn_bias : list spec_float
}.

(** [1e-5] to the nearest: [10995116 * 2^-40]. *)
Definition bn_eps : spec_float := S754_finite false 10995116 (-40).

Definition bn_init (n : pyval spec_float) : result bn_eval :=
  match n with
  | PyInt z =>
      if z <? 0 then Raise (RuntimeError "negative dimension")
      else Ok (BnEval (repeat Float32.zero (Z.to_nat z))
                      (repeat Float32.one (Z.to_nat z))
                      (repeat Float32.one (Z.to_nat z))
                      (repeat Float32.zero (Z.to_nat z)))
  | _ => Raise TypeError
  end.

Definition bn_row (bn : bn_eval) (r : list spec_float) : list spec_float :=
  let centred := zip_with_F Float32.sub r (running_mean bn) in
  let deviation :=
    map (fun v => SFsqrt Float32.prec Float32.emax (Float32.add v bn_eps))
        (running_var bn) in
  let scaled := zip_with_F Float32.div centred deviation in
  zip_with_F Float32.add
    (zip_with_F Float32.mul scaled (bn_weight bn)) (bn_bias bn).

Definition bn_forward (bn : bn_eval) (x : list (list spec_float))
  : result (list (list spec_float) * bn_eval) :=
  if forallb (row_width_ok (length (running_mean bn))) x
  then Ok (map (bn_row bn) x, bn)
  else Raise ShapeMismatch.

(** Dropout in evaluation mode: the identity, no random draw. *)
Definition do_init (p : pyval spec_float) : result (pyval spec_float) :=
  Ok p.
Definition do_forward (p : pyval spec_float) (x : list (list spec_float))
    (g : nat) : list (list spec_float) * nat := (x, g).

Definition no_bn_network
  : FCNetworkWithBatchNorm.t (F:=spec_float) (BN:=bn_eval)
                             (DO:=pyval spec_float) :=
  FCNetworkWithBatchNorm.Make PyNone PyNone [] cpu [] Tanh
    (BnEval [] [] [] []) cpu PyNone empty_recorder PyNone.

(** [FCNetworkWithBatchNorm(2, 1, (2,))] *)
Definition bn_net
  : FCNetworkWithBatchNorm.t (F:=spec_float) (BN:=bn_eval)
                             (DO:=pyval spec_float) :=
  Eval vm_compute in
    built no_bn_network
      (FCNetworkWithBatchNorm.call init_ones bn_init do_init
         [PyInt 2; PyInt 1; PyTuple [PyInt 2]] [] 0%nat).

(** A batch of two observations on the CPU. *)
Definition batch : tensor spec_float :=
  Tensor cpu [[Float32.of_Z 3; Float32.of_Z 5];
              [Float32.of_Z (-2); Float32.of_Z 8]].

(** A log of integers whose fields are written in decimal. *)
Definition eval_int (s : string) : option Z :=
  match NilEmpty.uint_of_string s with
  | Some (Decimal.Nil) | None => None
  | Some d => Some (Z.of_uint d)
  end.
Definition differs (v : Z) (row : Z) : bool := negb (v =? row).

(** The evaluation of a field where [read_log] calls it: the name
    [row] is in scope and is the number of the record; a numeral is
    its value; anything else raises. *)
Definition eval_py (fr : DataLog.frame (V:=Z)) (s : string) : option Z :=
  if String.eqb s "row" then Some (Z.of_nat (DataLog.fr_row fr))
  else eval_int s.

(** [log_kv] of ["a"] three times and of ["b"] twice. *)
Definition diverged_log : DataLog.t (V:=Z) :=
  DataLog.log_kv "a" 3 (DataLog.log_kv "b" 5 (DataLog.log_kv "a" 2
    (DataLog.log_kv "b" 4 (DataLog.log_kv "a" 1 DataLog.init)))).

Definition record (iteration reward : string) : gmap string string :=
  list_to_map [("iteration", iteration); ("reward", reward)].

(** A saved table in which the reward of the second record is blank. *)
Definition blank_table : csv_table :=
  CsvTable (Some ["iteration"; "reward"])
           [record "0" "10"; record "1" ""; record "2" "30"].

(** A saved table whose iteration column skips the value one. *)
Definition skipping_table : csv_table :=
  CsvTable (Some ["iteration"; "reward"])
           [record "0" "10"; record "2" "20"; record "3" "30"].

(** A saved table in which the iteration of the second record is
    blank. *)
Definition blank_iteration_table : csv_table :=
  CsvTable (Some ["iteration"; "reward"])
           [record "0" "10"; record "" "20"; record "2" "30"].

(** A saved table in which the iteration of the first record is
    blank. *)
Definition headless_table : csv_table :=
  CsvTable (Some ["iteration"; "reward"])
           [record "" "10"; record "1" "20"].

(** [str(v)] of an integer. *)
Definition str_int (z : Z) : string := NilZero.string_of_int (Z.to_int z).


End Examples.

(* ===================================================================== *)
(** * Relating two runs                                                  *)
(* ===================================================================== *)

(** Two computations agree: started in related states, both raise the
    same exception, or both return the same value in related states. *)
Definition agree {S1 S2 A} (R : S1 -> S2 -> Prop) (m1 : M S1 A) (m2 : M S2 A)
  : Prop :=
  forall s1 s2, R s1 s2 ->
    match m1 s1, m2 s2 with
    | Ok (a1, s1'), Ok (a2, s2') => a1 = a2 /\ R s1' s2'
    | Raise e1, Raise e2 => e1 = e2
    | _, _ => False
    end.

(** Two layers with the same parameters on the same device; their
    hooks may differ. *)
Definition same_parameters {F} (l1 l2 : Linear F) : Prop :=
  in_features l1 = in_features l2 /\ out_features l1 = out_features l2
  /\ weight l1 = weight l2 /\ bias l1 = bias l2
  /\ param_device l1 = param_device l2.

(** The layer is what [nn.Linear(n_in, n_out)] builds: the sizes are
    integers that are not negative, the parameters are on the CPU, no
    hook is attached, and there are [n_out] weight rows and biases. *)
Definition linear_of_sizes {F} (n_in n_out : pyval F) (l : Linear F) : Prop :=
  exists a b : Z,
    n_in = PyInt a /\ n_out = PyInt b /\ 0 <= a /\ 0 <= b
    /\ in_features l = Z.to_nat a /\ out_features l = Z.to_nat b
    /\ param_device l = cpu /\ forward_hooks l = []
    /\ length (weight l) = out_features l
    /\ length (bias l) = out_features l.

(** The product of a row with the parameters of a layer has one entry
    per bias. *)
Definition linear_shapes {F} {SF : Scalar F} : Prop :=
  forall (w : list (list F)) (b r : list F),
    length w = length b -> length (f_linear w b r) = length b.

(** The initialiser of the library returns [n_out] rows of weights and
    [n_out] biases. *)
Definition initialises_shapes {F rng}
    (init_linear : nat -> nat -> rng -> (list (list F) * list F) * rng)
  : Prop :=
  forall n_in n_out g,
    length (fst (fst (init_linear n_in n_out g))) = n_out
    /\ length (snd (fst (init_linear n_in n_out g))) = n_out.

(* ===================================================================== *)
(** * Properties                                                         *)
(* ===================================================================== *)

(** ** The monads *)


Lemma rmap_raise {A B} (f : A -> B) (r : result A) (e : exn) :
  rmap f r = Raise e -> r = Raise e.
Proof. destruct r; simpl; [done|]. by intros [= ->]. Qed.


Lemma value_of_ret {S A} (a : A) : value_of (S:=S) (ret a) (Ok a).
Proof. by intros s. Qed.

Lemma value_of_lift {S A} (r : result A) : value_of (S:=S) (lift r) r.
Proof. intros s. unfold lift. by destruct r. Qed.

Lemma value_of_bind {S A B} (m : M S A) (k : A -> M S B) v kv :
  value_of m v ->
  (forall a, value_of (k a) (kv a)) ->
  value_of (bind m k) (rbind v kv).
Proof.
  intros Hm Hk s. unfold bind. specialize (Hm s).
  destruct (m s) as [[a s']|e]; simpl in Hm; subst v; simpl; [apply Hk|done].
Qed.

Lemma value_of_bind_ok {S A B} (m : M S A) (k : A -> M S B) v kv :
  value_of m v ->
  (forall a, v = Ok a -> value_of (k a) (kv a)) ->
  value_of (bind m k) (rbind v kv).
Proof.
  intros Hm Hk s. unfold bind. specialize (Hm s).
  destruct (m s) as [[a s']|e]; simpl in Hm; subst v; simpl; [by apply Hk|done].
Qed.

Lemma value_of_ext {S A} (m : M S A) v v' :
  value_of m v -> v = v' -> value_of m v'.
Proof. by intros H <-. Qed.

Section ForwardFacts.
Context {F : Type} {SF : Scalar F}.
Implicit Types (x : tensor F) (l : Linear F) (rows : list (list F)).

(** Hooks observe: the value of a layer call is the value of the
    layer. *)
Lemma call_linear_value l x :
  value_of (call_linear l x) (linear_forward l x).
Proof.
  intros s. unfold call_linear, bind, lift, modify, ret.
  by destruct (linear_forward l x).
Qed.

Lemma tensor_op_rows op d rows (v : list F) :
  tensor_op op (Tensor d rows) (Vector d v)
  = rmap (Tensor d) (Composition.rows_op op rows v).
Proof.
  unfold tensor_op, Composition.rows_op, rmap; simpl.
  destruct (map_result _ rows); simpl; [|done].
  by destruct d; simpl; rewrite ?Nat.eqb_refl.
Qed.

Lemma device_eqb_refl d : device_eqb d d = true.
Proof. destruct d; simpl; auto using Nat.eqb_refl. Qed.


Lemma linear_forward_rows l d rows :
  param_device l = d ->
  linear_forward l (Tensor d rows)
  = rmap (Tensor d) (Composition.affine l rows).
Proof.
  intros <-. unfold linear_forward, Composition.affine; simpl.
  rewrite device_eqb_refl; simpl.
  by destruct (forallb _ rows).
Qed.

Lemma py_index_middle {A} (pre post : list A) (a : A) :
  py_index (pre ++ a :: post) (Z.of_nat (length pre)) = Ok a.
Proof.
  unfold py_index; cbv zeta. rewrite length_app; simpl length.
  rewrite !(proj2 (Z.ltb_ge (Z.of_nat (length pre)) 0)) by lia.
  rewrite (proj2 (Z.leb_gt _ _)) by lia.
  simpl. rewrite Nat2Z.id.
  rewrite nth_error_app2 by lia. by rewrite Nat.sub_diag.
Qed.

Lemma py_index_last {A} (pre : list A) (a : A) :
  py_index (pre ++ [a]) (-1) = Ok a.
Proof.
  unfold py_index; cbv zeta. rewrite length_app; simpl length.
  change (-1 <? 0) with true; cbv iota.
  rewrite (proj2 (Z.ltb_ge _ 0)) by lia.
  rewrite (proj2 (Z.leb_gt _ _)) by lia.
  simpl.
  replace (Z.to_nat (-1 + Z.of_nat (length pre + 1))) with (length pre) by lia.
  rewrite nth_error_app2 by lia. by rewrite Nat.sub_diag.
Qed.

Lemma py_range_length_layers {A} (hidden : list A) (final : A) :
  py_range (Z.of_nat (length (hidden ++ [final])) - 1)
  = map Z.of_nat (seq 0 (length hidden)).
Proof.
  unfold py_range. rewrite length_app; simpl. do 3 f_equal. lia.
Qed.

End ForwardFacts.

(** ** Shapes: the composition returns on well-shaped arguments *)

Section Shapes.
Context {F : Type} {SF : Scalar F}.
Implicit Types (l : Linear F) (x y : list (list F)) (v r : list F).

Lemma zip_with_F_length op r v :
  length (zip_with_F op r v) = Nat.min (length r) (length v).
Proof.
  revert v. induction r as [|a r IH]; intros [|b v]; simpl; auto.
Qed.

Lemma width_is_Forall w x :
  Composition.width_is w x = true <-> Forall (fun r => length r = w) x.
Proof.
  unfold Composition.width_is, row_width_ok.
  rewrite forallb_forall, List.Forall_forall.
  split; intros H r Hr; apply Nat.eqb_eq, H, Hr.
Qed.

Lemma map_result_ok {A B} (f : A -> result B) (g : A -> B) (xs : list A) :
  Forall (fun a => f a = Ok (g a)) xs ->
  map_result f xs = Ok (map g xs).
Proof.
  induction 1 as [|a xs Ha _ IH]; simpl; [done|].
  by rewrite Ha; simpl; rewrite IH.
Qed.

Lemma rows_op_ok op w x v :
  Composition.width_is w x = true ->
  length v = w ->
  Composition.rows_op op x v = Ok (map (fun r => zip_with_F op r v) x)
  /\ Composition.width_is w (map (fun r => zip_with_F op r v) x) = true.
Proof.
  intros Hx Hv. apply width_is_Forall in Hx. split.
  - apply map_result_ok. eapply Forall_impl; [exact Hx|].
    intros r Hr; simpl in Hr. unfold broadcast_row.
    by rewrite Hr, Hv, Nat.eqb_refl.
  - apply width_is_Forall, Forall_map.
    eapply Forall_impl; [exact Hx|].
    intros r Hr; simpl in *. rewrite zip_with_F_length. lia.
Qed.

Lemma affine_ok l x :
  linear_shapes ->
  Composition.width_is (in_features l) x = true ->
  length (weight l) = out_features l ->
  length (bias l) = out_features l ->
  Composition.affine l x = Ok (map (affine_row l) x)
  /\ Composition.width_is (out_features l) (map (affine_row l) x) = true.
Proof.
  intros Hs Hx Hw Hb. unfold Composition.affine.
  unfold Composition.width_is in Hx. rewrite Hx. split; [done|].
  apply width_is_Forall, Forall_map, List.Forall_forall. intros r _.
  unfold affine_row. rewrite Hs; [done|congruence].
Qed.

Lemma activate_width nl w x :
  Composition.width_is w x = true ->
  Composition.width_is w (Composition.activate nl x) = true.
Proof.
  rewrite !width_is_Forall. unfold Composition.activate. intros H.
  apply Forall_map. eapply Forall_impl; [exact H|].
  intros r Hr; simpl in *. by rewrite length_map.
Qed.

Lemma chain_ok_cons w l layers w' :
  Composition.chain_ok w (l :: layers) w' = true ->
  in_features l = w /\ length (weight l) = out_features l /\
  length (bias l) = out_features l /\
  Composition.chain_ok (out_features l) layers w' = true.
Proof.
  simpl. rewrite !andb_true_iff, !Nat.eqb_eq. tauto.
Qed.

(** The hidden layers and the final one, on rows of the right width. *)
Lemma layers_ok nl hidden : forall final w w' x,
  linear_shapes ->
  Composition.chain_ok w (hidden ++ [final]) w' = true ->
  Composition.width_is w x = true ->
  exists y,
    Composition.plain_mlp nl hidden final x = Ok y
    /\ Composition.width_is w' y = true.
Proof.
  unfold Composition.plain_mlp.
  induction hidden as [|l hidden IH]; intros final w w' x Hs Hc Hx.
  - apply chain_ok_cons in Hc as (<- & Hw & Hb & Hc).
    simpl in Hc; apply Nat.eqb_eq in Hc as <-.
    cbn [Composition.hidden_stack rbind].
    destruct (affine_ok final x Hs Hx Hw Hb) as [-> Hy]. eauto.
  - cbn [app] in Hc. apply chain_ok_cons in Hc as (<- & Hw & Hb & Hc).
    destruct (affine_ok l x Hs Hx Hw Hb) as [Ha Hy].
    cbn [Composition.hidden_stack]. rewrite Ha. cbn [rbind].
    apply (IH final (out_features l) w'); [done|done|].
    by apply activate_width.
Qed.

Lemma normalized_mlp_ok in_shift in_scale out_shift out_scale nl
    hidden final x :
  linear_shapes ->
  Composition.chain_ok (length in_shift) (hidden ++ [final])
                       (length out_shift) = true ->
  length in_scale = length in_shift ->
  length out_scale = length out_shift ->
  Composition.width_is (length in_shift) x = true ->
  exists y,
    Composition.normalized_mlp in_shift in_scale out_shift out_scale
                               nl hidden final x = Ok y
    /\ Composition.width_is (length out_shift) y = true.
Proof.
  intros Hsh Hc Hi Ho Hx. unfold Composition.normalized_mlp.
  unfold Composition.normalize.
  destruct (rows_op_ok f_sub _ x in_shift Hx eq_refl) as [-> Hn].
  cbn [rbind].
  destruct (rows_op_ok f_div _ _ (map (fun s => f_add s f_eps) in_scale) Hn)
    as [-> Hn']; [by rewrite length_map|].
  cbn [rbind].
  destruct (layers_ok nl hidden final _ _ _ Hsh Hc Hn') as (y & Hy & Hwy).
  unfold Composition.plain_mlp in Hy.
  destruct (Composition.hidden_stack nl hidden _) as [h|]; [|done].
  cbn [rbind] in Hy |- *. rewrite Hy. cbn [rbind].
  unfold Composition.denormalize.
  destruct (rows_op_ok f_mul _ y out_scale Hwy Ho) as [-> Hs]. cbn [rbind].
  destruct (rows_op_ok f_add _ _ out_shift Hs eq_refl) as [-> Hr].
  eauto.
Qed.

End Shapes.

(** ** FCNetwork.forward *)

Section FCNetworkForward.
Context {F : Type} {SF : Scalar F}.
Implicit Types (net : FCNetwork.t (F:=F)) (x : tensor F).

Lemma hidden_loop_value net d suffix : forall prefix final rows,
  FCNetwork.fc_layers net = prefix ++ suffix ++ [final] ->
  Forall (fun l => param_device l = d) suffix ->
  value_of
    (for_each (FCNetwork.hidden_step net)
              (map Z.of_nat (seq (length prefix) (length suffix)))
              (Tensor d rows))
    (rmap (Tensor d)
          (Composition.hidden_stack (FCNetwork.nonlinearity net) suffix rows)).
Proof.
  induction suffix as [|l suffix IH]; intros prefix final rows Hl Hd.
  - apply value_of_ret.
  - inversion Hd as [|? ? Hdl Hds]; subst. cbn [app] in Hl.
    cbn [length seq map for_each Composition.hidden_stack].
    eapply value_of_ext.
    + eapply value_of_bind_ok with
        (v := rmap (Tensor (param_device l))
                   (rmap (Composition.activate (FCNetwork.nonlinearity net))
                         (Composition.affine l rows)))
        (kv := fun a =>
                 rmap (Tensor (param_device l))
                      (Composition.hidden_stack (FCNetwork.nonlinearity net)
                                                suffix (t_rows a))).
      * unfold FCNetwork.hidden_step, layer_at.
        eapply value_of_ext.
        { eapply value_of_bind.
          - eapply value_of_bind; [apply value_of_lift|].
            intros a. apply call_linear_value.
          - intros a. apply value_of_ret. }
        rewrite Hl, py_index_middle. simpl.
        rewrite linear_forward_rows by done.
        by destruct (Composition.affine l rows).
      * intros a Ha.
        destruct (Composition.affine l rows) as [y|e] eqn:Hy;
          simpl in Ha; [|done].
        injection Ha as <-.
        specialize (IH (prefix ++ [l]) final
                       (Composition.activate (FCNetwork.nonlinearity net) y)).
        rewrite length_app in IH; simpl in IH.
        rewrite Nat.add_1_r in IH. apply IH; [|done].
        by rewrite <- app_assoc.
    + by destruct (Composition.affine l rows).
Qed.

Lemma relocate_tensor x :
  FCNetwork.relocate x = Tensor (t_device (FCNetwork.relocate x)) (t_rows x).
Proof.
  unfold FCNetwork.relocate, is_cuda.
  by destruct x as [[] rows].
Qed.

Lemma vector_eta (v : vector F) : v = Vector (v_device v) (v_data v).
Proof. by destruct v. Qed.

Lemma forward_body_value net d x hidden final :
  FCNetwork.fc_layers net = hidden ++ [final] ->
  FCNetwork.resides_on d net ->
  t_device (FCNetwork.relocate x) = d ->
  value_of (FCNetwork.forward_body net x)
    (rmap (Tensor d)
       (Composition.normalized_mlp
          (v_data (FCNetwork.in_shift net)) (v_data (FCNetwork.in_scale net))
          (v_data (FCNetwork.out_shift net))
          (v_data (FCNetwork.out_scale net))
          (FCNetwork.nonlinearity net) hidden final (t_rows x))).
Proof.
  intros Hl (Hd1 & Hd2 & Hd3 & Hd4 & Hdl) Hx.
  unfold FCNetwork.forward_body. rewrite relocate_tensor, Hx.
  rewrite (vector_eta (FCNetwork.in_shift net)), Hd1.
  rewrite (vector_eta (FCNetwork.in_scale net)), Hd2.
  rewrite (vector_eta (FCNetwork.out_shift net)), Hd3.
  rewrite (vector_eta (FCNetwork.out_scale net)), Hd4.
  unfold vector_add_scalar; simpl v_device; simpl v_data.
  rewrite Hl in Hdl. apply Forall_app in Hdl as [Hdh Hdf].
  apply Forall_inv in Hdf; simpl in Hdf.
  eapply value_of_ext.
  - eapply value_of_bind_ok; [apply value_of_lift|]. intros num Hnum.
    rewrite tensor_op_rows in Hnum.
    eapply value_of_bind_ok with
      (kv := fun out =>
         rmap (Tensor d)
           (try! h := Composition.hidden_stack (FCNetwork.nonlinearity net) hidden (t_rows out) in
            try! y := Composition.affine final h in
            Composition.denormalize
              (v_data (FCNetwork.out_scale net))
              (v_data (FCNetwork.out_shift net)) y));
      [apply value_of_lift|].
    intros out Hout.
    assert (exists rows, out = Tensor d rows) as [rows ->].
    { destruct (Composition.rows_op f_sub (t_rows x) _) as [n|]; [|done].
      simpl in Hnum. injection Hnum as <-. rewrite tensor_op_rows in Hout.
      destruct (Composition.rows_op f_div n _) as [n'|]; [|done].
      simpl in Hout. injection Hout as <-. by eexists. }
    simpl t_rows. clear Hnum Hout.
    eapply value_of_ext.
    + eapply value_of_bind_ok.
      * rewrite Hl, py_range_length_layers.
        apply (hidden_loop_value net d hidden [] final rows); [done|done].
      * intros h Hh.
        eapply value_of_bind_ok with
          (kv := fun y =>
             rmap (Tensor d)
               (Composition.denormalize
                  (v_data (FCNetwork.out_scale net))
                  (v_data (FCNetwork.out_shift net)) (t_rows y))).
        { unfold layer_at. eapply value_of_ext.
          - eapply value_of_bind; [apply value_of_lift|].
            intros a. apply call_linear_value.
          - rewrite Hl, py_index_last. simpl. reflexivity. }
        intros y Hy.
        destruct (Composition.hidden_stack (FCNetwork.nonlinearity net) hidden rows) as [hr|];
          [|done].
        simpl in Hh. injection Hh as <-.
        rewrite linear_forward_rows in Hy by done.
        destruct (Composition.affine final hr) as [yr|]; [|done].
        simpl in Hy. injection Hy as <-. simpl t_rows.
        eapply value_of_ext.
        { eapply value_of_bind_ok; [apply value_of_lift|]. intros s Hs.
          eapply value_of_bind_ok with (kv := Ok);
            [apply value_of_lift|].
          intros. apply value_of_ret. }
        rewrite tensor_op_rows. unfold Composition.denormalize.
        destruct (Composition.rows_op f_mul yr _) as [sr|]; [|done].
        simpl. rewrite tensor_op_rows.
        by destruct (Composition.rows_op f_add sr _).
    + destruct (Composition.hidden_stack (FCNetwork.nonlinearity net) hidden rows) as [hr|]; [|done].
      simpl. rewrite linear_forward_rows by done.
      by destruct (Composition.affine final hr).
  - rewrite tensor_op_rows. unfold Composition.normalized_mlp.
    unfold Composition.normalize.
    destruct (Composition.rows_op f_sub (t_rows x) _) as [n|]; [|done].
    simpl. rewrite tensor_op_rows.
    by destruct (Composition.rows_op f_div n _).
Qed.

Lemma forward_value net x v :
  value_of (FCNetwork.forward_body net x) v ->
  rmap fst (FCNetwork.forward net x) = v.
Proof.
  intros H. specialize (H (FCNetwork.observer net)).
  unfold FCNetwork.forward.
  by destruct (FCNetwork.forward_body net x _) as [[out r]|].
Qed.

End FCNetworkForward.

(** ** Device migration of FCNetwork *)

Section FCNetworkDevices.
Context {F : Type} {SF : Scalar F}.
Implicit Types (net : FCNetwork.t (F:=F)) (x : tensor F).

(** [to] leaves every tensor of the network on the target device. *)
Lemma to_resides_on d net :
  FCNetwork.resides_on d (FCNetwork.to d net)
  /\ FCNetwork.device (FCNetwork.to d net) = Some d.
Proof.
  unfold FCNetwork.resides_on, FCNetwork.to; simpl.
  repeat split. apply Forall_map, List.Forall_forall. by intros l _.
Qed.

(** [forward] never brings its input to a CUDA device. *)
Lemma relocate_not_cuda x : is_cuda (FCNetwork.relocate x) = false.
Proof.
  unfold FCNetwork.relocate, is_cuda. by destruct x as [[] rows].
Qed.

Lemma tensor_op_device_mismatch op x (v : vector F) :
  device_eqb (t_device x) (v_device v) = false ->
  is_ok (tensor_op op x v) = false.
Proof.
  intros H. unfold tensor_op.
  destruct (map_result _ (t_rows x)); simpl; [by rewrite H|done].
Qed.

(** Once the network is on a CUDA device, no forward pass returns. *)
Lemma forward_on_cuda_raises net i x :
  is_ok (FCNetwork.forward (FCNetwork.to (cuda i) net) x) = false.
Proof.
  unfold FCNetwork.forward, FCNetwork.forward_body, bind, lift.
  set (out := FCNetwork.relocate x).
  assert (H : is_ok (tensor_op f_sub out
                (FCNetwork.in_shift (FCNetwork.to (cuda i) net))) = false).
  { apply tensor_op_device_mismatch. simpl.
    pose proof (relocate_not_cuda x) as Hc. fold out in Hc.
    unfold is_cuda in Hc. by destruct (t_device out). }
  by destruct (tensor_op f_sub out _).
Qed.

End FCNetworkDevices.

(** ** The composition of a network that was moved *)

Section MovedComposition.
Context {F : Type} {SF : Scalar F}.
Implicit Types (net : FCNetwork.t (F:=F)) (x : tensor F).

Lemma affine_linear_to d (l : Linear F) rows :
  Composition.affine (linear_to d l) rows = Composition.affine l rows.
Proof. done. Qed.

Lemma hidden_stack_linear_to d nl (hidden : list (Linear F)) : forall rows,
  Composition.hidden_stack nl (map (linear_to d) hidden) rows
  = Composition.hidden_stack nl hidden rows.
Proof.
  induction hidden as [|l hidden IH]; intros rows; [done|].
  cbn [map Composition.hidden_stack]. rewrite affine_linear_to.
  destruct (Composition.affine l rows) as [y|]; [|done]. cbn [rbind].
  apply IH.
Qed.

(** C1.  On a network whose tensors live on one device [d], for an
    input that [forward] leaves on [d] or brings there, [forward]
    returns what the composition returns: the input normalized to
    [(x - in_shift) / (in_scale + 1e-8)], each hidden affine layer
    followed by the nonlinearity, the final affine layer without it,
    and the result denormalized as [out * out_scale + out_shift]; it
    raises exactly when the composition does.  This is not so for
    every network: [to] changes no number, so the composition of the
    network moved to a CUDA device is the composition of the network
    before the move, but [forward] of the moved network returns on no
    batch. *)
Theorem forward_is_composition_until_moved_to_cuda net d x hidden final :
  FCNetwork.fc_layers net = hidden ++ [final] ->
  FCNetwork.resides_on d net ->
  t_device (FCNetwork.relocate x) = d ->
  let composition (n : FCNetwork.t (F:=F)) hidden final :=
    Composition.normalized_mlp
      (v_data (FCNetwork.in_shift n)) (v_data (FCNetwork.in_scale n))
      (v_data (FCNetwork.out_shift n)) (v_data (FCNetwork.out_scale n))
      (FCNetwork.nonlinearity n) hidden final (t_rows x) in
  rmap fst (FCNetwork.forward net x)
  = rmap (Tensor d) (composition net hidden final)
  /\ forall i,
       FCNetwork.fc_layers (FCNetwork.to (cuda i) net)
       = map (linear_to (cuda i)) hidden ++ [linear_to (cuda i) final]
       /\ composition (FCNetwork.to (cuda i) net)
                      (map (linear_to (cuda i)) hidden)
                      (linear_to (cuda i) final)
          = composition net hidden final
       /\ is_ok (FCNetwork.forward (FCNetwork.to (cuda i) net) x) = false.
Proof.
  intros Hl Hd Hx composition. split.
  - by apply forward_value, forward_body_value.
  - intros i. split; [|split].
    + cbn [FCNetwork.to FCNetwork.fc_layers]. by rewrite Hl, map_app.
    + unfold composition, Composition.normalized_mlp.
      cbn [FCNetwork.to FCNetwork.in_shift FCNetwork.in_scale
           FCNetwork.out_shift FCNetwork.out_scale FCNetwork.nonlinearity
           vector_to v_data].
      destruct (Composition.normalize _ _ _) as [n|]; [|done].
      cbn [rbind]. rewrite hidden_stack_linear_to.
      destruct (Composition.hidden_stack _ hidden n) as [h|]; [|done].
      cbn [rbind]. by rewrite affine_linear_to.
    + apply forward_on_cuda_raises.
Qed.

End MovedComposition.

Lemma forward_is_composition_until_moved_to_cuda_witness :
  rmap fst (FCNetwork.forward (SF:=Examples.F32) Examples.scaled_net
                              Examples.batch)
  = rmap (Tensor cpu)
         (Composition.normalized_mlp (SF:=Examples.F32)
            (v_data (FCNetwork.in_shift Examples.scaled_net))
            (v_data (FCNetwork.in_scale Examples.scaled_net))
            (v_data (FCNetwork.out_shift Examples.scaled_net))
            (v_data (FCNetwork.out_scale Examples.scaled_net))
            Relu Examples.scaled_hidden Examples.scaled_final
            (t_rows Examples.batch))
  /\ is_ok (FCNetwork.forward (SF:=Examples.F32)
              (FCNetwork.to (cuda 0) Examples.scaled_net) Examples.batch)
     = false.
Proof.
  destruct (forward_is_composition_until_moved_to_cuda (SF:=Examples.F32)
              Examples.scaled_net cpu Examples.batch
              Examples.scaled_hidden Examples.scaled_final) as [H1 H2].
  - reflexivity.
  - repeat split; repeat constructor.
  - reflexivity.
  - split; [exact H1|]. exact (proj2 (proj2 (H2 0%nat))).
Defined.

(** C2.  After [to(d)] every tensor the network owns lives on [d]; but
    for a CUDA device [d] no forward pass called afterwards returns, on
    any input: the input is on the CPU when it reaches the buffers, which
    [to] moved to [d].  On the network [FCNetwork(2, 1, (2,), 'relu')]
    moved to [cuda:0], a CPU batch and the same batch on [cuda:0] both
    raise the device mismatch. *)
Theorem forward_after_to_cuda_raises :
  (forall (F : Type) (SF : Scalar F) (net : FCNetwork.t (F:=F)) d,
      FCNetwork.resides_on d (FCNetwork.to d net))
  /\ (forall (F : Type) (SF : Scalar F) (net : FCNetwork.t (F:=F)) i
             (x : tensor F),
        is_ok (FCNetwork.forward (FCNetwork.to (cuda i) net) x) = false)
  /\ FCNetwork.forward (SF:=Examples.F32)
       (FCNetwork.to (cuda 0) Examples.relu_net) Examples.batch
     = Raise DeviceMismatch
  /\ FCNetwork.forward (SF:=Examples.F32)
       (FCNetwork.to (cuda 0) Examples.relu_net)
       (tensor_to (cuda 0) Examples.batch)
     = Raise DeviceMismatch.
Proof.
  split; [|split; [|split]].
  - intros. apply to_resides_on.
  - intros. apply forward_on_cuda_raises.
  - vm_compute. reflexivity.
  - vm_compute. reflexivity.
Qed.

(** C3.  [forward] brings a CUDA input to the CPU and leaves any other
    input where it is, wherever the buffers are: with the buffers on a
    CUDA device after [to], the input is never brought to them. *)
Theorem forward_relocates_to_cpu_not_to_buffers :
  (forall (F : Type) (x : tensor F),
      t_device (FCNetwork.relocate x)
      = if is_cuda x then cpu else t_device x)
  /\ (forall (F : Type) (net : FCNetwork.t (F:=F)) i (x : tensor F),
        v_device (FCNetwork.in_shift (FCNetwork.to (cuda i) net)) = cuda i
        /\ t_device (FCNetwork.relocate x) <> cuda i)
  /\ (v_device (FCNetwork.in_shift (FCNetwork.to (cuda 0) Examples.relu_net))
      = cuda 0
      /\ t_device (FCNetwork.relocate Examples.batch) = cpu).
Proof.
  split; [|split].
  - intros F [[] rows]; reflexivity.
  - intros F net i [[] rows]; split; try reflexivity; discriminate.
  - split; reflexivity.
Qed.

(** The variant with batch normalization brings its input to the device
    it records: moved to [cuda:0], it returns a batch on [cuda:0]. *)
Lemma batchnorm_forward_after_to_cuda_returns :
  rmap (fun r => t_device (fst (fst r)))
       (FCNetworkWithBatchNorm.forward (SF:=Examples.F32)
          Examples.bn_forward Examples.do_forward
          (FCNetworkWithBatchNorm.to (cuda 0) Examples.bn_net)
          Examples.batch 7%nat)
  = Ok (cuda 0).
Proof. vm_compute. reflexivity. Qed.

(** ** register_hooks *)

Section RegisterHooks.
Context {F : Type} {SF : Scalar F}.
Implicit Types (l : Linear F) (layers : list (Linear F)).

Lemma register_hooks_layers_lookup layers (i : nat) :
  register_hooks_layers layers !! i
  = register_forward_hook ("fc_layer_" +:+ str_of_nat i) <$> layers !! i.
Proof.
  unfold register_hooks_layers.
  apply (list_lookup_imap
           (fun i l =>
              register_forward_hook ("fc_layer_" +:+ str_of_nat i) l)).
Qed.

Lemma imap_hook_count (f : nat -> string) layers :
  map hook_count (imap (fun i l => register_forward_hook (f i) l) layers)
  = map (fun l => S (hook_count l)) layers.
Proof.
  revert f. induction layers as [|l layers IH]; intros f; [done|].
  cbn [imap map]. f_equal.
  - unfold hook_count, register_forward_hook; simpl.
    rewrite length_app; simpl. lia.
  - apply (IH (f ∘ S)).
Qed.

Lemma register_hooks_layers_count layers :
  map hook_count (register_hooks_layers layers)
  = map (fun l => S (hook_count l)) layers.
Proof. apply imap_hook_count. Qed.

Lemma iter_register_hooks_count (n : nat) layers :
  map hook_count (Nat.iter n register_hooks_layers layers)
  = map (fun l => (n + hook_count l)%nat) layers.
Proof.
  induction n as [|n IH]; [done|].
  rewrite Nat.iter_succ, register_hooks_layers_count.
  rewrite <- (map_map hook_count S), IH, map_map. done.
Qed.

End RegisterHooks.

Lemma FCNetwork_iter_register_hooks {F : Type} (net : FCNetwork.t (F:=F))
    (n : nat) :
  FCNetwork.fc_layers (Nat.iter n FCNetwork.register_hooks net)
  = Nat.iter n register_hooks_layers (FCNetwork.fc_layers net).
Proof.
  induction n as [|n IH]; [done|].
  rewrite !Nat.iter_succ. by rewrite <- IH.
Qed.

Lemma BatchNorm_iter_register_hooks {F BN DO : Type}
    (net : FCNetworkWithBatchNorm.t (F:=F) (BN:=BN) (DO:=DO)) (n : nat) :
  FCNetworkWithBatchNorm.fc_layers
    (Nat.iter n FCNetworkWithBatchNorm.register_hooks net)
  = Nat.iter n register_hooks_layers (FCNetworkWithBatchNorm.fc_layers net).
Proof.
  induction n as [|n IH]; [done|].
  rewrite !Nat.iter_succ. by rewrite <- IH.
Qed.

(** C8, as the code has it.  On both network variants every call of
    [register_hooks] attaches one more observer to every layer, named
    [fc_layer_i] for the layer of index [i], whatever is attached
    already: after [n] calls every layer has [n] observers more than
    before, so exactly one per layer after the first call on a network
    that had none. *)
Theorem register_hooks_attaches_one_more_per_call :
  (forall (F : Type) (net : FCNetwork.t (F:=F)) (i : nat),
      FCNetwork.fc_layers (FCNetwork.register_hooks net) !! i
      = register_forward_hook ("fc_layer_" +:+ str_of_nat i)
          <$> FCNetwork.fc_layers net !! i)
  /\ (forall (F : Type) (net : FCNetwork.t (F:=F)) (n : nat),
        map hook_count
            (FCNetwork.fc_layers (Nat.iter n FCNetwork.register_hooks net))
        = map (fun l => (n + hook_count l)%nat) (FCNetwork.fc_layers net))
  /\ (forall (F BN DO : Type)
             (net : FCNetworkWithBatchNorm.t (F:=F) (BN:=BN) (DO:=DO))
             (i : nat),
        FCNetworkWithBatchNorm.fc_layers
          (FCNetworkWithBatchNorm.register_hooks net) !! i
        = register_forward_hook ("fc_layer_" +:+ str_of_nat i)
            <$> FCNetworkWithBatchNorm.fc_layers net !! i)
  /\ (forall (F BN DO : Type)
             (net : FCNetworkWithBatchNorm.t (F:=F) (BN:=BN) (DO:=DO))
             (n : nat),
        map hook_count
            (FCNetworkWithBatchNorm.fc_layers
               (Nat.iter n FCNetworkWithBatchNorm.register_hooks net))
        = map (fun l => (n + hook_count l)%nat)
              (FCNetworkWithBatchNorm.fc_layers net)).
Proof.
  repeat split; intros.
  - apply register_hooks_layers_lookup.
  - rewrite FCNetwork_iter_register_hooks. apply iter_register_hooks_count.
  - apply register_hooks_layers_lookup.
  - rewrite BatchNorm_iter_register_hooks. apply iter_register_hooks_count.
Qed.

(** C8 as stated fails.  Were a second call of [register_hooks] to
    attach nothing, every layer of a network built without observers
    would have exactly one after two calls; on
    [FCNetwork(2, 1, (2,), 'relu')] each of the two layers has two. *)
Lemma register_hooks_twice_attaches_two :
  ~ (forall net : FCNetwork.t (F:=spec_float),
        Forall (fun l => hook_count l = 0%nat) (FCNetwork.fc_layers net) ->
        FCNetwork.register_hooks (FCNetwork.register_hooks net)
        = FCNetwork.register_hooks net
        /\ Forall (fun l => hook_count l = 1%nat)
                  (FCNetwork.fc_layers
                     (FCNetwork.register_hooks
                        (FCNetwork.register_hooks net)))).
Proof.
  intros H. destruct (H Examples.relu_net) as [_ H1].
  - repeat constructor.
  - apply Forall_inv in H1. vm_compute in H1. discriminate.
Qed.

(** The same on the variant with batch normalization, and what a
    forward pass writes after two calls: the histogram of each layer
    twice. *)
Lemma register_hooks_twice_observed :
  map hook_count
      (FCNetwork.fc_layers
         (FCNetwork.register_hooks
            (FCNetwork.register_hooks Examples.relu_net)))
  = [2; 2]%nat
  /\ map hook_count
         (FCNetworkWithBatchNorm.fc_layers
            (FCNetworkWithBatchNorm.register_hooks
               (FCNetworkWithBatchNorm.register_hooks Examples.bn_net)))
     = [2; 2]%nat
  /\ rmap (fun r => map fst (histograms (FCNetwork.observer (snd r))))
          (FCNetwork.forward (SF:=Examples.F32)
             (FCNetwork.register_hooks
                (FCNetwork.register_hooks Examples.relu_net))
             Examples.batch)
     = Ok ["Activations/fc_layer_0"; "Activations/fc_layer_0";
           "Activations/fc_layer_1"; "Activations/fc_layer_1"].
Proof. split; [reflexivity|]. split; [reflexivity|]. by vm_compute. Qed.

(** ** Construction *)

Lemma py_index_nat {A} (l : list A) (k : nat) (a : A) :
  nth_error l k = Some a -> py_index l (Z.of_nat k) = Ok a.
Proof.
  intros H. assert (k < length l)%nat by (apply nth_error_Some; congruence).
  unfold py_index; cbv zeta.
  rewrite !(proj2 (Z.ltb_ge (Z.of_nat k) 0)) by lia.
  rewrite (proj2 (Z.leb_gt _ _)) by lia.
  simpl. by rewrite Nat2Z.id, H.
Qed.

Section Construction.
Context {F : Type} {rng : Type}.
Variable init_linear : nat -> nat -> rng -> (list (list F) * list F) * rng.

Lemma nn_Linear_ok (a b : Z) (g : rng) :
  0 <= a -> 0 <= b ->
  exists layer g', nn_Linear init_linear (PyInt a) (PyInt b) g
                   = Ok (layer, g').
Proof.
  intros Ha Hb. unfold nn_Linear.
  rewrite (proj2 (Z.ltb_ge a 0)), (proj2 (Z.ltb_ge b 0)) by lia. simpl.
  destruct (init_linear _ _ g) as [[w bs] g']. eauto.
Qed.

Lemma make_fc_layers_loop_ok (sizes : list Z) :
  Forall (fun z => 0 <= z) sizes ->
  forall (m k : nat) acc g,
    (m = 0 \/ k + m < length sizes)%nat ->
    exists layers g',
      for_each
        (fun i acc =>
           let* n_in := lift (py_index (map PyInt sizes) i) in
           let* n_out := lift (py_index (map PyInt sizes) (i + 1)) in
           let* layer := nn_Linear init_linear n_in n_out in
           ret (acc ++ [layer]))
        (map Z.of_nat (seq k m)) acc g = Ok (layers, g')
      /\ length layers = (length acc + m)%nat.
Proof.
  intros Hs. induction m as [|m IH]; intros k acc g Hk.
  - exists acc, g. split; [done|lia].
  - destruct Hk as [|Hk]; [done|].
    destruct (nth_error sizes k) as [a|] eqn:Ea;
      [|apply nth_error_None in Ea; lia].
    destruct (nth_error sizes (S k)) as [b|] eqn:Eb;
      [|apply nth_error_None in Eb; lia].
    assert (0 <= a) by (eapply (proj1 (List.Forall_forall _ _) Hs),
                          nth_error_In, Ea).
    assert (0 <= b) by (eapply (proj1 (List.Forall_forall _ _) Hs),
                          nth_error_In, Eb).
    destruct (nn_Linear_ok a b g) as (layer & g1 & Hl); [done|done|].
    cbn [seq map for_each]. unfold bind at 1.
    unfold bind at 1, lift at 1.
    rewrite (py_index_nat _ k (PyInt a)) by (by rewrite nth_error_map, Ea).
    unfold bind at 1, lift at 1.
    replace (Z.of_nat k + 1) with (Z.of_nat (S k)) by lia.
    rewrite (py_index_nat _ (S k) (PyInt b))
      by (by rewrite nth_error_map, Eb).
    unfold bind at 1. rewrite Hl. unfold ret at 1.
    destruct (IH (S k) (acc ++ [layer]) g1) as (layers & g' & Hr & Hlen);
      [lia|].
    exists layers, g'. split; [exact Hr|].
    rewrite Hlen, length_app; simpl. lia.
Qed.

(** The layers are built whenever the sizes are non-negative
    integers: one layer per consecutive pair. *)
Lemma make_fc_layers_ok (sizes : list Z) (g : rng) :
  Forall (fun z => 0 <= z) sizes ->
  exists layers g',
    make_fc_layers init_linear (map PyInt sizes) g = Ok (layers, g')
    /\ length layers = (length sizes - 1)%nat.
Proof.
  intros Hs. unfold make_fc_layers, py_range. rewrite length_map.
  destruct (make_fc_layers_loop_ok sizes Hs
              (Z.to_nat (Z.of_nat (length sizes) - 1)) 0 [] g)
    as (layers & g' & Hr & Hlen); [lia|].
  exists layers, g'. split; [exact Hr|]. simpl in Hlen. lia.
Qed.

End Construction.

Lemma resolve_nonlinearity_other {F} (nonlinearity : pyval F) :
  py_eq_str nonlinearity "relu" = Ok false ->
  resolve_nonlinearity nonlinearity = Ok Tanh.
Proof. unfold resolve_nonlinearity. by intros ->. Qed.

(** The values whose comparison with ['relu'] is [False]: a string
    other than ['relu'], an array of one entry, and anything that is
    neither a string nor an array. *)
Lemma py_eq_str_other {F} (v : pyval F) :
  match v with
  | PyStr s => s <> "relu"
  | PyArray a => length a = 1%nat
  | _ => True
  end ->
  py_eq_str v "relu" = Ok false.
Proof.
  destruct v as [|z|s|items|items|a|]; try done.
  - intros H. cbn. by rewrite (proj2 (String.eqb_neq s "relu")).
  - by destruct a as [|? [|? ?]].
Qed.

Section Nonlinearity.
Context {F : Type} {SF : Scalar F} {rng : Type}.
Variable init_linear : nat -> nat -> rng -> (list (list F) * list F) * rng.
Context {BN DO : Type}.
Variable batch_norm_init : pyval F -> result BN.
Variable dropout_init : pyval F -> result DO.

Lemma buffer_or_ok (v : option (list F)) (c : F) (n : Z) :
  0 <= n -> exists b, FCNetwork.buffer_or v c (PyInt n) = Ok b.
Proof.
  intros Hn. destruct v as [a|]; simpl; [eauto|].
  unfold torch_full. rewrite (proj2 (Z.ltb_ge n 0)) by lia. eauto.
Qed.

Lemma FCNetwork_init_ok (o a : Z) (sizes : list Z) nonlinearity nl
    in_shift in_scale out_shift out_scale log_dir (g : rng) :
  0 <= o -> 0 <= a -> Forall (fun z => 0 <= z) sizes ->
  resolve_nonlinearity nonlinearity = Ok nl ->
  exists net g',
    FCNetwork.init init_linear (PyInt o) (PyInt a) (PyTuple (map PyInt sizes))
      nonlinearity in_shift in_scale out_shift out_scale log_dir g
    = Ok (net, g')
    /\ FCNetwork.nonlinearity net = nl
    /\ length (FCNetwork.fc_layers net) = S (length sizes).
Proof.
  intros Ho Ha Hs Hnl. unfold FCNetwork.init.
  unfold FCNetwork.set_transformations. cbn [FCNetwork.obs_dim FCNetwork.act_dim].
  destruct (buffer_or_ok in_shift f_zero o Ho) as [b1 ->].
  destruct (buffer_or_ok in_scale f_one o Ho) as [b2 ->].
  destruct (buffer_or_ok out_shift f_zero a Ha) as [b3 ->].
  destruct (buffer_or_ok out_scale f_one a Ha) as [b4 ->].
  cbn [rbind]. unfold bind at 1, lift at 1.
  assert (Hall : Forall (fun z => 0 <= z) (o :: sizes ++ [a])).
  { constructor; [done|]. apply Forall_app. split; [done|]. by constructor. }
  destruct (make_fc_layers_ok init_linear (o :: sizes ++ [a]) g Hall)
    as (layers & g' & Hl & Hlen).
  replace ([PyInt o] ++ map PyInt sizes ++ [PyInt a])
    with (map (PyInt (F:=F)) (o :: sizes ++ [a]))
    by (by cbn [map app]; rewrite map_app).
  unfold bind. rewrite Hl, Hnl. unfold lift, ret.
  eexists _, g'. split; [reflexivity|]. split; [done|].
  cbn [FCNetwork.with_network FCNetwork.fc_layers].
  rewrite Hlen. cbn [length]. rewrite length_app; simpl. lia.
Qed.

Lemma BatchNorm_init_ok (o a : Z) (sizes : list Z) nonlinearity nl
    dropout log_dir args kwargs (g : rng) :
  0 <= o -> 0 <= a -> Forall (fun z => 0 <= z) sizes ->
  resolve_nonlinearity nonlinearity = Ok nl ->
  is_ok (batch_norm_init (PyInt o)) = true ->
  is_ok (dropout_init dropout) = true ->
  exists net g',
    FCNetworkWithBatchNorm.init init_linear batch_norm_init dropout_init
      (PyInt o) (PyInt a) (PyTuple (map PyInt sizes)) nonlinearity
      dropout log_dir args kwargs g
    = Ok (net, g')
    /\ FCNetworkWithBatchNorm.nonlinearity net = nl
    /\ length (FCNetworkWithBatchNorm.fc_layers net) = S (length sizes).
Proof.
  intros Ho Ha Hs Hnl Hbn Hdo. unfold FCNetworkWithBatchNorm.init.
  assert (Hall : Forall (fun z => 0 <= z) (o :: sizes ++ [a])).
  { constructor; [done|]. apply Forall_app. split; [done|]. by constructor. }
  destruct (make_fc_layers_ok init_linear (o :: sizes ++ [a]) g Hall)
    as (layers & g' & Hl & Hlen).
  replace ([PyInt o] ++ map PyInt sizes ++ [PyInt a])
    with (map (PyInt (F:=F)) (o :: sizes ++ [a]))
    by (by cbn [map app]; rewrite map_app).
  unfold bind, lift, ret. rewrite Hl, Hnl.
  destruct (batch_norm_init (PyInt o)) as [bn|]; [|done].
  destruct (dropout_init dropout) as [do|]; [|done].
  eexists _, g'. split; [reflexivity|]. split; [done|].
  cbn [FCNetworkWithBatchNorm.fc_layers].
  rewrite Hlen. cbn [length]. rewrite length_app; simpl. lia.
Qed.

(** C9, as the code has it.  Whatever is passed as [nonlinearity], if
    its comparison with ['relu'] is [False] (any string other than
    ['relu'], [None], a number, a tuple, a list) then both
    constructors do exactly what they do for ['tanh']: a network they
    return has the hyperbolic tangent as its nonlinearity, and they
    return one whenever the dimensions and the hidden sizes are
    non-negative integers (and, for the variant with batch
    normalization, its two sub-modules are built). *)
Theorem nonlinearity_unequal_to_relu_resolves_to_tanh
    (nonlinearity : pyval F) :
  py_eq_str nonlinearity "relu" = Ok false ->
  (forall obs_dim act_dim hidden_sizes in_shift in_scale out_shift
          out_scale log_dir g,
      FCNetwork.init init_linear obs_dim act_dim hidden_sizes nonlinearity
        in_shift in_scale out_shift out_scale log_dir g
      = FCNetwork.init init_linear obs_dim act_dim hidden_sizes
          (PyStr "tanh") in_shift in_scale out_shift out_scale log_dir g)
  /\ (forall obs_dim act_dim hidden_sizes dropout log_dir args kwargs g,
        FCNetworkWithBatchNorm.init init_linear batch_norm_init
          dropout_init obs_dim act_dim hidden_sizes nonlinearity dropout
          log_dir args kwargs g
        = FCNetworkWithBatchNorm.init init_linear batch_norm_init
            dropout_init obs_dim act_dim hidden_sizes (PyStr "tanh")
            dropout log_dir args kwargs g)
  /\ (forall o a sizes in_shift in_scale out_shift out_scale log_dir g,
        0 <= o -> 0 <= a -> Forall (fun z => 0 <= z) sizes ->
        exists net g',
          FCNetwork.init init_linear (PyInt o) (PyInt a)
            (PyTuple (map PyInt sizes)) nonlinearity
            in_shift in_scale out_shift out_scale log_dir g
          = Ok (net, g')
          /\ FCNetwork.nonlinearity net = Tanh)
  /\ (forall o a sizes dropout log_dir args kwargs g,
        0 <= o -> 0 <= a -> Forall (fun z => 0 <= z) sizes ->
        is_ok (batch_norm_init (PyInt o)) = true ->
        is_ok (dropout_init dropout) = true ->
        exists net g',
          FCNetworkWithBatchNorm.init init_linear batch_norm_init
            dropout_init (PyInt o) (PyInt a) (PyTuple (map PyInt sizes))
            nonlinearity dropout log_dir args kwargs g
          = Ok (net, g')
          /\ FCNetworkWithBatchNorm.nonlinearity net = Tanh).
Proof.
  intros Hne. pose proof (resolve_nonlinearity_other _ Hne) as Hr.
  split; [|split; [|split]].
  - intros. unfold FCNetwork.init. by rewrite Hr.
  - intros. unfold FCNetworkWithBatchNorm.init. by rewrite Hr.
  - intros o a sizes i1 i2 o1 o2 log_dir g Ho Ha Hs.
    destruct (FCNetwork_init_ok o a sizes nonlinearity Tanh i1 i2 o1 o2
                log_dir g Ho Ha Hs Hr) as (net & g' & Hi & Hn & _).
    by exists net, g'.
  - intros o a sizes dropout log_dir args kwargs g Ho Ha Hs Hbn Hdo.
    destruct (BatchNorm_init_ok o a sizes nonlinearity Tanh dropout log_dir
                args kwargs g Ho Ha Hs Hr Hbn Hdo)
      as (net & g' & Hi & Hn & _).
    by exists net, g'.
Qed.

End Nonlinearity.

Lemma nonlinearity_unequal_to_relu_resolves_to_tanh_witness :
  (exists net g',
      FCNetwork.init (SF:=Examples.F32) Examples.init_ones (PyInt 2) (PyInt 1)
        (PyTuple [PyInt 2]) (PyStr "sigmoid") None None None None
        (PyStr "runs/activations") 0%nat
      = Ok (net, g')
      /\ FCNetwork.nonlinearity net = Tanh)
  /\ (exists net g',
        FCNetworkWithBatchNorm.init Examples.init_ones Examples.bn_init
          Examples.do_init (PyInt 2) (PyInt 1) (PyTuple [PyInt 2])
          (PyStr "") (PyInt 0) (PyStr "runs/activations_with_batchnorm")
          [] [] 0%nat
        = Ok (net, g')
        /\ FCNetworkWithBatchNorm.nonlinearity net = Tanh).
Proof.
  split.
  - destruct (nonlinearity_unequal_to_relu_resolves_to_tanh
                (SF:=Examples.F32)
                Examples.init_ones Examples.bn_init Examples.do_init
                (PyStr "sigmoid")) as (_ & _ & H & _); [reflexivity|].
    apply (H 2 1 [2]); [lia|lia|repeat constructor; lia].
  - destruct (nonlinearity_unequal_to_relu_resolves_to_tanh
                (SF:=Examples.F32)
                Examples.init_ones Examples.bn_init Examples.do_init
                (PyStr "")) as (_ & _ & _ & H); [reflexivity|].
    apply (H 2 1 [2]); [lia|lia|repeat constructor; lia|reflexivity..].
Defined.

(** C9 as stated fails.  Were every argument other than the string
    ['relu'] to give a network with the hyperbolic tangent, so would a
    numpy array of two entries; the comparison of an array with
    ['relu'] is an array, whose truth value is ambiguous, and both
    constructors raise [ValueError] after the layers were built. *)
Lemma array_nonlinearity_raises_ValueError :
  ~ (forall nonlinearity : pyval spec_float,
        nonlinearity <> PyStr "relu" ->
        exists net g',
          FCNetwork.init (SF:=Examples.F32) Examples.init_ones
            (PyInt 2) (PyInt 1) (PyTuple [PyInt 2]) nonlinearity
            None None None None (PyStr "runs/activations") 0%nat
          = Ok (net, g')
          /\ FCNetwork.nonlinearity net = Tanh).
Proof.
  intros H.
  destruct (H (PyArray [Float32.of_Z 1; Float32.of_Z 2]))
    as (net & g' & Hi & _); [discriminate|].
  vm_compute in Hi. discriminate.
Qed.

(** What both constructors do with that array. *)
Lemma array_nonlinearity_observed :
  FCNetwork.init (SF:=Examples.F32) Examples.init_ones
    (PyInt 2) (PyInt 1) (PyTuple [PyInt 2])
    (PyArray [Float32.of_Z 1; Float32.of_Z 2])
    None None None None (PyStr "runs/activations") 0%nat
  = Raise ValueError
  /\ FCNetworkWithBatchNorm.init Examples.init_ones Examples.bn_init
       Examples.do_init (PyInt 2) (PyInt 1) (PyTuple [PyInt 2])
       (PyArray [Float32.of_Z 1; Float32.of_Z 2]) (PyInt 0)
       (PyStr "runs/activations_with_batchnorm") [] [] 0%nat
     = Raise ValueError.
Proof. split; vm_compute; reflexivity. Qed.

(** ** Extra arguments of FCNetworkWithBatchNorm *)

Section Binding.
Context {F : Type}.
Implicit Types (kw extras bound extra : list (string * pyval F)).

Lemma assoc_app_None {A} (k : string) (l1 l2 : list (string * A)) :
  assoc k l1 = None -> assoc k l2 = None -> assoc k (l1 ++ l2) = None.
Proof.
  induction l1 as [|[k' v] l1 IH]; simpl; [done|].
  destruct (String.eqb k k'); [done|auto].
Qed.


(** Keywords that name no parameter and do not repeat are collected,
    in order, and bind nothing. *)
Lemma bind_keywords_extras params extras : forall bound extra,
  Forall (fun kv => is_param params (fst kv) = false) extras ->
  NoDup (map fst extras) ->
  Forall (fun kv => assoc (fst kv) extra = None) extras ->
  bind_keywords params extras bound extra = Ok (bound, extra ++ extras).
Proof.
  induction extras as [|[k v] extras IH]; intros bound extra Hp Hn Hf.
  - by rewrite app_nil_r.
  - inversion Hp as [|? ? Hk Hp']; subst.
    inversion Hf as [|? ? Hfk Hf']; subst.
    apply NoDup_cons in Hn as [Hknot Hn']. simpl in *.
    rewrite Hk, Hfk, IH; [by rewrite <- app_assoc|done|done|].
    apply List.Forall_forall. intros [k' v'] Hin.
    apply assoc_app_None.
    + by apply (proj1 (List.Forall_forall _ _) Hf' (k', v')).
    + simpl. destruct (String.eqb_spec k' k) as [->|]; [|done].
      destruct Hknot. apply list_elem_of_In, in_map_iff.
      by exists (k, v').
Qed.

Lemma bind_keywords_app params kw : forall extras bound extra,
  bind_keywords params (kw ++ extras) bound extra
  = (try! be := bind_keywords params kw bound extra in
     bind_keywords params extras (fst be) (snd be)).
Proof.
  induction kw as [|[k v] kw IH]; intros extras bound extra; [done|].
  cbn [app bind_keywords].
  destruct (is_param params k).
  - destruct (assoc k bound); [done|apply IH].
  - destruct (assoc k extra); [done|apply IH].
Qed.

(** A key that is neither collected already nor among the keywords is
    not collected. *)
Lemma bind_keywords_fresh params (k : string) kw : forall bound extra b e,
  bind_keywords params kw bound extra = Ok (b, e) ->
  assoc k extra = None -> assoc k kw = None -> assoc k e = None.
Proof.
  induction kw as [|[k' v] kw IH]; intros bound extra b e H He Hk.
  - by injection H as <- <-.
  - simpl in H, Hk. destruct (String.eqb_spec k k') as [->|Hne]; [done|].
    destruct (is_param params k').
    + destruct (assoc k' bound); [done|]. by eapply IH.
    + destruct (assoc k' extra); [done|]. eapply IH; [exact H| |done].
      apply assoc_app_None; [done|]. simpl.
      by destruct (String.eqb_spec k k').
Qed.

Lemma bind_call_extras params pos kw extras :
  Forall (fun kv => is_param params (fst kv) = false) extras ->
  NoDup (map fst extras) ->
  Forall (fun kv => assoc (fst kv) kw = None) extras ->
  bind_call params pos (kw ++ extras)
  = rmap (fun b => BoundCall (named b) (star_args b)
                             (star_kwargs b ++ extras))
         (bind_call params pos kw).
Proof.
  intros Hp Hn Hf. unfold bind_call. rewrite bind_keywords_app.
  destruct (bind_keywords params kw _ []) as [[b e]|] eqn:Hb; [|done].
  cbn [rbind fst snd rmap]. rewrite bind_keywords_extras; [done..|].
  apply List.Forall_forall. intros [k v] Hin.
  eapply bind_keywords_fresh; [exact Hb|done|].
  by apply (proj1 (List.Forall_forall _ _) Hf (k, v)).
Qed.

Lemma combine_firstn {A B} (l1 : list A) (l2 : list B) :
  combine l1 (firstn (length l1) l2) = combine l1 l2.
Proof.
  revert l2. induction l1 as [|a l1 IH]; intros [|b l2]; simpl; [done..|].
  by rewrite IH.
Qed.

Lemma bind_call_positional params pos kw :
  rmap named (bind_call params (firstn (length params) pos) kw)
  = rmap named (bind_call params pos kw).
Proof.
  unfold bind_call. rewrite combine_firstn.
  by destruct (bind_keywords params kw _ []).
Qed.

End Binding.

Section ExtraArguments.
Context {F : Type} {SF : Scalar F} {rng : Type}.
Variable init_linear : nat -> nat -> rng -> (list (list F) * list F) * rng.
Context {BN DO : Type}.
Variable batch_norm_init : pyval F -> result BN.
Variable dropout_init : pyval F -> result DO.
Variable batch_norm_forward :
  BN -> list (list F) -> result (list (list F) * BN).
Variable dropout_forward : DO -> list (list F) -> rng -> list (list F) * rng.

Local Abbreviation call :=
  (FCNetworkWithBatchNorm.call init_linear batch_norm_init dropout_init).

(** The body of [__init__] does not look at [*args] and [**kwargs]. *)
Lemma init_ignores_extras obs_dim act_dim hidden_sizes nonlinearity dropout
    log_dir args kwargs args' kwargs' :
  FCNetworkWithBatchNorm.init init_linear batch_norm_init dropout_init
    obs_dim act_dim hidden_sizes nonlinearity dropout log_dir args kwargs
  = FCNetworkWithBatchNorm.init init_linear batch_norm_init dropout_init
      obs_dim act_dim hidden_sizes nonlinearity dropout log_dir
      args' kwargs'.
Proof. reflexivity. Qed.

Lemma param_value_named defaults (b b' : bound_call F) name :
  named b = named b' ->
  param_value defaults b name = param_value defaults b' name.
Proof. unfold param_value. by intros ->. Qed.

(** A call is decided by what it binds to the named parameters. *)
Lemma call_named pos kw pos' kw' g :
  rmap named (bind_call FCNetworkWithBatchNorm.params (PyObject :: pos) kw)
  = rmap named (bind_call FCNetworkWithBatchNorm.params (PyObject :: pos')
                          kw') ->
  call pos kw g = call pos' kw' g.
Proof.
  intros H. unfold FCNetworkWithBatchNorm.call.
  destruct (bind_call _ (PyObject :: pos) kw) as [b|e];
    destruct (bind_call _ (PyObject :: pos') kw') as [b'|e']; simpl in H;
    try done.
  - injection H as H. unfold bind at 1. unfold bind at 7.
    unfold lift at 1. unfold lift at 7.
    unfold bind, lift.
    rewrite !(param_value_named _ b b' _ H).
    repeat (destruct (param_value _ b' _); [|done]).
    by rewrite (init_ignores_extras _ _ _ _ _ _ (star_args b)
                  (star_kwargs b) (star_args b') (star_kwargs b')).
  - by injection H as ->.
Qed.

(** C10.  A call of the constructor with more positional arguments
    than the six parameters after [self], and with keywords that name
    no parameter of [__init__] (such as [in_shift], [in_scale],
    [out_shift] and [out_scale]; not [self], which the instance is
    bound to), does
    exactly what the call without them does: it raises in the same
    cases and otherwise returns the same network, whose forward pass
    is therefore the same; [set_transformations] leaves the network as
    it is. *)
Theorem extra_arguments_are_ignored pos kw extras g :
  Forall (fun kv => is_param FCNetworkWithBatchNorm.params (fst kv) = false)
         extras ->
  NoDup (map fst extras) ->
  Forall (fun kv => assoc (fst kv) kw = None) extras ->
  call pos (kw ++ extras) g = call (firstn 6 pos) kw g
  /\ (forall net1 g1 net2 g2 x gx,
        call pos (kw ++ extras) g = Ok (net1, g1) ->
        call (firstn 6 pos) kw g = Ok (net2, g2) ->
        FCNetworkWithBatchNorm.forward batch_norm_forward dropout_forward
          net1 x gx
        = FCNetworkWithBatchNorm.forward batch_norm_forward dropout_forward
            net2 x gx)
  /\ (forall args kwargs
             (net : FCNetworkWithBatchNorm.t (F:=F) (BN:=BN) (DO:=DO)),
        FCNetworkWithBatchNorm.set_transformations args kwargs net = net).
Proof.
  intros Hp Hn Hf.
  assert (Heq : call pos (kw ++ extras) g = call (firstn 6 pos) kw g).
  { apply call_named. rewrite bind_call_extras by done.
    change (PyObject :: firstn 6 pos)
      with (firstn (length FCNetworkWithBatchNorm.params)
                   (PyObject (F:=F) :: pos)).
    rewrite (bind_call_positional FCNetworkWithBatchNorm.params
               (PyObject :: pos) kw).
    by destruct (bind_call _ (PyObject :: pos) kw). }
  split; [exact Heq|]. split; [|done].
  intros net1 g1 net2 g2 x gx H1 H2. rewrite Heq, H2 in H1.
  by injection H1 as -> ->.
Qed.

End ExtraArguments.

Lemma extra_arguments_are_ignored_witness :
  let extras :=
    [("in_shift", PyArray [Float32.of_Z 1; Float32.of_Z 2]);
     ("in_scale", PyArray [Float32.of_Z 1; Float32.of_Z 3]);
     ("out_shift", PyArray [Float32.of_Z 3]);
     ("out_scale", PyArray [Float32.of_Z 2])] in
  FCNetworkWithBatchNorm.call Examples.init_ones Examples.bn_init
    Examples.do_init
    [PyInt 2; PyInt 1; PyTuple [PyInt 2]; PyStr "relu"; PyInt 0;
     PyStr "runs/activations_with_batchnorm"; PyInt 7; PyStr "more"]
    ([] ++ extras) 0%nat
  = FCNetworkWithBatchNorm.call Examples.init_ones Examples.bn_init
      Examples.do_init
      (firstn 6 [PyInt 2; PyInt 1; PyTuple [PyInt 2]; PyStr "relu"; PyInt 0;
                 PyStr "runs/activations_with_batchnorm"; PyInt 7;
                 PyStr "more"])
      [] 0%nat
  /\ FCNetworkWithBatchNorm.call Examples.init_ones Examples.bn_init
       Examples.do_init
       [PyInt 2; PyInt 1; PyTuple [PyInt 2]; PyStr "relu"; PyInt 0;
        PyStr "runs/activations_with_batchnorm"; PyInt 7; PyStr "more"]
       ([] ++ extras) 0%nat
     = Ok (Examples.bn_net, 2%nat).
Proof.
  intros extras.
  destruct (extra_arguments_are_ignored (SF:=Examples.F32)
              Examples.init_ones Examples.bn_init Examples.do_init
              Examples.bn_forward Examples.do_forward
              [PyInt 2; PyInt 1; PyTuple [PyInt 2]; PyStr "relu"; PyInt 0;
               PyStr "runs/activations_with_batchnorm"; PyInt 7;
               PyStr "more"] [] extras 0%nat) as (H & _ & _).
  - repeat constructor.
  - apply (bool_decide_unpack _). vm_compute. exact I.
  - repeat constructor.
  - split; [exact H|]. rewrite H. vm_compute. reflexivity.
Defined.

(** A keyword that names a parameter bound already is refused: the
    instance is bound to [self], and [obs_dim] to the first positional
    argument. *)
Lemma bound_parameter_given_again_raises :
  FCNetworkWithBatchNorm.call (F:=spec_float) Examples.init_ones
    Examples.bn_init Examples.do_init
    [PyInt 2; PyInt 1] [("self", PyInt 5)] 0%nat
  = Raise TypeError
  /\ FCNetworkWithBatchNorm.call (F:=spec_float) Examples.init_ones
       Examples.bn_init Examples.do_init
       [PyInt 2; PyInt 1] [("obs_dim", PyInt 2)] 0%nat
     = Raise TypeError.
Proof. split; reflexivity. Qed.

(** ** FCNetworkWithBatchNorm.forward *)

Section BatchNormForward.
Context {F : Type} {SF : Scalar F} {rng BN DO : Type}.
Variable batch_norm_forward :
  BN -> list (list F) -> result (list (list F) * BN).
Variable dropout_forward : DO -> list (list F) -> rng -> list (list F) * rng.
Implicit Types (self : FCNetworkWithBatchNorm.t (F:=F) (BN:=BN) (DO:=DO)).
Implicit Types (w : FCNetworkWithBatchNorm.world (F:=F) (rng:=rng) (BN:=BN)).

Local Abbreviation hidden_step :=
  (FCNetworkWithBatchNorm.hidden_step (rng:=rng) dropout_forward).
Local Abbreviation forward_body :=
  (FCNetworkWithBatchNorm.forward_body batch_norm_forward dropout_forward).
Local Abbreviation forward :=
  (FCNetworkWithBatchNorm.forward batch_norm_forward dropout_forward).

Local Abbreviation visible :=
  (FCNetworkWithBatchNorm.visible (F:=F) (rng:=rng) (BN:=BN)).

(** A layer call under the observer: the value of the layer, and a
    world in which only the observer changed. *)
Lemma observed_call_linear (l : Linear F) d rows w :
  param_device l = d ->
  rmap visible
       (FCNetworkWithBatchNorm.observed (call_linear l (Tensor d rows)) w)
  = rmap (fun y => (Tensor d y, FCNetworkWithBatchNorm.w_batchnorm w,
                    FCNetworkWithBatchNorm.w_rng w))
         (Composition.affine l rows).
Proof.
  intros Hd. unfold FCNetworkWithBatchNorm.observed, call_linear.
  unfold bind, lift, modify, ret.
  rewrite linear_forward_rows by done.
  by destruct (Composition.affine l rows).
Qed.

Lemma bn_hidden_loop self d suffix : forall prefix final rows w,
  FCNetworkWithBatchNorm.fc_layers self = prefix ++ suffix ++ [final] ->
  Forall (fun l => param_device l = d) suffix ->
  rmap visible
       (for_each (hidden_step self)
                 (map Z.of_nat (seq (length prefix) (length suffix)))
                 (Tensor d rows) w)
  = rmap (fun yg => (Tensor d (fst yg),
                     FCNetworkWithBatchNorm.w_batchnorm w, snd yg))
         (Composition.hidden_stack_dropout dropout_forward
            (FCNetworkWithBatchNorm.nonlinearity self)
            (FCNetworkWithBatchNorm.dropout self) suffix rows
            (FCNetworkWithBatchNorm.w_rng w)).
Proof.
  induction suffix as [|l suffix IH]; intros prefix final rows w Hl Hd.
  - done.
  - apply Forall_cons in Hd as [Hdl Hds]. cbn [app] in Hl.
    cbn [length seq map for_each Composition.hidden_stack_dropout].
    unfold bind at 1.
    unfold FCNetworkWithBatchNorm.hidden_step at 1, layer_at.
    unfold bind at 1. unfold bind at 1. unfold lift at 1.
    rewrite Hl, py_index_middle.
    pose proof (observed_call_linear l d rows w Hdl) as Hc.
    destruct (FCNetworkWithBatchNorm.observed _ w) as [[out w1]|e];
      destruct (Composition.affine l rows) as [y|e'];
      simpl in Hc; try done.
    injection Hc as -> Hbn Hg. cbn [rbind].
    unfold bind at 1. unfold FCNetworkWithBatchNorm.call_dropout at 1.
    cbn [t_rows t_device]. rewrite Hg.
    destruct (dropout_forward _ y _) as [y' g'] eqn:Hdo.
    unfold ret at 1.
    specialize (IH (prefix ++ [l]) final
                   (Composition.activate
                      (FCNetworkWithBatchNorm.nonlinearity self) y')
                   (FCNetworkWithBatchNorm.World
                      (FCNetworkWithBatchNorm.w_observer w1)
                      (FCNetworkWithBatchNorm.w_batchnorm w1) g')).
    rewrite length_app in IH; simpl in IH. rewrite Nat.add_1_r in IH.
    cbn [FCNetworkWithBatchNorm.w_batchnorm FCNetworkWithBatchNorm.w_rng]
      in IH.
    rewrite Hbn in IH.
    unfold apply_nonlin; cbn [t_rows t_device].
    rewrite Hbn. apply IH; [|done]. by rewrite Hl, <- app_assoc.
Qed.

Lemma BatchNorm_to_resides_on d self :
  FCNetworkWithBatchNorm.resides_on d (FCNetworkWithBatchNorm.to d self).
Proof.
  unfold FCNetworkWithBatchNorm.resides_on, FCNetworkWithBatchNorm.to.
  simpl. repeat split. apply Forall_map, List.Forall_forall. by intros l _.
Qed.


End BatchNormForward.


(** ** DataLog.shrink_to *)

Lemma fold_min_spec (l : list Z) : forall a,
  let m := fold_left Z.min l a in
  (m = a \/ In m l) /\ m <= a /\ Forall (fun x => m <= x) l.
Proof.
  induction l as [|b l IH]; intros a; cbn zeta; simpl fold_left.
  - split; [by left|]. split; [lia|constructor].
  - destruct (IH (Z.min a b)) as (Hm & Hle & Hall); cbn zeta in *.
    split; [|split; [lia|constructor; [lia|done]]].
    destruct Hm as [Hm|Hm]; [|by right; right].
    destruct (Z.min_spec a b) as [[_ E]|[_ E]]; [left|right; left]; lia.
Qed.

Lemma fold_max_spec (l : list Z) : forall a,
  let m := fold_left Z.max l a in
  (m = a \/ In m l) /\ a <= m /\ Forall (fun x => x <= m) l.
Proof.
  induction l as [|b l IH]; intros a; cbn zeta; simpl fold_left.
  - split; [by left|]. split; [lia|constructor].
  - destruct (IH (Z.max a b)) as (Hm & Hle & Hall); cbn zeta in *.
    split; [|split; [lia|constructor; [lia|done]]].
    destruct Hm as [Hm|Hm]; [|by right; right].
    destruct (Z.max_spec a b) as [[_ E]|[_ E]]; [right; left|left]; lia.
Qed.

(** On a non-empty list, [min] and [max] agree exactly when all the
    entries are equal. *)
Lemma py_min_max_spec (l : list Z) :
  l <> [] ->
  exists lo hi,
    py_min l = Ok lo /\ py_max l = Ok hi
    /\ In lo l /\ In hi l
    /\ (lo = hi <-> forall x y, In x l -> In y l -> x = y).
Proof.
  destruct l as [|a l]; [done|]. intros _.
  exists (fold_left Z.min l a), (fold_left Z.max l a).
  split; [done|]. split; [done|].
  destruct (fold_min_spec l a) as (Hmin & Hmina & Hminl).
  destruct (fold_max_spec l a) as (Hmax & Hmaxa & Hmaxl).
  rewrite List.Forall_forall in Hminl, Hmaxl.
  split; [destruct Hmin as [->|]; [by left|by right]|].
  split; [destruct Hmax as [->|]; [by left|by right]|].
  split.
  - intros E x y Hx Hy.
    assert (forall z, In z (a :: l) ->
                      fold_left Z.min l a <= z <= fold_left Z.max l a) as Hb.
    { intros z [<-|Hz]; [lia|]. split; [by apply Hminl|by apply Hmaxl]. }
    pose proof (Hb x Hx). pose proof (Hb y Hy). lia.
  - intros Hall. apply Hall.
    + destruct Hmin as [->|]; [by left|by right].
    + destruct Hmax as [->|]; [by left|by right].
Qed.

Section ShrinkTo.
Context {V : Type}.
Implicit Types (self : DataLog.t (V:=V)) (m : gmap string (list V)).

Lemma in_series_lengths m (x : Z) :
  In x (DataLog.series_lengths m)
  <-> exists key series, m !! key = Some series
                         /\ x = Z.of_nat (length series).
Proof.
  unfold DataLog.series_lengths.
  rewrite <- list_elem_of_In, list_elem_of_fmap. split.
  - intros ([key series] & -> & Hin%elem_of_map_to_list). eauto.
  - intros (key & series & Hm & ->). exists (key, series).
    split; [done|]. by apply elem_of_map_to_list.
Qed.

Lemma series_lengths_nil m : DataLog.series_lengths m = [] <-> m = ∅.
Proof.
  unfold DataLog.series_lengths. rewrite <- map_to_list_empty_iff. split.
  - apply fmap_nil_inv.
  - by intros ->.
Qed.

Lemma py_slice_to_nonneg (series : list V) (n : Z) :
  0 <= n -> py_slice_to series n = firstn (Z.to_nat n) series.
Proof.
  intros H. unfold py_slice_to. by rewrite (proj2 (Z.ltb_ge n 0)).
Qed.

Lemma in_truncated_lengths m (n : nat) (x : Z) :
  In x (DataLog.series_lengths (firstn n <$> m))
  <-> exists key series,
        m !! key = Some series
        /\ x = Z.of_nat (Nat.min n (length series)).
Proof.
  rewrite in_series_lengths. split.
  - intros (key & s' & Hk & ->). rewrite lookup_fmap in Hk.
    destruct (m !! key) as [series|] eqn:E; [|done].
    injection Hk as <-. exists key, series.
    by rewrite length_firstn.
  - intros (key & series & Hk & ->). exists key, (firstn n series).
    rewrite lookup_fmap, Hk. by rewrite length_firstn.
Qed.

(** C7, as the code has it.  For [n >= 0] and a log with at least one
    series, [shrink_to(n)] cuts every series to its first [n] entries
    (a shorter series is kept whole), sets [max_len] to [n], and then
    evaluates the assertion on the series as cut: the call ends with
    the assertion error exactly when two series still differ in length
    after the cut, and with no exception otherwise. *)
Theorem shrink_to_truncates_then_asserts self (n : Z) :
  0 <= n ->
  DataLog.log self <> ∅ ->
  let r := DataLog.shrink_to n self in
  DataLog.log (fst r) = firstn (Z.to_nat n) <$> DataLog.log self
  /\ DataLog.max_len (fst r) = n
  /\ (snd r = None \/ snd r = Some AssertionError)
  /\ (snd r = Some AssertionError
      <-> exists k1 k2 s1 s2,
            DataLog.log self !! k1 = Some s1
            /\ DataLog.log self !! k2 = Some s2
            /\ Nat.min (Z.to_nat n) (length s1)
               <> Nat.min (Z.to_nat n) (length s2)).
Proof.
  intros Hn Hne. cbn zeta.
  assert (Hlog : (fun series => py_slice_to series n) <$> DataLog.log self
                 = firstn (Z.to_nat n) <$> DataLog.log self).
  { apply map_fmap_ext. intros key series _.
    by apply py_slice_to_nonneg. }
  unfold DataLog.shrink_to. cbn [DataLog.log]. rewrite Hlog.
  set (lens := DataLog.series_lengths
                 (firstn (Z.to_nat n) <$> DataLog.log self)).
  assert (Hlens : lens <> []).
  { unfold lens. rewrite series_lengths_nil, fmap_empty_iff. done. }
  destruct (py_min_max_spec lens Hlens)
    as (lo & hi & -> & -> & Hlo & Hhi & Hspec).
  assert (Hdiv :
    (forall x y, In x lens -> In y lens -> x = y)
    <-> ~ exists k1 k2 s1 s2,
            DataLog.log self !! k1 = Some s1
            /\ DataLog.log self !! k2 = Some s2
            /\ Nat.min (Z.to_nat n) (length s1)
               <> Nat.min (Z.to_nat n) (length s2)).
  { split.
    - intros Hall (k1 & k2 & s1 & s2 & H1 & H2 & Hd). apply Hd.
      apply Nat2Z.inj, Hall; apply in_truncated_lengths; eauto.
    - intros Hno x y Hx Hy.
      apply in_truncated_lengths in Hx as (k1 & s1 & H1 & ->).
      apply in_truncated_lengths in Hy as (k2 & s2 & H2 & ->).
      destruct (Nat.eq_dec (Nat.min (Z.to_nat n) (length s1))
                           (Nat.min (Z.to_nat n) (length s2)))
        as [->|Hd]; [done|].
      destruct Hno. by exists k1, k2, s1, s2. }
  destruct (Z.eqb_spec lo hi) as [E|E]; cbn [fst snd DataLog.log
                                               DataLog.max_len].
  - split; [done|]. split; [done|]. split; [by left|].
    split; [done|]. intros Hex. exfalso.
    by apply (proj1 Hdiv (proj1 Hspec E)).
  - split; [done|]. split; [done|]. split; [by right|].
    split; [|done]. intros _.
    apply in_truncated_lengths in Hlo as (k1 & s1 & H1 & ->).
    apply in_truncated_lengths in Hhi as (k2 & s2 & H2 & ->).
    exists k1, k2, s1, s2. split; [done|]. split; [done|]. congruence.
Qed.

End ShrinkTo.

Lemma shrink_to_truncates_then_asserts_witness :
  let r := DataLog.shrink_to 3 Examples.diverged_log in
  DataLog.log (fst r) = firstn 3 <$> DataLog.log Examples.diverged_log
  /\ DataLog.max_len (fst r) = 3
  /\ (snd r = None \/ snd r = Some AssertionError)
  /\ (snd r = Some AssertionError
      <-> exists k1 k2 s1 s2,
            DataLog.log Examples.diverged_log !! k1 = Some s1
            /\ DataLog.log Examples.diverged_log !! k2 = Some s2
            /\ Nat.min 3 (length s1) <> Nat.min 3 (length s2)).
Proof.
  apply (shrink_to_truncates_then_asserts Examples.diverged_log 3).
  - lia.
  - intros H. apply (f_equal (fun m => m !! "a")) in H.
    vm_compute in H. discriminate.
Defined.

(** C7 as stated fails.  Were the assertion to fail whenever the
    lengths of two series differ before the call, [shrink_to(2)] would
    end with it on the log in which ["a"] has the entries [1, 2, 3] and
    ["b"] has [4, 5]; it ends without an exception, both series cut to
    two entries. *)
Lemma shrink_to_accepts_diverged_log :
  ~ (forall (self : DataLog.t (V:=Z)) (n : Z) k1 k2 s1 s2,
        DataLog.log self !! k1 = Some s1 ->
        DataLog.log self !! k2 = Some s2 ->
        length s1 <> length s2 ->
        snd (DataLog.shrink_to n self) = Some AssertionError).
Proof.
  intros H.
  specialize (H Examples.diverged_log 2 "a" "b" [1; 2; 3] [4; 5]
                eq_refl eq_refl ltac:(discriminate)).
  vm_compute in H. discriminate.
Qed.

(** The log of the example after [shrink_to(2)]. *)
Lemma shrink_to_on_diverged_log :
  snd (DataLog.shrink_to 2 Examples.diverged_log) = None
  /\ DataLog.log (fst (DataLog.shrink_to 2 Examples.diverged_log)) !! "a"
     = Some [1; 2]
  /\ DataLog.log (fst (DataLog.shrink_to 2 Examples.diverged_log)) !! "b"
     = Some [4; 5].
Proof. vm_compute. repeat split. Qed.

(** ** DataLog.read_log *)

Lemma list_snoc_case {A} (l : list A) :
  l = [] \/ exists pre a, l = pre ++ [a].
Proof.
  destruct l as [|a l _] using rev_ind; [by left|right]. by exists l, a.
Qed.

Section ReadLog.
Context {V : Type}.
Variable eval : DataLog.frame (V:=V) -> string -> option V.
Variable value : string -> option V.
Variable differs_from : V -> Z -> bool.
Implicit Types (data : gmap string (list V)) (keys : list string).
Implicit Types (row_dict : gmap string string).
Implicit Types (listr rest : list (gmap string string)).
Implicit Types (self : DataLog.t (V:=V)).

Local Abbreviation read_field := (DataLog.read_field eval).
Local Abbreviation read_rows := (DataLog.read_rows eval differs_from).
Local Abbreviation field_value := (DataLog.field_value value).
Local Abbreviation appended := (DataLog.appended value).
Local Abbreviation diagnostics := (DataLog.diagnostics value).
Local Abbreviation extended := (DataLog.extended value).
Local Abbreviation scalar_fields := (DataLog.scalar_fields eval value).
Local Abbreviation iteration_agrees :=
  (DataLog.iteration_agrees value differs_from).

Lemma extended_lookup keys row_dict data key :
  extended keys row_dict data !! key
  = (fun series => series ++ appended keys row_dict key) <$> data !! key.
Proof.
  unfold DataLog.extended. rewrite map_lookup_imap.
  by destruct (data !! key).
Qed.

(** The loop over the keys, for one record whose fields are scalars or
    malformed: every key is read, whatever the other fields hold. *)
Lemma read_fields here keys row_dict : forall data out,
  (forall fr key text,
      In key keys -> row_dict !! key = Some text ->
      eval fr text = value text) ->
  (forall key, In key keys -> is_Some (data !! key)) ->
  fold_left (read_field here row_dict) keys (data, out)
  = (extended keys row_dict data, out ++ diagnostics keys row_dict).
Proof.
  induction keys as [|k keys IH]; intros data out Hfree Hdom.
  - simpl. rewrite app_nil_r. f_equal. apply map_eq. intros key.
    rewrite extended_lookup. destruct (data !! key); simpl; [|done].
    by rewrite app_nil_r.
  - destruct (Hdom k (or_introl eq_refl)) as [series Hk].
    assert (Hfree' : forall fr key text,
               In key keys -> row_dict !! key = Some text ->
               eval fr text = value text).
    { intros fr key text Hin. apply (Hfree fr key). by right. }
    assert (Hev : row_dict !! k ≫= eval (here data k)
                  = field_value row_dict k).
    { unfold DataLog.field_value.
      destruct (row_dict !! k) as [text|] eqn:Et; [|done]. cbn.
      apply (Hfree _ k); [by left|done]. }
    cbn [fold_left]. unfold DataLog.read_field at 2. rewrite Hk, Hev.
    assert (Hext : forall v_opt,
               v_opt = field_value row_dict k ->
               extended keys row_dict
                        (<[k := series ++ option_list v_opt]> data)
               = extended (k :: keys) row_dict data).
    { intros v_opt ->. apply map_eq. intros key.
      rewrite !extended_lookup.
      destruct (decide (k = key)) as [<-|Hne].
      - rewrite lookup_insert_eq, Hk. simpl. f_equal.
        unfold DataLog.appended at 2. cbn [flat_map].
        rewrite String.eqb_refl. by rewrite <- app_assoc.
      - rewrite lookup_insert_ne by done.
        destruct (data !! key); simpl; [|done]. f_equal. f_equal.
        unfold DataLog.appended at 2. cbn [flat_map].
        by rewrite (proj2 (String.eqb_neq k key)). }
    destruct (field_value row_dict k) as [v|] eqn:Ev.
    + rewrite IH.
      * specialize (Hext (Some v) eq_refl). simpl in Hext. rewrite Hext.
        f_equal.
        unfold DataLog.diagnostics at 2. cbn [flat_map].
        fold (field_value row_dict k). by rewrite Ev.
      * done.
      * intros key Hin. destruct (decide (k = key)) as [<-|Hne].
        -- rewrite lookup_insert_eq. eauto.
        -- rewrite lookup_insert_ne by done. apply Hdom. by right.
    + rewrite IH.
      * specialize (Hext None eq_refl). simpl in Hext.
        rewrite app_nil_r, insert_id in Hext by done. rewrite Hext.
        f_equal. unfold DataLog.diagnostics at 2. cbn [flat_map].
        fold (field_value row_dict k). rewrite Ev.
        by rewrite <- app_assoc.
      * done.
      * intros key Hin. apply Hdom. by right.
Qed.

Lemma scalar_fields_head keys row_dict rest :
  scalar_fields keys (row_dict :: rest) ->
  forall fr key text,
    In key keys -> row_dict !! key = Some text -> eval fr text = value text.
Proof. intros H fr key text. by apply (H fr 0%nat row_dict). Qed.

Lemma scalar_fields_tail keys row_dict rest :
  scalar_fields keys (row_dict :: rest) -> scalar_fields keys rest.
Proof. intros H fr i r key text Hi. by apply (H fr (S i) r). Qed.

Lemma extended_dom keys row_dict data key :
  is_Some (extended keys row_dict data !! key) <-> is_Some (data !! key).
Proof. rewrite extended_lookup. apply fmap_is_Some. Qed.

Lemma appended_last keys row_dict (v : V) :
  In "iteration" keys ->
  field_value row_dict "iteration" = Some v ->
  exists pre, appended keys row_dict "iteration" = pre ++ [v].
Proof.
  intros Hin Hv. unfold DataLog.appended.
  fold (field_value row_dict "iteration"). rewrite Hv.
  induction keys as [|k keys IH]; [done|]. cbn [flat_map].
  destruct (String.eqb_spec k "iteration") as [->|Hne].
  - destruct (in_dec string_dec "iteration" keys) as [Hin'|Hnot].
    + destruct (IH Hin') as [pre ->]. by exists ([v] ++ pre).
    + exists []. simpl. f_equal.
      clear -Hnot. induction keys as [|k keys IH]; [done|].
      cbn [flat_map]. destruct (String.eqb_spec k "iteration") as [->|];
        [destruct Hnot; by left|].
      apply IH. intros H. apply Hnot. by right.
  - destruct Hin as [->|Hin]; [done|].
    destruct (IH Hin) as [pre ->]. by exists pre.
Qed.

(** A malformed field adds nothing to its series. *)
Lemma appended_malformed keys row_dict key :
  field_value row_dict key = None -> appended keys row_dict key = [].
Proof.
  intros Hv. unfold DataLog.appended.
  fold (field_value row_dict key). rewrite Hv.
  induction keys as [|k keys IH]; [done|]. cbn [flat_map].
  by destruct (String.eqb k key).
Qed.

Lemma iteration_series_last keys row_dict data (v : V) :
  (forall key, In key keys -> is_Some (data !! key)) ->
  In "iteration" keys ->
  field_value row_dict "iteration" = Some v ->
  exists series,
    extended keys row_dict data !! "iteration" = Some series
    /\ py_index series (-1) = Ok v.
Proof.
  intros Hdom Hin Hv. destruct (Hdom _ Hin) as [s Hs].
  destruct (appended_last keys row_dict v Hin Hv) as [pre Hpre].
  exists ((s ++ pre) ++ [v]). rewrite extended_lookup, Hs. simpl.
  split; [by rewrite Hpre, app_assoc|apply py_index_last].
Qed.

Lemma extended_preserves_dom keys keys' row_dict data :
  (forall key, In key keys -> is_Some (data !! key)) ->
  forall key, In key keys ->
              is_Some (extended keys' row_dict data !! key).
Proof. intros H key Hin. apply extended_dom, H, Hin. Qed.

Lemma iteration_agrees_tail row row_dict listr :
  iteration_agrees row (row_dict :: listr) ->
  iteration_agrees (S row) listr.
Proof.
  intros H i r Hi. destruct (H (S i) r Hi) as (v & Hv & Hd).
  exists v. split; [done|]. by rewrite Nat.add_succ_comm.
Qed.

(** Without an iteration column, or with one that agrees with the
    positions, the loop over the records reads them all. *)
Lemma read_rows_ok self log_path listr keys : forall rest row data out,
  scalar_fields keys rest ->
  (forall key, In key keys -> is_Some (data !! key)) ->
  (~ In "iteration" keys /\ data !! "iteration" = None)
  \/ (In "iteration" keys /\ iteration_agrees row rest) ->
  read_rows self log_path listr keys rest row data out
  = (fold_left (fun d row_dict => extended keys row_dict d) rest data,
     out ++ flat_map (diagnostics keys) rest, None).
Proof.
  induction rest as [|row_dict rest IH]; intros row data out Hsc Hdom Hit.
  - simpl. by rewrite app_nil_r.
  - cbn [DataLog.read_rows fold_left flat_map].
    rewrite read_fields by (by eauto using scalar_fields_head).
    pose proof (scalar_fields_tail _ _ _ Hsc) as Hsc'.
    destruct Hit as [[Hnot Hnone]|[Hin Hag]].
    + assert (Hn : extended keys row_dict data !! "iteration" = None)
        by (by rewrite extended_lookup, Hnone).
      rewrite Hn, IH; [by rewrite <- app_assoc|done| |by left].
      by apply extended_preserves_dom.
    + destruct (Hag 0%nat row_dict eq_refl) as (v & Hv & Hd).
      rewrite Nat.add_0_r in Hd.
      destruct (iteration_series_last keys row_dict data v Hdom Hin Hv)
        as (series & -> & ->).
      rewrite Hd, IH; [by rewrite <- app_assoc|done| |].
      * by apply extended_preserves_dom.
      * right. split; [done|]. by eapply iteration_agrees_tail.
Qed.

(** A record whose iteration field has a value that differs from its
    position ends the loop with an exception, at this record or
    before; when the records before it agree with their positions the
    exception is the mismatch at this record. *)
Lemma read_rows_raises self log_path listr keys :
  In "iteration" keys ->
  forall rest row data out (i : nat) row_dict v,
    scalar_fields keys rest ->
    (forall key, In key keys -> is_Some (data !! key)) ->
    rest !! i = Some row_dict ->
    field_value row_dict "iteration" = Some v ->
    differs_from v (Z.of_nat (row + i)) = true ->
    exists data' out' e,
      read_rows self log_path listr keys rest row data out
      = (data', out', Some e)
      /\ (iteration_agrees row (firstn i rest)
          -> e = DataLog.mismatch (row + i)).
Proof.
  intros Hin. induction rest as [|r0 rest IH];
    intros row data out i row_dict v Hsc Hdom Hi Hv Hd; [done|].
  cbn [DataLog.read_rows].
  rewrite read_fields by (by eauto using scalar_fields_head).
  pose proof (scalar_fields_tail _ _ _ Hsc) as Hsc'.
  destruct i as [|i].
  - injection Hi as ->. rewrite Nat.add_0_r in Hd |- *.
    destruct (iteration_series_last keys row_dict data v Hdom Hin Hv)
      as (series & -> & ->).
    rewrite Hd. eauto.
  - simpl in Hi.
    destruct (extended_preserves_dom keys keys r0 data Hdom _ Hin)
      as [series Hs].
    rewrite Hs.
    assert (Hagree :
      iteration_agrees row (firstn (S i) (r0 :: rest)) ->
      exists v0, py_index series (-1) = Ok v0
                 /\ differs_from v0 (Z.of_nat row) = false).
    { intros Hag. destruct (Hag 0%nat r0 eq_refl) as (v0 & Hv0 & Hd0).
      rewrite Nat.add_0_r in Hd0.
      destruct (iteration_series_last keys r0 data v0 Hdom Hin Hv0)
        as (series' & Hs' & Hl).
      rewrite Hs in Hs'. injection Hs' as <-. eauto. }
    destruct (py_index series (-1)) as [v1|e1] eqn:Hl.
    + destruct (differs_from v1 (Z.of_nat row)) eqn:Hd1.
      * eexists _, _, _. split; [done|]. intros Hag.
        destruct (Hagree Hag) as (v0 & [= ->] & Hd0). congruence.
      * destruct (IH (S row) (extended keys r0 data)
                     (out ++ diagnostics keys r0) i row_dict v)
          as (data' & out' & e & Hr & He); [done| |done|done| |].
        -- by apply extended_preserves_dom.
        -- by rewrite Nat.add_succ_comm.
        -- exists data', out', e. split; [done|]. intros Hag.
           rewrite <- Nat.add_succ_comm. apply He.
           by eapply iteration_agrees_tail.
    + eexists _, _, _. split; [done|]. intros Hag.
      by destruct (Hagree Hag) as (v0 & [=] & _).
Qed.

(** A record whose iteration field is malformed ends the loop with an
    exception too, at this record or before: after the diagnostic the
    check finds the iteration of the record before, which differs from
    the position, or finds no iteration at all. *)
Lemma read_rows_malformed self log_path listr keys :
  In "iteration" keys ->
  DataLog.counts_rows differs_from ->
  forall rest row data out (i : nat) row_dict,
    scalar_fields keys rest ->
    (forall key, In key keys -> is_Some (data !! key)) ->
    (forall series v,
        data !! "iteration" = Some series -> py_index series (-1) = Ok v ->
        differs_from v (Z.of_nat row) = true) ->
    rest !! i = Some row_dict ->
    field_value row_dict "iteration" = None ->
    exists data' out' e,
      read_rows self log_path listr keys rest row data out
      = (data', out', Some e)
      /\ (iteration_agrees row (firstn i rest) ->
          e = match i, data !! "iteration" ≫= (fun s => last s) with
              | O, None => IndexError
              | _, _ => DataLog.mismatch (row + i)
              end).
Proof.
  intros Hin Hcount. induction rest as [|r0 rest IH];
    intros row data out i row_dict Hsc Hdom Hstale Hi Hv; [done|].
  cbn [DataLog.read_rows].
  rewrite read_fields by (by eauto using scalar_fields_head).
  pose proof (scalar_fields_tail _ _ _ Hsc) as Hsc'.
  destruct i as [|i].
  - injection Hi as ->. rewrite Nat.add_0_r.
    destruct (Hdom _ Hin) as [series Hs].
    rewrite extended_lookup, Hs. cbn [fmap option_fmap option_map].
    rewrite (appended_malformed keys row_dict "iteration" Hv), app_nil_r.
    cbn [mbind option_bind].
    destruct (list_snoc_case series) as [->|(pre & v & ->)].
    + cbn. eauto.
    + rewrite py_index_last, last_snoc.
      rewrite (Hstale _ v Hs (py_index_last pre v)). eauto.
  - simpl in Hi.
    destruct (extended_preserves_dom keys keys r0 data Hdom _ Hin)
      as [series Hs].
    rewrite Hs.
    assert (Hagree :
      iteration_agrees row (firstn (S i) (r0 :: rest)) ->
      exists v0, py_index series (-1) = Ok v0
                 /\ differs_from v0 (Z.of_nat row) = false).
    { intros Hag. destruct (Hag 0%nat r0 eq_refl) as (v0 & Hv0 & Hd0).
      rewrite Nat.add_0_r in Hd0.
      destruct (iteration_series_last keys r0 data v0 Hdom Hin Hv0)
        as (series' & Hs' & Hl).
      rewrite Hs in Hs'. injection Hs' as <-. eauto. }
    destruct (py_index series (-1)) as [v1|e1] eqn:Hl.
    + destruct (differs_from v1 (Z.of_nat row)) eqn:Hd1.
      * eexists _, _, _. split; [done|]. intros Hag.
        destruct (Hagree Hag) as (v0 & [= ->] & Hd0). congruence.
      * destruct (IH (S row) (extended keys r0 data)
                     (out ++ diagnostics keys r0) i row_dict)
          as (data' & out' & e & Hr & He); [done| | |done|done|].
        -- by apply extended_preserves_dom.
        -- intros series' v' Hs'. rewrite Hs in Hs'. injection Hs' as <-.
           rewrite Hl. intros [= <-]. by apply Hcount.
        -- exists data', out', e. split; [done|]. intros Hag.
           rewrite He by (by eapply iteration_agrees_tail).
           rewrite Hs. cbn [mbind option_bind].
           assert (Hlast : last series = Some v1).
           { clear -Hl. destruct (list_snoc_case series)
               as [->|(pre & v & ->)]; [done|].
             rewrite py_index_last in Hl. injection Hl as ->.
             apply last_snoc. }
           rewrite Hlast, <- Nat.add_succ_comm. by destruct i.
    + eexists _, _, _. split; [done|]. intros Hag.
      by destruct (Hagree Hag) as (v0 & [=] & _).
Qed.

Lemma empty_series_lookup keys : forall data key,
  fold_left (fun d k => <[k := []]> d) keys data !! key
  = if in_dec string_dec key keys then Some [] else data !! key.
Proof.
  induction keys as [|k keys IH]; intros data key; [done|].
  cbn [fold_left]. rewrite IH.
  destruct (in_dec string_dec key keys) as [Hin|Hnot];
    destruct (in_dec string_dec key (k :: keys)) as [Hin'|Hnot'];
    try done.
  - destruct Hnot'. by right.
  - destruct Hin' as [->|]; [by rewrite lookup_insert_eq|done].
  - rewrite lookup_insert_ne; [done|]. intros ->. apply Hnot'. by left.
Qed.

Lemma rows_lookup keys : forall listr data key,
  fold_left (fun d row_dict => extended keys row_dict d) listr data !! key
  = (fun series =>
       series ++ flat_map (fun row_dict => appended keys row_dict key) listr)
      <$> data !! key.
Proof.
  induction listr as [|row_dict listr IH]; intros data key.
  - simpl. destruct (data !! key); simpl; [|done]. by rewrite app_nil_r.
  - cbn [fold_left flat_map]. rewrite IH, extended_lookup.
    destruct (data !! key); simpl; [|done]. by rewrite <- app_assoc.
Qed.

Lemma appended_absent keys row_dict key :
  ~ In key keys -> appended keys row_dict key = [].
Proof.
  unfold DataLog.appended. induction keys as [|k keys IH]; [done|].
  intros Hnot. cbn [flat_map].
  destruct (String.eqb_spec k key) as [->|]; [destruct Hnot; by left|].
  apply IH. intros H. apply Hnot. by right.
Qed.

Lemma appended_once keys row_dict key :
  NoDup keys -> In key keys ->
  appended keys row_dict key = option_list (field_value row_dict key).
Proof.
  induction keys as [|k keys IH]; [done|].
  intros [Hk Hnd]%NoDup_cons Hin.
  unfold DataLog.appended. cbn [flat_map].
  fold (appended keys row_dict key).
  destruct (String.eqb_spec k key) as [->|Hne].
  - rewrite appended_absent; [by rewrite app_nil_r|].
    by rewrite <- list_elem_of_In.
  - destruct Hin as [|Hin]; [done|]. by apply IH.
Qed.

Lemma column_flat_map listr key :
  flat_map (fun row_dict => option_list (field_value row_dict key)) listr
  = DataLog.column value listr key.
Proof.
  unfold DataLog.column. induction listr as [|r listr IH]; [done|].
  cbn [flat_map omap list_omap]. rewrite IH.
  by destruct (DataLog.field_value value r key).
Qed.

(** C6, as the code has it.  For a table read from a path that ends in
    [log.csv] and whose fields are scalars or malformed:
    when the header has an [iteration] column and the iteration field
    of some record has a value that differs from the position of the
    record, [read_log] ends with an exception and leaves the log as it
    was; the exception is the runtime error of that record when the
    records before it agree with their positions.  A malformed field
    of the [iteration] column is fatal too: the field is skipped with
    a diagnostic and the check that follows finds the iteration of the
    record before, which is not the position, or no iteration at all
    in the first record, where indexing raises.  A malformed field of
    any other column is not fatal: when there is no [iteration]
    column, or every iteration field agrees with its position,
    [read_log] ends without an exception whatever the other fields
    hold, the series of every column holds the values of its
    well-formed fields in order, and one diagnostic is printed per
    malformed field. *)
Theorem read_log_fatal_on_the_iteration_column_only
    (log_path : string) (table : csv_table) self keys :
  ends_with log_path "log.csv" = true ->
  fieldnames table = Some keys ->
  scalar_fields keys (records table) ->
  (In "iteration" keys ->
   forall (row : nat) row_dict v,
     records table !! row = Some row_dict ->
     field_value row_dict "iteration" = Some v ->
     differs_from v (Z.of_nat row) = true ->
     exists out e,
       DataLog.read_log eval differs_from log_path table self
       = (self, out, Some e)
       /\ (iteration_agrees 0 (firstn row (records table))
           -> e = DataLog.mismatch row))
  /\ (In "iteration" keys ->
      DataLog.counts_rows differs_from ->
      forall (row : nat) row_dict,
        records table !! row = Some row_dict ->
        field_value row_dict "iteration" = None ->
        exists out e,
          DataLog.read_log eval differs_from log_path table self
          = (self, out, Some e)
          /\ (iteration_agrees 0 (firstn row (records table))
              -> e = match row with
                     | O => IndexError
                     | S _ => DataLog.mismatch row
                     end))
  /\ (keys <> [] -> NoDup keys ->
      ~ In "iteration" keys
      \/ iteration_agrees 0 (records table) ->
      exists self',
        DataLog.read_log eval differs_from log_path table self
        = (self',
           flat_map (diagnostics keys) (records table)
           ++ [DataLog.LogRead log_path (DataLog.max_len self')],
           None)
        /\ (forall key, In key keys ->
                        DataLog.log self' !! key
                        = Some (DataLog.column value (records table) key))
        /\ (forall key, ~ In key keys -> DataLog.log self' !! key = None)).
Proof.
  intros Hpath Hkeys Hsc. unfold DataLog.read_log. rewrite Hpath, Hkeys.
  cbn [negb].
  set (data0 := fold_left (fun d key => <[key := []]> d) keys ∅).
  assert (Hdom : forall key, In key keys -> is_Some (data0 !! key)).
  { intros key Hin. unfold data0. rewrite empty_series_lookup.
    destruct (in_dec string_dec key keys); [eauto|done]. }
  split; [|split].
  - intros Hin row row_dict v Hrow Hv Hd.
    destruct (read_rows_raises self log_path (records table) keys Hin
                (records table) 0 data0 []
                row row_dict v Hsc Hdom Hrow Hv Hd)
      as (data' & out' & e & -> & He).
    eauto.
  - intros Hin Hcount row row_dict Hrow Hv.
    assert (H0 : data0 !! "iteration" = Some []).
    { unfold data0. rewrite empty_series_lookup.
      by destruct (in_dec string_dec "iteration" keys). }
    destruct (read_rows_malformed self log_path (records table) keys Hin
                Hcount (records table) 0 data0 []
                row row_dict Hsc Hdom)
      as (data' & out' & e & -> & He); [|done|done|].
    + intros series v. rewrite H0. by intros [= <-].
    + exists out', e. split; [done|]. intros Hag.
      rewrite (He Hag), H0. cbn. by destruct row.
  - intros Hne Hnd Hit.
    rewrite read_rows_ok; [|done|done|].
    2:{ destruct Hit as [Hnot|Hag]; [left|].
        - split; [done|]. unfold data0. rewrite empty_series_lookup.
          destruct (in_dec string_dec "iteration" keys); [done|].
          apply lookup_empty.
        - destruct (in_dec string_dec "iteration" keys) as [Hin|Hnot];
            [by right|left].
          split; [done|]. unfold data0. rewrite empty_series_lookup.
          destruct (in_dec string_dec "iteration" keys); [done|].
          apply lookup_empty. }
    set (data := fold_left _ (records table) data0).
    assert (Hlookup : forall key,
               data !! key
               = if in_dec string_dec key keys
                 then Some (DataLog.column value (records table) key)
                 else None).
    { intros key. unfold data, data0.
      rewrite rows_lookup, empty_series_lookup.
      destruct (in_dec string_dec key keys) as [Hin|Hnot].
      - simpl. f_equal. rewrite <- column_flat_map.
        apply flat_map_ext. intros r. by apply appended_once.
      - by rewrite lookup_empty. }
    assert (Hlens : DataLog.series_lengths data <> []).
    { rewrite series_lengths_nil. intros Hempty.
      destruct keys as [|k keys']; [done|].
      specialize (Hlookup k). rewrite Hempty, lookup_empty in Hlookup.
      destruct (in_dec string_dec k (k :: keys')) as [|Hnot]; [done|].
      destruct Hnot. by left. }
    destruct (py_min_max_spec _ Hlens) as (lo & hi & _ & -> & _).
    cbn [app].
    exists (DataLog.Make data hi (DataLog.global_step self)).
    split; [reflexivity|]. cbn [DataLog.log]. split.
    + intros key Hin. rewrite Hlookup.
      by destruct (in_dec string_dec key keys).
    + intros key Hnot. rewrite Hlookup.
      by destruct (in_dec string_dec key keys).
Qed.

End ReadLog.

(** In the tables of the examples every field is a numeral or blank. *)
Lemma example_tables_scalar_fields :
  DataLog.scalar_fields Examples.eval_py Examples.eval_int
    ["iteration"; "reward"] (records Examples.skipping_table)
  /\ DataLog.scalar_fields Examples.eval_py Examples.eval_int
       ["iteration"; "reward"] (records Examples.blank_table)
  /\ DataLog.scalar_fields Examples.eval_py Examples.eval_int
       ["iteration"; "reward"] (records Examples.blank_iteration_table)
  /\ DataLog.scalar_fields Examples.eval_py Examples.eval_int
       ["iteration"; "reward"] (records Examples.headless_table).
Proof.
  repeat split;
    intros fr [|[|[|i]]] rd key text Hi Hk Ht; try done;
    injection Hi as <-;
    destruct Hk as [<-|[<-|[]]];
    vm_compute in Ht; injection Ht as <-; reflexivity.
Qed.

Lemma differs_counts_rows : DataLog.counts_rows Examples.differs.
Proof.
  intros v row. unfold Examples.differs.
  rewrite !negb_false_iff, negb_true_iff, Z.eqb_eq, Z.eqb_neq. lia.
Qed.

Lemma read_log_fatal_on_the_iteration_column_only_witness :
  (exists out e,
      DataLog.read_log Examples.eval_py Examples.differs "runs/log.csv"
        Examples.skipping_table DataLog.init
      = (DataLog.init, out, Some e)
      /\ e = DataLog.mismatch 1)
  /\ (exists out e,
        DataLog.read_log Examples.eval_py Examples.differs "runs/log.csv"
          Examples.blank_iteration_table DataLog.init
        = (DataLog.init, out, Some e)
        /\ e = DataLog.mismatch 1)
  /\ (exists out e,
        DataLog.read_log Examples.eval_py Examples.differs "runs/log.csv"
          Examples.headless_table DataLog.init
        = (DataLog.init, out, Some e)
        /\ e = IndexError)
  /\ (exists self',
        DataLog.read_log Examples.eval_py Examples.differs "runs/log.csv"
          Examples.blank_table DataLog.init
        = (self',
           [DataLog.ErrorOnReading "reward" (Some "");
            DataLog.LogRead "runs/log.csv" (DataLog.max_len self')],
           None)
        /\ DataLog.log self' !! "reward" = Some [10; 30]
        /\ DataLog.log self' !! "iteration" = Some [0; 1; 2]).
Proof.
  destruct example_tables_scalar_fields as (Hs1 & Hs2 & Hs3 & Hs4).
  split; [|split; [|split]].
  - destruct (read_log_fatal_on_the_iteration_column_only
                Examples.eval_py Examples.eval_int Examples.differs
                "runs/log.csv" Examples.skipping_table DataLog.init
                ["iteration"; "reward"] eq_refl eq_refl Hs1) as [H _].
    destruct (H (or_introl eq_refl) 1%nat (Examples.record "2" "20") 2
                eq_refl eq_refl eq_refl) as (out & e & Hr & He).
    exists out, e. split; [exact Hr|]. apply He.
    intros [|i] r Hi; [|done]. injection Hi as <-.
    exists 0. split; reflexivity.
  - destruct (read_log_fatal_on_the_iteration_column_only
                Examples.eval_py Examples.eval_int Examples.differs
                "runs/log.csv" Examples.blank_iteration_table DataLog.init
                ["iteration"; "reward"] eq_refl eq_refl Hs3) as (_ & H & _).
    destruct (H (or_introl eq_refl) differs_counts_rows 1%nat
                (Examples.record "" "20") eq_refl eq_refl)
      as (out & e & Hr & He).
    exists out, e. split; [exact Hr|]. apply He.
    intros [|i] r Hi; [|done]. injection Hi as <-.
    exists 0. split; reflexivity.
  - destruct (read_log_fatal_on_the_iteration_column_only
                Examples.eval_py Examples.eval_int Examples.differs
                "runs/log.csv" Examples.headless_table DataLog.init
                ["iteration"; "reward"] eq_refl eq_refl Hs4) as (_ & H & _).
    destruct (H (or_introl eq_refl) differs_counts_rows 0%nat
                (Examples.record "" "10") eq_refl eq_refl)
      as (out & e & Hr & He).
    exists out, e. split; [exact Hr|]. apply He. by intros i r Hi.
  - destruct (read_log_fatal_on_the_iteration_column_only
                Examples.eval_py Examples.eval_int Examples.differs
                "runs/log.csv" Examples.blank_table DataLog.init
                ["iteration"; "reward"] eq_refl eq_refl Hs2) as (_ & _ & H).
    destruct H as (self' & Hr & Hin & _).
    + discriminate.
    + apply (bool_decide_unpack _). vm_compute. exact I.
    + right. intros [|[|[|i]]] r Hi; try done; injection Hi as <-.
      * exists 0. split; reflexivity.
      * exists 1. split; reflexivity.
      * exists 2. split; reflexivity.
    + exists self'. split; [exact Hr|].
      split; [apply (Hin "reward"); right; by left|].
      apply (Hin "iteration"); by left.
Defined.

(** C6 as stated fails.  Were every malformed field skipped without
    ending the call, [read_log] would return on every table in which no
    iteration field has a value that differs from its position; on the
    table whose second record has a blank iteration, 0 and 2 being the
    iterations of the first and the third, it raises. *)
Lemma malformed_iteration_field_is_fatal :
  ~ (forall table : csv_table,
        fieldnames table = Some ["iteration"; "reward"] ->
        (forall (row : nat) row_dict v,
            records table !! row = Some row_dict ->
            DataLog.field_value Examples.eval_int row_dict "iteration"
            = Some v ->
            Examples.differs v (Z.of_nat row) = false) ->
        exists self' out,
          DataLog.read_log Examples.eval_py Examples.differs "runs/log.csv"
            table DataLog.init
          = (self', out, None)).
Proof.
  intros H.
  destruct (H Examples.blank_iteration_table eq_refl) as (self' & out & Hr).
  - intros [|[|[|row]]] rd v Hrow Hv; try done; injection Hrow as <-;
      vm_compute in Hv; first [discriminate|by injection Hv as <-].
  - vm_compute in Hr. discriminate.
Qed.

(** What [read_log] does on that table, and on the table whose first
    record has a blank iteration. *)
Lemma malformed_iteration_field_observed :
  DataLog.read_log Examples.eval_py Examples.differs "runs/log.csv"
    Examples.blank_iteration_table DataLog.init
  = (DataLog.init,
     [DataLog.ErrorOnReading "iteration" (Some EmptyString)],
     Some (DataLog.mismatch 1))
  /\ DataLog.read_log Examples.eval_py Examples.differs "runs/log.csv"
       Examples.headless_table DataLog.init
     = (DataLog.init,
        [DataLog.ErrorOnReading "iteration" (Some EmptyString)],
        Some IndexError).
Proof. split; vm_compute; reflexivity. Qed.

(** ** binary32: the arithmetic of the default transform *)

Section Float32Facts.
Import Float32.

Lemma bounded_inv m e :
  bounded prec emax m e = true ->
  Z.max (Zpos (digits2_pos m) + e - 24) (-149) = e /\ e <= 104.
Proof.
  unfold bounded, canonical_mantissa, fexp, emin, prec, emax. intros H.
  apply andb_true_iff in H as [H1 H2].
  apply Z.eqb_eq in H1. apply Z.leb_le in H2. split; [exact H1|lia].
Qed.

(** The least exponent of the format is [-149]. *)
Lemma fexp_eq z : fexp prec emax z = Z.max (z - 24) (-149).
Proof. reflexivity. Qed.

Lemma shr_zero mrs e : shr mrs e 0 = (mrs, e).
Proof. reflexivity. Qed.

(** Rounding a canonical mantissa leaves it as it is. *)
Lemma round_canonical s m e :
  bounded prec emax m e = true ->
  binary_round_aux prec emax s (Zpos m) e loc_Exact = S754_finite s m e.
Proof.
  intros H. pose proof (bounded_inv m e H) as [Hc He].
  unfold binary_round_aux, shr_fexp.
  change (Zdigits2 (Z.pos m)) with (Z.pos (digits2_pos m)).
  rewrite fexp_eq, Hc, Z.sub_diag, shr_zero.
  change (round_nearest_even _ _) with (Z.pos m).
  change (Zdigits2 (Z.pos m)) with (Z.pos (digits2_pos m)).
  rewrite fexp_eq, Hc, Z.sub_diag, shr_zero.
  change (shr_m _) with (Z.pos m). cbv iota beta.
  rewrite (proj2 (Z.leb_le e (emax - prec))); [done|].
  unfold emax, prec. lia.
Qed.


Lemma shr_23_exact p e :
  shr (Build_shr_record
         (Z.pos p~0~0~0~0~0~0~0~0~0~0~0~0~0~0~0~0~0~0~0~0~0~0~0)
         false false) e 23
  = (Build_shr_record (Z.pos p) false false, e + 23).
Proof. reflexivity. Qed.

Lemma shr_1_exact p e :
  shr (Build_shr_record (Z.pos p~0) false false) e 1
  = (Build_shr_record (Z.pos p) false false, e + 1).
Proof. reflexivity. Qed.

Lemma mul_2_23 m :
  (m * 8388608)%positive
  = (m~0~0~0~0~0~0~0~0~0~0~0~0~0~0~0~0~0~0~0~0~0~0~0)%positive.
Proof. lia. Qed.

Lemma digits_xO p : Z.pos (digits2_pos p~0) = Z.pos (digits2_pos p) + 1.
Proof. change (digits2_pos p~0) with (Pos.succ (digits2_pos p)). lia. Qed.

(** [x * 1 = x] *)
Lemma mul_one x : valid x = true -> mul x one = x.
Proof.
  unfold valid, mul.
  destruct x as [[]|[]| |s m e]; intros H; try reflexivity.
  change (valid_binary prec emax (S754_finite s m e))
    with (bounded prec emax m e) in H.
  pose proof (bounded_inv m e H) as [Hc He].
  change (SFmul prec emax (S754_finite s m e) one)
    with (binary_round_aux prec emax (xorb s false)
            (Z.pos (m * 8388608)) (e + -23) loc_Exact).
  rewrite xorb_false_r, mul_2_23.
  unfold binary_round_aux at 1. unfold shr_fexp at 1.
  change (Zdigits2 (Z.pos ?p)) with (Z.pos (digits2_pos p)).
  rewrite !digits_xO, fexp_eq.
  replace (Z.max (Z.pos (digits2_pos m) + 1 + 1 + 1 + 1 + 1 + 1 + 1 + 1
                  + 1 + 1 + 1 + 1 + 1 + 1 + 1 + 1 + 1 + 1 + 1 + 1 + 1
                  + 1 + 1 + (e + -23) - 24) (-149) - (e + -23))
    with 23 by lia.
  change (shr_record_of_loc ?z loc_Exact)
    with (Build_shr_record z false false).
  rewrite shr_23_exact.
  change (round_nearest_even _ _) with (Z.pos m).
  replace (e + -23 + 23) with e by lia.
  apply (round_canonical s m e) in H. unfold binary_round_aux in H.
  unfold shr_fexp in H at 1.
  change (Zdigits2 (Z.pos m)) with (Z.pos (digits2_pos m)) in H.
  rewrite fexp_eq, Hc, Z.sub_diag, shr_zero in H.
  exact H.
Qed.
Lemma div_eucl_exact a b k :
  0 < b -> a = k * b -> Z.div_eucl a b = (k, 0).
Proof.
  intros Hb ->.
  pose proof (Z.div_mul k b ltac:(lia)) as Hq.
  pose proof (Z.mod_mul k b ltac:(lia)) as Hr.
  unfold Z.div, Z.modulo in Hq, Hr.
  destruct (Z.div_eucl (k * b) b) as [q r]. congruence.
Qed.

(** The quotient of a canonical mantissa by the mantissa of one: the
    mantissa itself at the least exponent, and otherwise the mantissa
    with one more bit, which the rounding shifts out again. *)
Lemma div_core_one m e :
  bounded prec emax m e = true ->
  SFdiv_core_binary prec emax (Z.pos m) e 8388608 (-23)
  = if e =? -149 then (Z.pos m, e, loc_Exact)
    else (Z.pos m~0, e - 1, loc_Exact).
Proof.
  intros H. pose proof (bounded_inv m e H) as [Hc He].
  unfold SFdiv_core_binary.
  change (Zdigits2 (Z.pos m)) with (Z.pos (digits2_pos m)).
  change (Zdigits2 8388608) with 24.
  rewrite fexp_eq.
  set (d := Z.pos (digits2_pos m)) in *.
  assert (Hd : 0 < d) by (unfold d; lia).
  destruct (Z.eqb_spec e (-149)) as [He149|Hne].
  - replace (Z.min (Z.max (d + e - (24 + -23) - 24) (-149)) (e - -23))
      with e by lia.
    replace (e - -23 - e) with 23 by lia. cbv iota beta.
    rewrite Z.shiftl_mul_pow2 by lia.
    rewrite (div_eucl_exact _ 8388608 (Z.pos m)) by (change (2 ^ 23) with 8388608; lia).
    reflexivity.
  - replace (Z.min (Z.max (d + e - (24 + -23) - 24) (-149)) (e - -23))
      with (e - 1) by lia.
    replace (e - -23 - (e - 1)) with 24 by lia. cbv iota beta.
    rewrite Z.shiftl_mul_pow2 by lia.
    rewrite (div_eucl_exact _ 8388608 (Z.pos m~0))
      by (change (2 ^ 24) with 16777216; lia).
    reflexivity.
Qed.

(** [x / 1 = x] *)
Lemma div_one x : valid x = true -> div x one = x.
Proof.
  unfold valid, div.
  destruct x as [[]|[]| |s m e]; intros H; try reflexivity.
  change (valid_binary prec emax (S754_finite s m e))
    with (bounded prec emax m e) in H.
  pose proof (bounded_inv m e H) as [Hc He].
  change (SFdiv prec emax (S754_finite s m e) one)
    with (let '(mz, ez, lz) :=
            SFdiv_core_binary prec emax (Z.pos m) e 8388608 (-23) in
          binary_round_aux prec emax (xorb s false) mz ez lz).
  rewrite div_core_one by done. rewrite xorb_false_r.
  destruct (Z.eqb_spec e (-149)) as [He149|Hne].
  - by apply round_canonical.
  - unfold binary_round_aux at 1. unfold shr_fexp at 1.
    change (Zdigits2 (Z.pos ?p)) with (Z.pos (digits2_pos p)).
    rewrite digits_xO, fexp_eq.
    replace (Z.max (Z.pos (digits2_pos m) + 1 + (e - 1) - 24) (-149)
             - (e - 1))
      with 1 by lia.
    change (shr_record_of_loc ?z loc_Exact)
      with (Build_shr_record z false false).
    rewrite shr_1_exact.
    change (round_nearest_even _ _) with (Z.pos m).
    replace (e - 1 + 1) with e by lia.
    apply (round_canonical s m e) in H. unfold binary_round_aux in H.
    unfold shr_fexp in H at 1.
    change (Zdigits2 (Z.pos m)) with (Z.pos (digits2_pos m)) in H.
    rewrite fexp_eq, Hc, Z.sub_diag, shr_zero in H.
    exact H.
Qed.

(** [x - 0 = x], also for the zeros and the special values. *)
Lemma sub_zero x : sub x zero = x.
Proof. by destruct x as [[]|[]| |s m e]. Qed.

(** [y + 0] is [y], except that a negative zero loses its sign. *)
Lemma add_zero y : add y zero = unsigned_zero y.
Proof. by destruct y as [[]|[]| |s m e]. Qed.

(** [1 + 1e-8] rounds to [1]. *)
Lemma one_plus_eps : add one eps = one.
Proof. vm_compute. reflexivity. Qed.

(** [eps] is the binary32 number nearest to [10^-8]: the distance
    between [11258999 * 2^-50] and [10^-8] is at most half a unit in
    the last place, [2^-51]. *)
Lemma eps_nearest :
  valid eps = true
  /\ 2 * Z.abs (11258999 * 10 ^ 8 - 2 ^ 50) <= 10 ^ 8.
Proof. split; [reflexivity|]. vm_compute. discriminate. Qed.

(** *** Rounding stays in the format *)

Lemma digits2_pos_size p : digits2_pos p = Pos.size p.
Proof. induction p as [p IH|p IH|]; simpl; by rewrite ?IH. Qed.

Lemma digits_log2 p : Z.pos (digits2_pos p) = Z.log2 (Z.pos p) + 1.
Proof.
  rewrite digits2_pos_size. destruct p as [p|p|]; simpl; lia.
Qed.

Lemma Zdigits2_log2 m : 0 < m -> Zdigits2 m = Z.log2 m + 1.
Proof. destruct m as [|p|p]; [lia| |lia]. intros _. apply digits_log2. Qed.

Lemma Zdigits2_nonneg m : 0 <= Zdigits2 m.
Proof. destruct m; simpl; lia. Qed.

Lemma Zdigits2_pos m : 0 < m -> 0 < Zdigits2 m.
Proof. destruct m; simpl; lia. Qed.

Lemma Zdigits2_bounds m :
  0 < m -> 2 ^ (Zdigits2 m - 1) <= m < 2 ^ Zdigits2 m.
Proof.
  intros H. rewrite Zdigits2_log2 by done.
  replace (Z.log2 m + 1 - 1) with (Z.log2 m) by lia.
  replace (Z.log2 m + 1) with (Z.succ (Z.log2 m)) by lia.
  by apply Z.log2_spec.
Qed.

Lemma Zdigits2_unique m d :
  0 < d -> 2 ^ (d - 1) <= m < 2 ^ d -> Zdigits2 m = d.
Proof.
  intros Hd [H1 H2]. assert (0 < m) by (pose proof (Z.pow_pos_nonneg 2 (d - 1)); lia).
  rewrite Zdigits2_log2 by done.
  assert (Z.log2 m = d - 1); [|lia].
  apply Z.log2_unique; [lia|].
  replace (Z.succ (d - 1)) with d by lia. done.
Qed.

Lemma Zdigits2_shiftr m n :
  0 < m -> 0 <= n ->
  0 <= Z.shiftr m n /\ Zdigits2 (Z.shiftr m n) = Z.max 0 (Zdigits2 m - n).
Proof.
  intros Hm Hn.
  assert (H0 : 0 <= Z.shiftr m n) by (apply Z.shiftr_nonneg; lia).
  split; [done|].
  destruct (Z.eq_dec (Z.shiftr m n) 0) as [E|E].
  - rewrite E. simpl.
    apply Z.shiftr_eq_0_iff in E as [->|[_ E]]; [lia|].
    rewrite Zdigits2_log2 by done. lia.
  - rewrite Zdigits2_log2 by lia.
    rewrite Z.log2_shiftr by done. rewrite Zdigits2_log2 by done.
    assert (~ Z.log2 m < n).
    { intros Hlt. apply E. apply Z.shiftr_eq_0_iff. right. lia. }
    lia.
Qed.

Lemma Zdigits2_succ m :
  0 <= m ->
  Zdigits2 (m + 1) = Zdigits2 m
  \/ (Zdigits2 (m + 1) = Zdigits2 m + 1 /\ m + 1 = 2 ^ Zdigits2 m).
Proof.
  intros Hm. destruct (Z.eq_dec m 0) as [->|Hne]; [right; by simpl|].
  assert (Hpos : 0 < m) by lia.
  pose proof (Zdigits2_bounds m Hpos) as [H1 H2].
  pose proof (Zdigits2_pos m Hpos) as Hd.
  destruct (Z.eq_dec (m + 1) (2 ^ Zdigits2 m)) as [E|E].
  - right. split; [|done]. apply Zdigits2_unique; [lia|].
    replace (Zdigits2 m + 1 - 1) with (Zdigits2 m) by lia.
    rewrite Z.pow_add_r by lia. lia.
  - left. apply Zdigits2_unique; [lia|lia].
Qed.

Lemma Zdigits2_pow2_half k :
  0 < k -> Z.shiftr (2 ^ k) 1 = 2 ^ (k - 1) /\ Zdigits2 (2 ^ (k - 1)) = k.
Proof.
  intros Hk. split.
  - rewrite Z.shiftr_div_pow2 by lia.
    replace k with (k - 1 + 1) at 1 by lia.
    rewrite Z.pow_add_r by lia. change (2 ^ 1) with 2.
    by rewrite Z.div_mul.
  - apply Zdigits2_unique; [done|].
    split; [lia|]. apply Z.pow_lt_mono_r; lia.
Qed.
Lemma iter_pos_nat {A} (f : A -> A) p : forall x,
  SpecFloat.iter_pos f p x = Nat.iter (Pos.to_nat p) f x.
Proof.
  induction p as [p IH|p IH|]; intros x; cbn [SpecFloat.iter_pos].
  - rewrite !IH, Pos2Nat.inj_xI. cbn [Nat.mul].
    rewrite Nat.add_0_r, Nat.iter_succ_r, Nat.iter_add. done.
  - rewrite !IH, Pos2Nat.inj_xO. cbn [Nat.mul].
    rewrite Nat.add_0_r, Nat.iter_add. done.
  - done.
Qed.

Lemma shr_1_m mrs : 0 <= shr_m mrs -> shr_m (shr_1 mrs) = Z.div2 (shr_m mrs).
Proof. destruct mrs as [[|[p|p|]|p] r s]; simpl; intros; (done || lia). Qed.

Lemma iter_shr_1_m (n : nat) : forall mrs,
  0 <= shr_m mrs ->
  shr_m (Nat.iter n shr_1 mrs) = Z.shiftr (shr_m mrs) (Z.of_nat n).
Proof.
  induction n as [|n IH]; intros mrs Hm.
  - by rewrite Z.shiftr_0_r.
  - rewrite Nat.iter_succ, shr_1_m; rewrite IH by done.
    + rewrite Nat2Z.inj_succ, <- Z.add_1_r.
      rewrite <- Z.shiftr_shiftr by lia. by rewrite Z.div2_spec.
    + apply Z.shiftr_nonneg. done.
Qed.

(** The first step of the rounding: the mantissa is shifted to the
    exponent of the format, when the exponent it comes with is not
    above it. *)
Lemma shr_fexp_spec m e l :
  0 <= m ->
  e <= fexp prec emax (Zdigits2 m + e) ->
  exists mrs,
    shr_fexp prec emax m e l = (mrs, fexp prec emax (Zdigits2 m + e))
    /\ shr_m mrs = Z.shiftr m (fexp prec emax (Zdigits2 m + e) - e).
Proof.
  intros Hm He. unfold shr_fexp.
  set (n := fexp prec emax (Zdigits2 m + e) - e).
  assert (Hn : 0 <= n) by lia.
  assert (Hrec : shr_m (shr_record_of_loc m l) = m)
    by (by destruct l as [|[]]).
  destruct n as [|p|p] eqn:En; [| |lia].
  - eexists. split.
    + unfold shr. f_equal. lia.
    + by rewrite Z.shiftr_0_r.
  - eexists. split.
    + unfold shr. f_equal. lia.
    + rewrite iter_pos_nat, iter_shr_1_m by lia.
      by rewrite Hrec, positive_nat_Z.
Qed.

Lemma round_nearest_even_cases m l :
  round_nearest_even m l = m \/ round_nearest_even m l = m + 1.
Proof. destruct l as [|[]]; simpl; auto. destruct (Z.even m); auto. Qed.

(** What the rounding returns is a number of the format, whenever the
    exponent it starts from is not above the exponent of the format. *)
Lemma binary_round_aux_valid s m e l :
  0 <= m ->
  e <= fexp prec emax (Zdigits2 m + e) ->
  valid (binary_round_aux prec emax s m e l) = true.
Proof.
  intros Hm He. unfold binary_round_aux.
  destruct (shr_fexp_spec m e l Hm He) as (mrs1 & -> & Hm1).
  set (e1 := fexp prec emax (Zdigits2 m + e)) in *.
  set (m1 := round_nearest_even (shr_m mrs1) (loc_of_shr_record mrs1)).
  assert (Hs : 0 <= shr_m mrs1
               /\ Zdigits2 (shr_m mrs1) = Z.max 0 (Zdigits2 m - (e1 - e))).
  { rewrite Hm1. destruct (Z.eq_dec m 0) as [->|Hne].
    - rewrite Z.shiftr_0_l. simpl. lia.
    - apply Zdigits2_shiftr; lia. }
  destruct Hs as [Hs0 Hsd].
  assert (Hm1' : 0 <= m1
                 /\ (Zdigits2 m1 = Zdigits2 (shr_m mrs1)
                     \/ (Zdigits2 m1 = Zdigits2 (shr_m mrs1) + 1
                         /\ m1 = 2 ^ Zdigits2 (shr_m mrs1)))).
  { unfold m1.
    destruct (round_nearest_even_cases (shr_m mrs1) (loc_of_shr_record mrs1))
      as [->| ->]; [split; [done|by left]|].
    split; [lia|]. destruct (Zdigits2_succ (shr_m mrs1) Hs0); auto. }
  destruct Hm1' as [Hm10 Hm1d].
  pose proof (Zdigits2_nonneg m) as Hdm.
  assert (He1 : e1 = Z.max (Zdigits2 m + e - 24) (-149)) by done.
  assert (He2 : e1 <= fexp prec emax (Zdigits2 m1 + e1)).
  { rewrite fexp_eq. lia. }
  destruct (shr_fexp_spec m1 e1 loc_Exact Hm10 He2) as (mrs2 & -> & Hm2).
  set (e2 := fexp prec emax (Zdigits2 m1 + e1)) in *.
  assert (He2' : e2 = Z.max (Zdigits2 m1 + e1 - 24) (-149)) by done.
  destruct (shr_m mrs2) as [|p|p] eqn:Ep; [done| |done].
  destruct (e2 <=? emax - prec) eqn:Hle; [|done].
  unfold valid. cbn [valid_binary]. unfold bounded, canonical_mantissa.
  rewrite Hle, andb_true_r. apply Z.eqb_eq. rewrite fexp_eq.
  change (Z.pos (digits2_pos p)) with (Zdigits2 (Z.pos p)).
  rewrite Hm2.
  destruct (Z.eq_dec e2 e1) as [E|E].
  - rewrite E, Z.sub_diag, Z.shiftr_0_r. lia.
  - assert (Hd24 : Zdigits2 (shr_m mrs1) = 24 /\ e2 = e1 + 1) by lia.
    destruct Hd24 as [Hd24 ->].
    destruct Hm1d as [Hsame|[_ Hpow]]; [lia|].
    rewrite Hpow, Hd24. replace (e1 + 1 - e1) with 1 by lia.
    destruct (Zdigits2_pow2_half 24) as [-> ->]; lia.
Qed.
Lemma Zdigits2_mul a b :
  0 < a -> 0 < b -> Zdigits2 a + Zdigits2 b - 1 <= Zdigits2 (a * b).
Proof.
  intros Ha Hb.
  pose proof (Zdigits2_bounds a Ha) as [Ha1 _].
  pose proof (Zdigits2_bounds b Hb) as [Hb1 _].
  pose proof (Zdigits2_pos a Ha). pose proof (Zdigits2_pos b Hb).
  rewrite (Zdigits2_log2 (a * b)) by lia.
  assert (Z.log2 (2 ^ (Zdigits2 a - 1 + (Zdigits2 b - 1))) <= Z.log2 (a * b)).
  { apply Z.log2_le_mono. rewrite Z.pow_add_r by lia.
    apply Z.mul_le_mono_nonneg; lia. }
  rewrite Z.log2_pow2 in * by lia. lia.
Qed.

Lemma valid_finite_inv s m e :
  valid (S754_finite s m e) = true ->
  Z.max (Z.pos (digits2_pos m) + e - 24) (-149) = e /\ e <= 104.
Proof.
  unfold valid. cbn [valid_binary].
  unfold bounded, canonical_mantissa, fexp, emin, prec, emax. intros H.
  apply andb_true_iff in H as [H1 H2].
  apply Z.eqb_eq in H1. apply Z.leb_le in H2. split; [exact H1|lia].
Qed.

(** The product of two numbers of the format is one. *)
Lemma mul_valid x y :
  valid x = true -> valid y = true -> valid (mul x y) = true.
Proof.
  destruct x as [sx|sx| |sx mx ex]; destruct y as [sy|sy| |sy my ey];
    try reflexivity.
  intros Hx Hy. unfold mul. cbn [SFmul].
  apply valid_finite_inv in Hx as [Hx _].
  apply valid_finite_inv in Hy as [Hy _].
  apply binary_round_aux_valid; [lia|].
  rewrite fexp_eq.
  pose proof (Zdigits2_mul (Z.pos mx) (Z.pos my) ltac:(lia) ltac:(lia)) as Hd.
  change (Zdigits2 (Z.pos mx)) with (Z.pos (digits2_pos mx)) in Hd.
  change (Zdigits2 (Z.pos my)) with (Z.pos (digits2_pos my)) in Hd.
  change (Z.pos (mx * my)) with (Z.pos mx * Z.pos my).
  lia.
Qed.

Lemma Zdigits2_shift_pos p d :
  Zdigits2 (Z.pos (Pos.iter xO p d)) = Z.pos (digits2_pos p) + Z.pos d.
Proof.
  change (Pos.iter xO p d) with (shift_pos d p).
  rewrite shift_pos_correct.
  change (Zpower_pos 2 d) with (2 ^ Z.pos d).
  rewrite Z.mul_comm.
  rewrite Zdigits2_log2 by (apply Z.mul_pos_pos; [lia|apply Z.pow_pos_nonneg; lia]).
  rewrite Z.log2_mul_pow2 by lia. rewrite digits_log2. lia.
Qed.

(** Rounding an integer mantissa gives a number of the format, whatever
    the exponent it comes with. *)
Lemma binary_round_valid s p e :
  valid (binary_round prec emax s p e) = true.
Proof.
  unfold binary_round, shl_align.
  set (e' := fexp prec emax (Z.pos (digits2_pos p) + e)).
  assert (He' : e' = Z.max (Z.pos (digits2_pos p) + e - 24) (-149)) by done.
  destruct (e' - e) as [|d|d] eqn:Ed.
  - apply binary_round_aux_valid; [lia|]. cbn [Zdigits2]. fold e'. lia.
  - apply binary_round_aux_valid; [lia|]. cbn [Zdigits2]. fold e'. lia.
  - apply binary_round_aux_valid; [lia|].
    rewrite Zdigits2_shift_pos, fexp_eq. lia.
Qed.

Lemma binary_normalize_valid m e sz :
  valid (binary_normalize prec emax m e sz) = true.
Proof. destruct m; [done|apply binary_round_valid..]. Qed.

(** The sum of two numbers of the format is one. *)
Lemma add_valid x y :
  valid x = true -> valid y = true -> valid (add x y) = true.
Proof.
  destruct x as [[]|[]| |sx mx ex]; destruct y as [[]|[]| |sy my ey];
    try done.
  intros _ _. apply binary_normalize_valid.
Qed.

End Float32Facts.

(** ** The default boundary transform *)

Lemma for_each_invariant {S A B} (P : B -> Prop) (body : A -> B -> M S B) :
  (forall v acc s acc' s', P acc -> body v acc s = Ok (acc', s') -> P acc') ->
  forall l acc s r s',
    P acc -> for_each body l acc s = Ok (r, s') -> P r.
Proof.
  intros Hbody. induction l as [|v l IH]; intros acc s r s' Hacc Hrun.
  - by injection Hrun as <- <-.
  - cbn [for_each] in Hrun. unfold bind in Hrun.
    destruct (body v acc s) as [[acc1 s1]|e] eqn:Hb; [|done].
    eapply IH; [|exact Hrun]. by eapply Hbody.
Qed.

Section NewLayers.
Context {F : Type} {rng : Type}.
Variable init_linear : nat -> nat -> rng -> (list (list F) * list F) * rng.

Lemma nn_Linear_cpu n_in n_out g layer g' :
  nn_Linear init_linear n_in n_out g = Ok (layer, g') ->
  param_device layer = cpu.
Proof.
  unfold nn_Linear. destruct n_in as [|a| | | | |]; try done.
  destruct n_out as [|b| | | | |]; try done.
  destruct (_ || _); [done|].
  destruct (init_linear _ _ g) as [[w bs] g1]. by intros [= <- <-].
Qed.

(** New layers are on the CPU. *)
Lemma make_fc_layers_cpu layer_sizes g layers g' :
  make_fc_layers init_linear layer_sizes g = Ok (layers, g') ->
  Forall (fun l => param_device l = cpu) layers.
Proof.
  unfold make_fc_layers.
  apply (for_each_invariant
           (fun acc : list (Linear F) =>
              Forall (fun l => param_device l = cpu) acc));
    [|constructor].
  intros i acc s acc' s' Hacc Hb. unfold bind, lift, ret in Hb.
  destruct (py_index layer_sizes i) as [n_in|]; [|done].
  destruct (py_index layer_sizes (i + 1)) as [n_out|]; [|done].
  destruct (nn_Linear init_linear n_in n_out s) as [[layer s1]|] eqn:Hl;
    [|done].
  injection Hb as <- <-. apply Forall_app. split; [done|].
  constructor; [|constructor]. by eapply nn_Linear_cpu.
Qed.

End NewLayers.

Section DefaultBuffers.
Context {F : Type} {SF : Scalar F} {rng : Type}.
Variable init_linear : nat -> nat -> rng -> (list (list F) * list F) * rng.

(** Constructed without normalization vectors, the network has zeros
    and ones as its buffers, of one length at the input and of one
    length at the output, and everything on the CPU. *)
Lemma init_default_buffers obs_dim act_dim hidden_sizes nonlinearity
    log_dir g net g' :
  FCNetwork.init init_linear obs_dim act_dim hidden_sizes nonlinearity
                 None None None None log_dir g = Ok (net, g') ->
  exists n k : nat,
    FCNetwork.in_shift net = Vector cpu (repeat f_zero n)
    /\ FCNetwork.in_scale net = Vector cpu (repeat f_one n)
    /\ FCNetwork.out_shift net = Vector cpu (repeat f_zero k)
    /\ FCNetwork.out_scale net = Vector cpu (repeat f_one k)
    /\ Forall (fun l => param_device l = cpu) (FCNetwork.fc_layers net).
Proof.
  unfold FCNetwork.init. destruct hidden_sizes as [| | |hs| | |]; try done.
  unfold FCNetwork.set_transformations, FCNetwork.buffer_or.
  cbn [FCNetwork.obs_dim FCNetwork.act_dim].
  unfold FCNetwork.full_of, torch_full.
  destruct obs_dim as [|o| | | | |]; try done.
  destruct (o <? 0); [done|].
  destruct act_dim as [|a| | | | |]; try done.
  destruct (a <? 0); [done|].
  cbn [rbind]. unfold bind, lift, ret.
  destruct (make_fc_layers _ _ g) as [[layers g1]|] eqn:Hl; [|done].
  destruct (resolve_nonlinearity nonlinearity) as [nl|]; [|done].
  intros [= <- <-]. exists (Z.to_nat o), (Z.to_nat a).
  cbn. repeat split; try done. by eapply make_fc_layers_cpu.
Qed.

End DefaultBuffers.

Section DefaultTransform.
Variable tanh : spec_float -> spec_float.
Variable linear : list (list spec_float) -> list spec_float
                  -> list spec_float -> list spec_float.
Local Abbreviation F32 := (Float32.scalar tanh linear).
Implicit Types (x y : list (list spec_float)) (r : list spec_float).

Lemma zip_with_repeat (op : spec_float -> spec_float -> spec_float) r c :
  zip_with_F op r (repeat c (length r)) = map (fun a => op a c) r.
Proof. induction r as [|a r IH]; simpl; [done|]. by rewrite IH. Qed.

Lemma forallb_Forall_true {A} (f : A -> bool) (l : list A) :
  forallb f l = true <-> Forall (fun a => f a = true) l.
Proof. by rewrite forallb_forall, List.Forall_forall. Qed.

Lemma valid_rows_Forall x :
  Float32.valid_rows x = true
  <-> Forall (Forall (fun v => Float32.valid v = true)) x.
Proof.
  unfold Float32.valid_rows. rewrite forallb_forall, List.Forall_forall.
  split; intros H r Hr.
  - apply List.Forall_forall. by apply forallb_forall, H.
  - apply forallb_forall, List.Forall_forall. by apply H.
Qed.

(** An operation with a constant vector that leaves every entry of
    the rows as the function [f] has it. *)
Lemma rows_op_constant (op : spec_float -> spec_float -> spec_float)
    (f : spec_float -> spec_float) (c : spec_float) (n : nat) x :
  Composition.width_is n x = true ->
  Forall (Forall (fun a => op a c = f a)) x ->
  Composition.rows_op op x (repeat c n) = Ok (map (map f) x).
Proof.
  intros Hw Hf.
  destruct (rows_op_ok op n x (repeat c n) Hw) as [-> _];
    [apply repeat_length|].
  f_equal. apply width_is_Forall in Hw.
  induction x as [|r x IH]; [done|].
  apply Forall_cons in Hw as [Hr Hw]. apply Forall_cons in Hf as [Hfr Hf].
  cbn [map]. rewrite IH by done. f_equal.
  rewrite <- Hr, zip_with_repeat. apply map_ext_Forall.
  by rewrite List.Forall_forall in Hfr |- *.
Qed.

Lemma map_map_id x (f : spec_float -> spec_float) :
  Forall (Forall (fun a => f a = a)) x -> map (map f) x = x.
Proof.
  induction 1 as [|r x Hr _ IH]; [done|]. cbn [map]. rewrite IH. f_equal.
  induction Hr as [|a r Ha _ IHr]; [done|]. cbn [map]. by rewrite Ha, IHr.
Qed.

(** With zeros and ones as buffers the normalization returns its
    argument: [x - 0] is [x], [1 + 1e-8] is [1], and [x / 1] is [x]. *)
Lemma normalize_default (n : nat) x :
  Composition.width_is n x = true ->
  Float32.valid_rows x = true ->
  Composition.normalize (SF:=F32) (repeat Float32.zero n)
                        (repeat Float32.one n) x = Ok x.
Proof.
  intros Hw Hv. apply valid_rows_Forall in Hv.
  unfold Composition.normalize.
  rewrite (rows_op_constant _ (fun a => a)); [|done|].
  2:{ eapply Forall_impl; [exact Hv|]. intros r Hr.
      eapply Forall_impl; [exact Hr|]. intros a _. apply sub_zero. }
  rewrite (map_map_id x (fun a => a))
    by (apply List.Forall_forall; intros r _;
        apply List.Forall_forall; by intros a _).
  cbn [rbind]. rewrite map_repeat.
  change (f_add (Scalar:=F32) Float32.one (f_eps (Scalar:=F32)))
    with (Float32.add Float32.one Float32.eps).
  rewrite one_plus_eps.
  rewrite (rows_op_constant _ (fun a => a)); [|done|].
  2:{ eapply Forall_impl; [exact Hv|]. intros r Hr.
      eapply Forall_impl; [exact Hr|]. intros a Ha. by apply div_one. }
  f_equal. apply map_map_id.
  apply List.Forall_forall; intros r _.
  apply List.Forall_forall; by intros a _.
Qed.

(** With ones and zeros as buffers the denormalization returns its
    argument, a negative zero without its sign: [y * 1] is [y] and
    [y + 0] is [y] but for the sign of a zero. *)
Lemma denormalize_default (k : nat) y :
  Composition.width_is k y = true ->
  Float32.valid_rows y = true ->
  Composition.denormalize (SF:=F32) (repeat Float32.one k)
                          (repeat Float32.zero k) y
  = Ok (map (map Float32.unsigned_zero) y).
Proof.
  intros Hw Hv. apply valid_rows_Forall in Hv.
  unfold Composition.denormalize.
  rewrite (rows_op_constant _ (fun a => a)); [|done|].
  2:{ eapply Forall_impl; [exact Hv|]. intros r Hr.
      eapply Forall_impl; [exact Hr|]. intros a Ha. by apply mul_one. }
  rewrite (map_map_id y (fun a => a))
    by (apply List.Forall_forall; intros r _;
        apply List.Forall_forall; by intros a _).
  cbn [rbind].
  apply (rows_op_constant _ Float32.unsigned_zero); [done|].
  apply List.Forall_forall; intros r _.
  apply List.Forall_forall; intros a _. apply add_zero.
Qed.

Lemma relu_valid v :
  Float32.valid v = true -> Float32.valid (Float32.relu v) = true.
Proof.
  intros H. unfold Float32.relu.
  destruct v as [s|s| |s m e]; try done; by destruct (SFltb _ _).
Qed.

Section Closed.
Hypothesis tanh_valid : Float32.closed_tanh tanh.
Hypothesis linear_valid : Float32.closed_linear linear.

Lemma affine_valid l x y :
  Float32.valid_layer l = true ->
  Forall (Forall (fun v => Float32.valid v = true)) x ->
  Composition.affine (SF:=F32) l x = Ok y ->
  Forall (Forall (fun v => Float32.valid v = true)) y.
Proof.
  unfold Float32.valid_layer. intros [Hw Hb]%andb_true_iff Hx.
  unfold Composition.affine.
  destruct (forallb _ x); [|done]. intros [= <-].
  apply List.Forall_map. eapply Forall_impl; [exact Hx|].
  intros r Hr. apply linear_valid; [|by apply forallb_Forall_true|done].
  apply forallb_Forall_true in Hw. eapply Forall_impl; [exact Hw|].
  intros w Hw'. by apply forallb_Forall_true.
Qed.

Lemma activate_valid nl x :
  Forall (Forall (fun v => Float32.valid v = true)) x ->
  Forall (Forall (fun v => Float32.valid v = true))
         (Composition.activate (SF:=F32) nl x).
Proof.
  intros H. unfold Composition.activate. apply List.Forall_map.
  eapply Forall_impl; [exact H|]. intros r Hr. apply List.Forall_map.
  eapply Forall_impl; [exact Hr|]. intros v Hv.
  destruct nl; [by apply relu_valid|by apply tanh_valid].
Qed.

Lemma hidden_stack_valid nl hidden : forall x h,
  forallb Float32.valid_layer hidden = true ->
  Forall (Forall (fun v => Float32.valid v = true)) x ->
  Composition.hidden_stack (SF:=F32) nl hidden x = Ok h ->
  Forall (Forall (fun v => Float32.valid v = true)) h.
Proof.
  induction hidden as [|l hidden IH]; intros x h Hl Hx Hs.
  - by injection Hs as <-.
  - cbn [forallb] in Hl. apply andb_true_iff in Hl as [Hl Hls].
    cbn [Composition.hidden_stack] in Hs.
    destruct (Composition.affine l x) as [y|] eqn:Ha; [|done].
    cbn [rbind] in Hs. eapply IH; [done| |exact Hs].
    apply activate_valid. by eapply affine_valid.
Qed.

(** On a float32 batch a perceptron with float32 parameters returns
    binary32 numbers. *)
Lemma plain_mlp_valid nl hidden final x y :
  forallb Float32.valid_layer (hidden ++ [final]) = true ->
  Float32.valid_rows x = true ->
  Composition.plain_mlp (SF:=F32) nl hidden final x = Ok y ->
  Float32.valid_rows y = true.
Proof.
  rewrite forallb_app. cbn [forallb]. rewrite andb_true_r.
  intros [Hh Hf]%andb_true_iff Hx%valid_rows_Forall.
  unfold Composition.plain_mlp.
  destruct (Composition.hidden_stack nl hidden x) as [h|] eqn:Hs; [|done].
  cbn [rbind]. intros Ha. apply valid_rows_Forall.
  eapply affine_valid; [done| |exact Ha]. by eapply hidden_stack_valid.
Qed.

End Closed.
End DefaultTransform.

Lemma hardtanh_valid : Float32.closed_tanh Examples.hardtanh.
Proof.
  intros v H. unfold Examples.hardtanh.
  destruct v as [s|s| |s m e]; try done;
    destruct (SFltb _ _); try done; by destruct (SFltb _ _).
Qed.

Lemma linear_row_valid : Float32.closed_linear Examples.linear_row.
Proof.
  intros w b r Hw Hb Hr. unfold Examples.linear_row.
  apply List.Forall_map.
  assert (Hc : Forall (fun wb => Forall (fun v => Float32.valid v = true)
                                        (fst wb)
                                 /\ Float32.valid (snd wb) = true)
                      (combine w b)).
  { revert b Hb. induction Hw as [|w0 w Hw0 _ IH]; intros b Hb;
      [constructor|].
    destruct Hb as [|b0 b Hb0 Hb]; [constructor|]. cbn [combine].
    constructor; [done|by apply IH]. }
  eapply Forall_impl; [exact Hc|]. intros [w0 b0] [Hw0 Hb0].
  cbn [fst snd] in *.
  assert (Hp : Forall (fun xw => Float32.valid (fst xw) = true
                                 /\ Float32.valid (snd xw) = true)
                      (combine r w0)).
  { clear -Hr Hw0. revert w0 Hw0.
    induction Hr as [|a r Ha _ IH]; intros w0 Hw0; [constructor|].
    destruct Hw0 as [|c w0 Hc Hw0]; [constructor|]. cbn [combine].
    constructor; [done|by apply IH]. }
  revert Hb0. generalize b0.
  induction Hp as [|[a c] l [Ha Hc'] _ IH]; intros acc Hacc; [done|].
  cbn [fold_left]. apply IH. apply add_valid; [done|]. by apply mul_valid.
Qed.

Lemma linear_row_shapes : linear_shapes (SF:=Examples.F32).
Proof.
  intros w b r H. cbn. unfold Examples.linear_row.
  rewrite length_map, length_combine. lia.
Qed.

(* ===================================================================== *)
(** * Further properties of the code                                     *)
(* ===================================================================== *)

(** ** Loops that fill a dictionary *)

Lemma py_index_raises {A} (l : list A) (i : Z) (e : exn) :
  py_index l i = Raise e -> e = IndexError.
Proof.
  unfold py_index; cbv zeta. destruct (_ || _); [by intros [= <-]|].
  destruct (nth_error _ _); [done|]. by intros [= <-].
Qed.

Lemma py_index_minus_one {A} (l : list A) :
  py_index l (-1) = match last l with
                    | Some a => Ok a
                    | None => Raise IndexError
                    end.
Proof.
  destruct l as [|a l _] using rev_ind; [done|].
  by rewrite py_index_last, last_snoc.
Qed.

Lemma nth_error_lookup {A} (l : list A) (i : nat) : nth_error l i = l !! i.
Proof.
  revert i. induction l as [|a l IH]; intros [|i]; simpl; auto.
Qed.

Lemma py_index_lookup {A} (l : list A) (i : nat) :
  py_index l (Z.of_nat i) = match l !! i with
                            | Some a => Ok a
                            | None => Raise IndexError
                            end.
Proof.
  unfold py_index; cbv zeta.
  rewrite !(proj2 (Z.ltb_ge (Z.of_nat i) 0)) by lia. cbn [orb].
  rewrite Nat2Z.id. destruct (Z.leb_spec (Z.of_nat (length l)) (Z.of_nat i)).
  - by rewrite lookup_ge_None_2 by lia.
  - destruct (lookup_lt_is_Some_2 l i ltac:(lia)) as [a Ha]. rewrite Ha.
    by rewrite nth_error_lookup, Ha.
Qed.

Lemma fold_result_ok {S X} (step : result S -> X -> result S)
    (pure : S -> X -> S) (l : list X) : forall acc,
  (forall s x, In x l -> step (Ok s) x = Ok (pure s x)) ->
  fold_left step l (Ok acc) = Ok (fold_left pure l acc).
Proof.
  induction l as [|x l IH]; intros acc H; [done|]. cbn [fold_left].
  rewrite H by (by left). apply IH. intros s y Hy. apply H. by right.
Qed.

(** A loop over the items of a dictionary that assigns [h] of each
    value where it is defined builds the union of the selected items
    with what the dictionary held before. *)
Lemma fold_items_union {A B} (h : A -> option B) (l : list (string * A)) :
  NoDup (fst <$> l) -> forall acc : gmap string B,
  fold_left (fun d kv => match h (snd kv) with
                         | Some v => <[fst kv := v]> d
                         | None => d
                         end) l acc
  = omap h (list_to_map l : gmap string A) ∪ acc.
Proof.
  induction l as [|[i a] l IH] using rev_ind; intros Hnd acc.
  - cbn. by rewrite omap_empty, (left_id_L ∅ (∪)).
  - rewrite fmap_app in Hnd. apply NoDup_app in Hnd as (Hnd & Hi & _).
    rewrite fold_left_app. cbn [fold_left fst snd]. rewrite IH by done.
    assert (Hfresh : (list_to_map l : gmap string A) !! i = None).
    { apply not_elem_of_list_to_map_1. intros Hin. apply (Hi i Hin).
      cbn. left. }
    rewrite list_to_map_snoc by (intros Hin; apply (Hi i Hin); cbn; left).
    destruct (h a) as [v|] eqn:Hh.
    + by rewrite (omap_insert_Some h _ i a v Hh), insert_union_l.
    + rewrite (omap_insert_None h _ i a Hh).
      by rewrite delete_id by (by rewrite lookup_omap, Hfresh).
Qed.

Lemma fold_items_of_map {A B} (h : A -> option B) (m : gmap string A)
    (acc : gmap string B) :
  fold_left (fun d kv => match h (snd kv) with
                         | Some v => <[fst kv := v]> d
                         | None => d
                         end) (map_to_list m) acc
  = omap h m ∪ acc.
Proof.
  rewrite fold_items_union by apply NoDup_fst_map_to_list.
  by rewrite list_to_map_to_list.
Qed.

(** ** DataLog.log_kv *)

Section LogKv.
Context {V : Type}.
Implicit Types (self : DataLog.t (V:=V)) (m : gmap string (list V)).

Lemma py_max_series_lengths m (n : Z) :
  (forall key series,
      m !! key = Some series -> Z.of_nat (length series) <= n) ->
  (exists key series,
      m !! key = Some series /\ Z.of_nat (length series) = n) ->
  py_max (DataLog.series_lengths m) = Ok n.
Proof.
  intros Hle (k & s & Hk & Hn).
  assert (Hin : In n (DataLog.series_lengths m))
    by (apply in_series_lengths; eauto).
  assert (Hall : forall x, In x (DataLog.series_lengths m) -> x <= n).
  { intros x (k' & s' & Hk' & ->)%in_series_lengths. by eapply Hle. }
  destruct (DataLog.series_lengths m) as [|a l]; [done|].
  unfold py_max. f_equal.
  destruct (fold_max_spec l a) as (Hor & Hge & Hfa). cbv zeta in *.
  set (mx := fold_left Z.max l a) in *.
  assert (mx <= n).
  { apply Hall. destruct Hor as [->|Hor]; [by left|by right]. }
  assert (n <= mx).
  { destruct Hin as [<-|Hin]; [done|].
    rewrite List.Forall_forall in Hfa. by apply Hfa. }
  lia.
Qed.

Lemma log_kv_lookup key value self k :
  DataLog.log (DataLog.log_kv key value self) !! k
  = if decide (key = k)
    then Some (default [] (DataLog.log self !! key) ++ [value])
    else DataLog.log self !! k.
Proof. unfold DataLog.log_kv. cbn. apply lookup_insert. Qed.

Lemma log_kv_max_len key value self :
  DataLog.max_len (DataLog.log_kv key value self)
  = if DataLog.max_len self
       <? Z.of_nat (length (default [] (DataLog.log self !! key)) + 1)
    then DataLog.max_len self + 1 else DataLog.max_len self.
Proof. unfold DataLog.log_kv. cbn. by rewrite length_app. Qed.

(** What [log_kv] keeps: no series is empty or longer than [max_len],
    and some series has [max_len] entries unless the log is empty. *)
Lemma log_kv_invariant key value self :
  0 <= DataLog.max_len self ->
  (forall k s, DataLog.log self !! k = Some s ->
               s <> [] /\ Z.of_nat (length s) <= DataLog.max_len self) ->
  (DataLog.log self = ∅ -> DataLog.max_len self = 0) ->
  (DataLog.log self <> ∅ ->
   exists k s, DataLog.log self !! k = Some s
               /\ Z.of_nat (length s) = DataLog.max_len self) ->
  let self' := DataLog.log_kv key value self in
  0 <= DataLog.max_len self'
  /\ (forall k s, DataLog.log self' !! k = Some s ->
                  s <> [] /\ Z.of_nat (length s) <= DataLog.max_len self')
  /\ (exists k s, DataLog.log self' !! k = Some s
                  /\ Z.of_nat (length s) = DataLog.max_len self').
Proof.
  intros H0 Hall Hempty Hsome self'. subst self'.
  set (s0 := default [] (DataLog.log self !! key)).
  assert (Hs0 : Z.of_nat (length s0) <= DataLog.max_len self).
  { unfold s0. destruct (DataLog.log self !! key) as [s|] eqn:E; cbn; [|lia].
    by apply (Hall key s). }
  rewrite log_kv_max_len. fold s0.
  destruct (Z.ltb_spec (DataLog.max_len self) (Z.of_nat (length s0 + 1)))
    as [Hlt|Hge].
  - split; [lia|]. split.
    + intros k s. rewrite log_kv_lookup. fold s0.
      destruct (decide (key = k)) as [<-|Hne].
      * intros [= <-]. split; [by destruct s0|]. rewrite length_app. cbn.
        lia.
      * intros Hk. destruct (Hall k s Hk). split; [done|lia].
    + exists key, (s0 ++ [value]). rewrite log_kv_lookup. fold s0.
      rewrite decide_True by done. split; [done|]. rewrite length_app. cbn.
      lia.
  - split; [lia|]. split.
    + intros k s. rewrite log_kv_lookup. fold s0.
      destruct (decide (key = k)) as [<-|Hne].
      * intros [= <-]. split; [by destruct s0|]. rewrite length_app. cbn.
        lia.
      * intros Hk. by destruct (Hall k s Hk).
    + destruct (decide (DataLog.log self = ∅)) as [He|Hne].
      { specialize (Hempty He). lia. }
      destruct (Hsome Hne) as (k & s & Hk & Hlen).
      exists k, s. rewrite log_kv_lookup. fold s0.
      destruct (decide (key = k)) as [<-|Hkk]; [|done].
      exfalso. unfold s0 in Hge. rewrite Hk in Hge. cbn in Hge. lia.
Qed.

Lemma logged_snoc (kvs : list (string * V)) key value :
  DataLog.logged (kvs ++ [(key, value)])
  = DataLog.log_kv key value (DataLog.logged kvs).
Proof. unfold DataLog.logged. by rewrite fold_left_app. Qed.

Lemma log_kv_not_empty key value self :
  DataLog.log (DataLog.log_kv key value self) <> ∅.
Proof.
  intros H. pose proof (log_kv_lookup key value self key) as Hk.
  rewrite H, lookup_empty, decide_True in Hk by done. done.
Qed.

Lemma logged_invariant (kvs : list (string * V)) :
  let self := DataLog.logged kvs in
  0 <= DataLog.max_len self
  /\ (forall k s, DataLog.log self !! k = Some s ->
                  s <> [] /\ Z.of_nat (length s) <= DataLog.max_len self)
  /\ (DataLog.log self = ∅ -> DataLog.max_len self = 0)
  /\ (DataLog.log self <> ∅ ->
      exists k s, DataLog.log self !! k = Some s
                  /\ Z.of_nat (length s) = DataLog.max_len self).
Proof.
  induction kvs as [|[key value] kvs IH] using rev_ind.
  - cbn. split; [done|]. split; [|split; [done|done]].
    intros k s. by rewrite lookup_empty.
  - rewrite logged_snoc. cbv zeta in IH. destruct IH as (H0 & Hall & He & Hs).
    destruct (log_kv_invariant key value _ H0 Hall He Hs) as (H0' & Hall' & Hs').
    split; [done|]. split; [done|]. split; [|done].
    intros Hempty. by apply log_kv_not_empty in Hempty.
Qed.

(** X1.  On a log filled by [log_kv] alone, after every call [max_len]
    is the length of the longest series, and no series is empty. *)
Theorem log_kv_tracks_longest_series (kvs : list (string * V)) key value :
  let self := DataLog.log_kv key value (DataLog.logged kvs) in
  py_max (DataLog.series_lengths (DataLog.log self))
  = Ok (DataLog.max_len self)
  /\ (forall k series,
         DataLog.log self !! k = Some series ->
         series <> [] /\ Z.of_nat (length series) <= DataLog.max_len self).
Proof.
  intros self. subst self. rewrite <- logged_snoc.
  destruct (logged_invariant (kvs ++ [(key, value)])) as (H0 & Hall & _ & Hs).
  split; [|done]. apply py_max_series_lengths.
  - intros k s Hk. by apply (Hall k s).
  - apply Hs. rewrite logged_snoc. apply log_kv_not_empty.
Qed.

End LogKv.

(** ** DataLog.get_current_log *)

Section CurrentLog.
Context {V : Type}.
Implicit Types (self : DataLog.t (V:=V)).

Lemma get_current_log_ok self :
  (forall k s, DataLog.log self !! k = Some s -> s <> []) ->
  DataLog.get_current_log self = Ok (omap last (DataLog.log self)).
Proof.
  intros Hne. unfold DataLog.get_current_log.
  rewrite (fold_result_ok _
             (fun d kv => match last (snd kv) with
                          | Some v => <[fst kv := v]> d
                          | None => d
                          end)).
  - by rewrite fold_items_of_map, (right_id_L ∅ (∪)).
  - intros d [k s] Hin. cbn [rbind fst snd]. rewrite py_index_minus_one.
    destruct (last s) eqn:E; [done|]. exfalso.
    apply last_None in E.
    apply list_elem_of_In, elem_of_map_to_list in Hin. by apply (Hne k s).
Qed.

Lemma current_row_raised (l : list (string * list V)) :
  fold_left
    (fun acc kv =>
       try! row_dict := acc in
       try! v := py_index (snd kv) (-1) in
       Ok (<[fst kv := v]> row_dict)) l (Raise IndexError)
  = Raise (A:=gmap string V) IndexError.
Proof. by induction l. Qed.

Lemma current_row_raises (l : list (string * list V)) k :
  forall acc : result (gmap string V),
  match acc with Ok _ => True | Raise e => e = IndexError end ->
  In (k, []) l ->
  fold_left
    (fun acc kv =>
       try! row_dict := acc in
       try! v := py_index (snd kv) (-1) in
       Ok (<[fst kv := v]> row_dict)) l acc
  = Raise IndexError.
Proof.
  induction l as [|[k' s] l IH]; intros acc Hacc Hin; [done|].
  cbn [fold_left fst snd]. destruct Hin as [[= -> ->]|Hin].
  - destruct acc as [d|e]; cbn; [|subst e]; apply current_row_raised.
  - apply IH; [|done]. destruct acc as [d|e]; cbn; [|done].
    destruct (py_index s (-1)) eqn:E; cbn; [done|].
    by apply py_index_raises in E.
Qed.

Lemma get_current_log_raises self k :
  DataLog.log self !! k = Some [] ->
  DataLog.get_current_log self = Raise IndexError.
Proof.
  intros Hk. unfold DataLog.get_current_log.
  apply (current_row_raises _ k); [done|].
  by apply list_elem_of_In, elem_of_map_to_list.
Qed.

(** X2.  On a log without an empty series, the row that
    [get_current_log] returns after [log_kv(key, value)] holds [value]
    under [key], and under every other key the last entry of its
    series, whenever that was logged. *)
Theorem log_kv_then_get_current_log key (value : V) self :
  (forall k s, DataLog.log self !! k = Some s -> s <> []) ->
  exists row_dict,
    DataLog.get_current_log (DataLog.log_kv key value self) = Ok row_dict
    /\ row_dict !! key = Some value
    /\ (forall k, k <> key ->
                  row_dict !! k = DataLog.log self !! k ≫= last).
Proof.
  intros Hne. eexists. split; [|split].
  - apply get_current_log_ok. intros k s. rewrite log_kv_lookup.
    destruct (decide (key = k)); [|by apply Hne].
    intros [= <-]. by destruct (default [] _).
  - rewrite lookup_omap, log_kv_lookup, decide_True by done. cbn.
    apply last_snoc.
  - intros k Hk. by rewrite lookup_omap, log_kv_lookup, decide_False.
Qed.

(** X3.  [get_current_log] returns the last entry of every series when
    no series is empty, and raises [IndexError] when one is: so it does
    after [shrink_to(0)] on a log that has a series. *)
Theorem get_current_log_needs_nonempty_series self :
  ((forall k s, DataLog.log self !! k = Some s -> s <> []) ->
   DataLog.get_current_log self = Ok (omap last (DataLog.log self)))
  /\ ((exists k, DataLog.log self !! k = Some []) ->
      DataLog.get_current_log self = Raise IndexError)
  /\ (DataLog.log self <> ∅ ->
      DataLog.get_current_log (fst (DataLog.shrink_to 0 self))
      = Raise IndexError).
Proof.
  split; [apply get_current_log_ok|]. split.
  - intros [k Hk]. by eapply get_current_log_raises.
  - intros Hne. destruct (map_choose _ Hne) as (k & s & Hk).
    apply (get_current_log_raises _ k).
    assert (Hlog : DataLog.log (fst (DataLog.shrink_to 0 self))
                   = (fun series => py_slice_to series 0)
                       <$> DataLog.log self).
    { unfold DataLog.shrink_to. cbv zeta.
      by destruct (py_min _); [destruct (py_max _); [destruct (_ =? _)|]|]. }
    by rewrite Hlog, lookup_fmap, Hk.
Qed.

End CurrentLog.

(** ** DataLog.shrink_to and DataLog.read_log at their edges *)

Section ShrinkEdges.
Context {V : Type}.
Implicit Types (self : DataLog.t (V:=V)).

Lemma shrink_to_state (n : Z) self :
  fst (DataLog.shrink_to n self)
  = DataLog.Make ((fun series => py_slice_to series n) <$> DataLog.log self)
                 n (DataLog.global_step self).
Proof.
  unfold DataLog.shrink_to. cbv zeta.
  by destruct (py_min _); [destruct (py_max _); [destruct (_ =? _)|]|].
Qed.

Lemma shrink_to_depends self self' (n : Z) :
  (fun series => py_slice_to series n) <$> DataLog.log self
  = (fun series => py_slice_to series n) <$> DataLog.log self' ->
  DataLog.global_step self = DataLog.global_step self' ->
  DataLog.shrink_to n self = DataLog.shrink_to n self'.
Proof. unfold DataLog.shrink_to. by intros -> ->. Qed.

(** X4.  Shrinking to [m] entries and then to [n <= m] entries is
    shrinking to [n] entries at once: the same log, the same [max_len]
    and the same outcome of the assertion; so a repeated [shrink_to(n)]
    changes nothing. *)
Theorem shrink_to_absorbs_larger_shrink self (n m : Z) :
  0 <= n <= m ->
  DataLog.shrink_to n (fst (DataLog.shrink_to m self))
  = DataLog.shrink_to n self.
Proof.
  intros Hnm.
  apply shrink_to_depends; rewrite shrink_to_state;
    cbn [DataLog.log DataLog.global_step]; [|done].
  rewrite <- map_fmap_compose. apply map_fmap_ext. intros k s _.
  unfold compose.
  rewrite !py_slice_to_nonneg by lia. rewrite firstn_firstn. f_equal. lia.
Qed.

(** X5.  [shrink_to] on a log without series raises [ValueError], from
    [min] of an empty list, with [max_len] already assigned; and a
    negative argument removes that many entries from the end of every
    series and leaves [max_len] negative. *)
Theorem shrink_to_edge_cases self (n : Z) :
  (DataLog.log self = ∅ ->
   DataLog.shrink_to n self
   = (DataLog.Make ∅ n (DataLog.global_step self), Some ValueError))
  /\ (n < 0 ->
      DataLog.max_len (fst (DataLog.shrink_to n self)) = n
      /\ forall k series,
           DataLog.log self !! k = Some series ->
           DataLog.log (fst (DataLog.shrink_to n self)) !! k
           = Some (firstn (length series - Z.to_nat (- n)) series)).
Proof.
  split.
  - intros He. unfold DataLog.shrink_to. cbv zeta. cbn [DataLog.log].
    rewrite He, fmap_empty.
    by rewrite (proj2 (series_lengths_nil (V:=V) ∅) eq_refl).
  - intros Hn. rewrite shrink_to_state.
    cbn [DataLog.log DataLog.max_len]. split; [done|].
    intros k s Hk. rewrite lookup_fmap, Hk. cbn [fmap option_fmap option_map].
    f_equal.
    unfold py_slice_to. rewrite (proj2 (Z.ltb_lt n 0)) by done.
    f_equal. lia.
Qed.

End ShrinkEdges.

Section ReadEdges.
Context {V : Type}.
Variable eval : DataLog.frame (V:=V) -> string -> option V.
Variable differs_from : V -> Z -> bool.
Implicit Types (self : DataLog.t (V:=V)).

(** X6.  [read_log] on an empty file, which has no header, raises
    [TypeError] and leaves the log as it was; on a file whose header
    line is blank it raises [ValueError], from [max] of nothing, after
    the log was replaced by an empty one, [max_len] left as it was. *)
Theorem read_log_without_columns log_path self :
  ends_with log_path "log.csv" = true ->
  (forall listr,
      DataLog.read_log eval differs_from log_path (CsvTable None listr) self
      = (self, [], Some TypeError))
  /\ (forall listr,
        DataLog.read_log eval differs_from log_path
                         (CsvTable (Some []) listr) self
        = (DataLog.Make ∅ (DataLog.max_len self)
                        (DataLog.global_step self),
           [], Some ValueError)).
Proof.
  intros Hp. unfold DataLog.read_log. rewrite Hp. cbn [negb fieldnames].
  split; [done|]. intros listr. cbn [fold_left records].
  rewrite (read_rows_ok eval (fun _ => None));
    [|by intros fr i rd key text _ []|by intros key []
     |left; split; [by intros []|done]].
  assert (Hd : fold_left (fun d row_dict =>
                            DataLog.extended (fun _ => None) [] row_dict d)
                         listr (∅ : gmap string (list V)) = ∅).
  { apply map_eq. intros k. by rewrite rows_lookup, !lookup_empty. }
  rewrite Hd. cbn [app flat_map].
  assert (Hf : flat_map (DataLog.diagnostics (V:=V) (fun _ => None) [])
                        listr = []).
  { clear Hd. induction listr as [|r l IH]; [done|]. cbn. exact IH. }
  rewrite Hf.
  by rewrite (proj2 (series_lengths_nil (V:=V) ∅) eq_refl).
Qed.

End ReadEdges.

(** ** DataLog.save_log *)

Lemma string_length_app (a b : string) :
  String.length (a +:+ b) = (String.length a + String.length b)%nat.
Proof. induction a as [|c a IH]; simpl; [done|]. by rewrite IH. Qed.

Lemma substring_app_r (a b : string) (j k : nat) :
  String.substring (String.length a + j) k (a +:+ b) = String.substring j k b.
Proof. induction a as [|c a IH]; simpl; [done|]. exact IH. Qed.

(** The path of the table that [save_log] writes passes the assertion
    of [read_log]. *)
Lemma save_path_ends_with (save_path : string) :
  ends_with (save_path +:+ "/log.csv") "log.csv" = true.
Proof.
  unfold ends_with. cbv zeta. rewrite string_length_app.
  change (String.length "/log.csv") with 8%nat.
  change (String.length "log.csv") with 7%nat.
  replace (String.length save_path + 8 - 7)%nat
    with (String.length save_path + 1)%nat by lia.
  rewrite substring_app_r. apply andb_true_iff.
  split; [apply Nat.leb_le; lia|reflexivity].
Qed.

Section SaveLog.
Context {V : Type}.
Variable str : V -> string.
Variable of_int : Z -> V.
Variable eval : DataLog.frame (V:=V) -> string -> option V.
Variable differs_from : V -> Z -> bool.
Implicit Types (self : DataLog.t (V:=V)) (keys : list string).

(** The dictionary of row [r]. *)
Local Abbreviation row_dict self r :=
  (omap (fun series : list V => series !! r%nat) (DataLog.log self)
   ∪ {["iteration" := of_int (Z.of_nat r)]}).

Lemma row_dict_of_ok self (r : nat) :
  DataLog.row_dict_of of_int self (Z.of_nat r) = Ok (row_dict self r).
Proof.
  unfold DataLog.row_dict_of.
  rewrite (fold_result_ok _
             (fun d kv => match snd kv !! r with
                          | Some v => <[fst kv := v]> d
                          | None => d
                          end)).
  - by rewrite fold_items_of_map.
  - intros d [k s] _. cbn [rbind fst snd]. rewrite py_index_lookup.
    destruct (Z.ltb_spec (Z.of_nat r) (Z.of_nat (length s))).
    + by destruct (lookup_lt_is_Some_2 s r ltac:(lia)) as [v ->].
    + by rewrite lookup_ge_None_2 by lia.
Qed.

Lemma writerow_lookup (fieldnames : list string) (d : gmap string V) key :
  DataLog.writerow str fieldnames d !! key
  = if in_dec string_dec key fieldnames
    then Some (from_option str EmptyString (d !! key))
    else None.
Proof.
  unfold DataLog.writerow.
  induction fieldnames as [|f l IH]; [apply lookup_empty|].
  cbn [fmap list_fmap list_to_map foldr]. rewrite lookup_insert.
  cbn [fst snd]. destruct (decide (f = key)) as [->|Hne].
  - destruct (in_dec string_dec key (key :: l)) as [|Hnot]; [done|].
    destruct Hnot. by left.
  - change (foldr _ _ _ !! key) with
      ((list_to_map ((fun f0 => (f0, from_option str EmptyString (d !! f0)))
                       <$> l) : gmap string string) !! key).
    rewrite IH.
    destruct (in_dec string_dec key l) as [Hin|Hnot];
      destruct (in_dec string_dec key (f :: l)) as [Hin'|Hnot']; try done.
    + destruct Hnot'. by right.
    + by destruct Hin' as [->|].
Qed.

(** [save_log] never raises: every row is written. *)
Lemma save_log_ok keys save_path self :
  let fieldnames :=
    if existsb (String.eqb "iteration") keys then keys
    else "iteration" :: keys in
  DataLog.save_log str of_int keys save_path self
  = Ok (DataLog.Saved
          (save_path +:+ "/log.pickle") (DataLog.log self)
          (save_path +:+ "/log.csv")
          (CsvTable (Some fieldnames)
             (map (fun r => DataLog.writerow str fieldnames (row_dict self r))
                  (seq 0 (Z.to_nat (DataLog.max_len self)))))).
Proof.
  intros fieldnames. unfold DataLog.save_log. fold fieldnames.
  rewrite (map_result_ok _
             (fun row => DataLog.writerow str fieldnames
                           (row_dict self (Z.to_nat row)))).
  - cbn [rbind]. unfold py_range. rewrite map_map. do 3 f_equal.
    apply map_ext. intros r. by rewrite Nat2Z.id.
  - unfold py_range. apply List.Forall_forall. intros row Hin.
    apply in_map_iff in Hin as (r & <- & _).
    by rewrite row_dict_of_ok, Nat2Z.id.
Qed.

Lemma existsb_iteration keys :
  existsb (String.eqb "iteration") keys = true <-> In "iteration" keys.
Proof.
  rewrite existsb_exists. split.
  - by intros (k & Hk & ->%String.eqb_eq).
  - intros H. exists "iteration". split; [done|apply String.eqb_refl].
Qed.

Section Restored.
(** The scalar that a text denotes. *)
Variable value : string -> option V.

(** The column of a key in rows numbered from zero: what the fields
    evaluate to, the blank ones skipped. *)
Lemma column_of_rows (rec : nat -> gmap string string) key (s : list V) :
  forall n k : nat,
    (forall r, (k <= r < k + n)%nat ->
               DataLog.field_value value (rec r) key = s !! r) ->
    DataLog.column value (map rec (seq k n)) key = firstn n (skipn k s).
Proof.
  unfold DataLog.column.
  induction n as [|n IH]; intros k H; [done|].
  cbn [seq map omap list_omap]. rewrite H by lia.
  change (list_omap ?f ?l) with (omap f l). rewrite (IH (S k)) by (intros; apply H; lia).
  destruct (s !! k) as [v|] eqn:E.
  - by rewrite (drop_S s v k E).
  - apply lookup_ge_None_1 in E.
    by rewrite !drop_ge, !firstn_nil by lia.
Qed.

(** Reading a table whose iteration column counts the rows: the log
    is the columns of the header and [max_len] is the length of the
    longest, the iteration column. *)
Lemma read_log_restores log_path table other keys (n : nat) :
  ends_with log_path "log.csv" = true ->
  fieldnames table = Some keys ->
  DataLog.scalar_fields eval value keys (records table) ->
  NoDup keys ->
  In "iteration" keys ->
  DataLog.iteration_agrees value differs_from 0 (records table) ->
  (forall key, In key keys ->
     (length (DataLog.column value (records table) key) <= n)%nat) ->
  length (DataLog.column value (records table) "iteration") = n ->
  exists data,
    DataLog.read_log eval differs_from log_path table other
    = (DataLog.Make data (Z.of_nat n) (DataLog.global_step other),
       flat_map (DataLog.diagnostics value keys) (records table)
       ++ [DataLog.LogRead log_path (Z.of_nat n)],
       None)
    /\ forall key,
         data !! key
         = if in_dec string_dec key keys
           then Some (DataLog.column value (records table) key)
           else None.
Proof.
  intros Hp Hf Hsc Hnd Hit Hag Hle Hn.
  unfold DataLog.read_log. rewrite Hp, Hf. cbn [negb].
  set (data0 := fold_left (fun d key => <[key := []]> d) keys ∅).
  assert (Hdom : forall key, In key keys -> is_Some (data0 !! key)).
  { intros key Hin. unfold data0. rewrite empty_series_lookup.
    destruct (in_dec string_dec key keys); [eauto|done]. }
  rewrite (read_rows_ok eval value); [|done|done|by right].
  set (data := fold_left _ (records table) data0).
  assert (Hlookup : forall key,
             data !! key
             = if in_dec string_dec key keys
               then Some (DataLog.column value (records table) key)
               else None).
  { intros key. unfold data, data0.
    rewrite rows_lookup, empty_series_lookup.
    destruct (in_dec string_dec key keys) as [Hin|Hnot].
    - simpl. f_equal. rewrite <- column_flat_map.
      apply flat_map_ext. intros r. by apply appended_once.
    - by rewrite lookup_empty. }
  rewrite (py_max_series_lengths data (Z.of_nat n)).
  - cbn [app]. by exists data.
  - intros key series. rewrite Hlookup.
    destruct (in_dec string_dec key keys) as [Hin|]; [|done].
    intros [= <-]. specialize (Hle key Hin). lia.
  - exists "iteration", (DataLog.column value (records table) "iteration").
    rewrite Hlookup.
    destruct (in_dec string_dec "iteration" keys); [|done].
    split; [done|lia].
Qed.

End Restored.

Lemma lists_keys_In keys self key :
  DataLog.lists_keys keys self ->
  In key keys <-> is_Some (DataLog.log self !! key).
Proof.
  unfold DataLog.lists_keys. intros Hp.
  rewrite <- list_elem_of_In, Hp, list_elem_of_fmap. split.
  - intros ([k s] & -> & Hin%elem_of_map_to_list). by exists s.
  - intros [s Hs]. exists (key, s). split; [done|].
    by apply elem_of_map_to_list.
Qed.

Lemma lists_keys_NoDup keys self :
  DataLog.lists_keys keys self -> NoDup keys.
Proof.
  unfold DataLog.lists_keys. intros Hp.
  rewrite Hp. apply NoDup_fst_map_to_list.
Qed.

Lemma lookup_map_seq {A} (f : nat -> A) (n i : nat) (a : A) :
  map f (seq 0 n) !! i = Some a -> (i < n)%nat /\ a = f i.
Proof.
  change (map f (seq 0 n)) with (f <$> seq 0 n).
  rewrite list_lookup_fmap. intros H.
  destruct (seq 0 n !! i) as [j|] eqn:E; [|done].
  apply lookup_seq in E as [-> Hi]. injection H as <-. by split.
Qed.

(** What row [r] holds in a log without a series named [iteration]. *)
Lemma row_dict_lookup self (r : nat) key :
  DataLog.log self !! "iteration" = None ->
  row_dict self r !! key
  = if decide (key = "iteration") then Some (of_int (Z.of_nat r))
    else DataLog.log self !! key ≫= (fun series => series !! r).
Proof.
  intros Hit. destruct (decide (key = "iteration")) as [->|Hne].
  - rewrite lookup_union_r by (by rewrite lookup_omap, Hit).
    apply lookup_singleton_eq.
  - rewrite lookup_union_l by (by apply lookup_singleton_ne).
    apply lookup_omap.
Qed.

(** X7.  A log without a series named [iteration], whose values are
    written as texts that evaluate to them, is restored by [read_log]
    from the table that [save_log] wrote, with the row numbers added as
    the series [iteration]: every series comes back with its first
    [max_len] entries, also when the series have different lengths.
    [save_log] does not raise, and its pickle holds the log. *)
Theorem save_log_then_read_log keys save_path self other :
  DataLog.lists_keys keys self ->
  DataLog.log self !! "iteration" = None ->
  DataLog.evaluates_back str eval self ->
  (forall fr, eval fr EmptyString = None) ->
  (forall fr (r : nat),
      Z.of_nat r < DataLog.max_len self ->
      eval fr (str (of_int (Z.of_nat r))) = Some (of_int (Z.of_nat r))
      /\ differs_from (of_int (Z.of_nat r)) (Z.of_nat r) = false) ->
  exists files out,
    DataLog.save_log str of_int keys save_path self = Ok files
    /\ DataLog.pickled files = DataLog.log self
    /\ DataLog.read_log eval differs_from (DataLog.csv_path files)
                        (DataLog.csv_file files) other
       = (DataLog.Make
            (<["iteration" := map of_int (py_range (DataLog.max_len self))]>
               (firstn (Z.to_nat (DataLog.max_len self))
                  <$> DataLog.log self))
            (Z.max 0 (DataLog.max_len self))
            (DataLog.global_step other),
          out, None).
Proof.
  intros Hkeys Hit Hback Hblank Hrows.
  set (n := Z.to_nat (DataLog.max_len self)).
  set (fr0 := DataLog.Frame other EmptyString [] [] 0%nat ∅ ∅ EmptyString).
  set (value := eval fr0).
  assert (Hnot : ~ In "iteration" keys).
  { rewrite (lists_keys_In _ _ _ Hkeys), Hit. by intros []. }
  pose proof (save_log_ok keys save_path self) as Hsave. cbv zeta in Hsave.
  destruct (existsb (String.eqb "iteration") keys) eqn:E;
    [by apply existsb_iteration in E|].
  fold n in Hsave.
  eexists. eexists. split; [exact Hsave|]. split; [reflexivity|].
  cbn [DataLog.csv_path DataLog.csv_file].
  set (fn := "iteration" :: keys).
  set (rec := fun r : nat => DataLog.writerow str fn (row_dict self r)).
  set (its := map of_int (py_range (DataLog.max_len self))).
  assert (Hits : forall r : nat,
             (r < n)%nat -> its !! r = Some (of_int (Z.of_nat r))).
  { intros r Hr. unfold its, py_range. rewrite map_map.
    change (map ?f ?l) with (f <$> l). rewrite list_lookup_fmap.
    by rewrite lookup_seq_lt. }
  assert (Hlen_its : length its = n).
  { unfold its, py_range. by rewrite !length_map, length_seq. }
  (* every text of the table evaluates to the same in every frame *)
  assert (Htext : forall fr (r : nat) key,
             (r < n)%nat ->
             eval fr (from_option str EmptyString (row_dict self r !! key))
             = match row_dict self r !! key with
               | Some v => Some v
               | None => None
               end).
  { intros fr r key Hr. rewrite (row_dict_lookup self r key Hit).
    destruct (decide (key = "iteration")) as [->|Hne].
    - cbn [from_option]. apply Hrows. lia.
    - destruct (DataLog.log self !! key) as [s|] eqn:Hk;
        cbn [mbind option_bind from_option]; [|apply Hblank].
      destruct (s !! r) as [v|] eqn:Hv; cbn [from_option]; [|apply Hblank].
      apply (Hback fr key s v Hk).
      by apply list_elem_of_In, (list_elem_of_lookup_2 _ r). }
  assert (Hsc : DataLog.scalar_fields eval value fn (map rec (seq 0 n))).
  { intros fr i rd key text Hi Hk Ht.
    apply lookup_map_seq in Hi as [Hi ->].
    unfold rec in Ht. rewrite writerow_lookup in Ht.
    destruct (in_dec string_dec key fn); [|done].
    injection Ht as <-. unfold value. by rewrite !Htext. }
  assert (Hfield : forall (r : nat) key,
             (r < n)%nat -> In key fn ->
             DataLog.field_value value (rec r) key
             = row_dict self r !! key).
  { intros r key Hr Hin. unfold DataLog.field_value, rec.
    rewrite writerow_lookup.
    destruct (in_dec string_dec key fn); [|done].
    cbn [mbind option_bind]. unfold value. rewrite Htext by done.
    by destruct (row_dict self r !! key). }
  assert (Hcol_it : DataLog.column value (map rec (seq 0 n)) "iteration"
                    = its).
  { rewrite (column_of_rows value rec "iteration" its).
    - rewrite drop_0. apply take_ge. lia.
    - intros r Hr. rewrite Hfield; [|lia|by left].
      rewrite (row_dict_lookup self r _ Hit).
      rewrite decide_True by done. by rewrite Hits by lia. }
  assert (Hcol : forall key s,
             DataLog.log self !! key = Some s ->
             DataLog.column value (map rec (seq 0 n)) key = firstn n s).
  { intros key s Hk.
    assert (Hne : key <> "iteration") by (intros ->; congruence).
    assert (Hin : In key fn).
    { right. apply (lists_keys_In _ _ _ Hkeys). by rewrite Hk. }
    rewrite (column_of_rows value rec key s); [by rewrite drop_0|].
    intros r Hr. rewrite Hfield; [|lia|done].
    rewrite (row_dict_lookup self r _ Hit), decide_False by done.
    by rewrite Hk. }
  destruct (read_log_restores value (save_path +:+ "/log.csv")
              (CsvTable (Some fn) (map rec (seq 0 n))) other fn n)
    as (data & Hread & Hdata).
  - apply save_path_ends_with.
  - done.
  - done.
  - apply NoDup_cons. split; [by rewrite list_elem_of_In|].
    by eapply lists_keys_NoDup.
  - by left.
  - intros i rd Hi. cbn [records] in Hi.
    apply lookup_map_seq in Hi as [Hi ->].
    exists (of_int (Z.of_nat i)). rewrite Hfield; [|lia|by left].
    rewrite (row_dict_lookup self i _ Hit), decide_True by done.
    split; [done|]. apply (Hrows fr0). lia.
  - intros key [<-|Hin]; cbn [records].
    + rewrite Hcol_it. lia.
    + apply (lists_keys_In _ _ _ Hkeys) in Hin as [s Hs].
      rewrite (Hcol key s Hs), length_take. lia.
  - cbn [records]. by rewrite Hcol_it.
  - rewrite Hread. cbn [records] in Hdata.
    replace (Z.max 0 (DataLog.max_len self)) with (Z.of_nat n) by lia.
    do 3 f_equal. apply map_eq. intros key. rewrite Hdata.
    destruct (in_dec string_dec key fn) as [[<-|Hin]|Hnot'].
    + by rewrite lookup_insert_eq, Hcol_it.
    + assert (Hne : key <> "iteration") by (by intros ->).
      apply (lists_keys_In _ _ _ Hkeys) in Hin as [s Hs].
      rewrite lookup_insert_ne, lookup_fmap, Hs by done.
      cbn. by rewrite (Hcol key s Hs).
    + assert (Hne : "iteration" <> key) by (intros <-; apply Hnot'; by left).
      rewrite lookup_insert_ne, lookup_fmap by done.
      destruct (DataLog.log self !! key) as [s|] eqn:Hs; [|done].
      destruct Hnot'. right. apply (lists_keys_In _ _ _ Hkeys).
      by rewrite Hs.
Qed.

(** *** A table whose iteration column does not count the rows *)

Implicit Types (data : gmap string (list V)).






End SaveLog.

(** ** The log of the examples *)

Lemma diverged_log_series :
  map_to_list (DataLog.log Examples.diverged_log)
  ≡ₚ [("a", [1; 2; 3]); ("b", [4; 5])].
Proof. apply (bool_decide_unpack _). vm_compute. exact I. Qed.

Lemma diverged_log_lookup k s :
  DataLog.log Examples.diverged_log !! k = Some s ->
  (k = "a" /\ s = [1; 2; 3]) \/ (k = "b" /\ s = [4; 5]).
Proof.
  intros H%elem_of_map_to_list. rewrite diverged_log_series in H.
  apply elem_of_cons in H as [[= -> ->]|H]; [by left|].
  apply elem_of_cons in H as [[= -> ->]|H]; [by right|].
  by apply not_elem_of_nil in H.
Qed.

Lemma log_kv_tracks_longest_series_witness :
  let self :=
    DataLog.log_kv "a" 2 (DataLog.logged [("a", 1); ("b", 4)]) in
  py_max (DataLog.series_lengths (DataLog.log self))
  = Ok (DataLog.max_len self)
  /\ (forall k series,
         DataLog.log self !! k = Some series ->
         series <> [] /\ Z.of_nat (length series) <= DataLog.max_len self).
Proof.
  exact (log_kv_tracks_longest_series (V:=Z) [("a", 1); ("b", 4)] "a" 2).
Defined.

Lemma log_kv_then_get_current_log_witness :
  exists row_dict,
    DataLog.get_current_log (DataLog.log_kv "b" 7 Examples.diverged_log)
    = Ok row_dict
    /\ row_dict !! "b" = Some 7
    /\ (forall k, k <> "b" ->
                  row_dict !! k
                  = DataLog.log Examples.diverged_log !! k ≫= last).
Proof.
  apply (log_kv_then_get_current_log "b" 7 Examples.diverged_log).
  intros k s [[_ ->]|[_ ->]]%diverged_log_lookup; discriminate.
Defined.

Lemma get_current_log_needs_nonempty_series_witness :
  DataLog.get_current_log Examples.diverged_log
  = Ok (omap last (DataLog.log Examples.diverged_log))
  /\ DataLog.get_current_log (fst (DataLog.shrink_to 0 Examples.diverged_log))
     = Raise IndexError.
Proof.
  destruct (get_current_log_needs_nonempty_series Examples.diverged_log)
    as (Hok & _ & Hshrunk).
  split.
  - apply Hok.
    intros k s [[_ ->]|[_ ->]]%diverged_log_lookup; discriminate.
  - apply Hshrunk. intros H.
    assert (Hk : DataLog.log Examples.diverged_log !! "a" = None)
      by (by rewrite H).
    vm_compute in Hk. discriminate.
Defined.

Lemma shrink_to_absorbs_larger_shrink_witness :
  DataLog.shrink_to 1 (fst (DataLog.shrink_to 2 Examples.diverged_log))
  = DataLog.shrink_to 1 Examples.diverged_log.
Proof.
  apply (shrink_to_absorbs_larger_shrink Examples.diverged_log 1 2). lia.
Defined.

Lemma shrink_to_edge_cases_witness :
  DataLog.shrink_to 2 (DataLog.init (V:=Z))
  = (DataLog.Make ∅ 2 0, Some ValueError)
  /\ DataLog.max_len (fst (DataLog.shrink_to (-1) Examples.diverged_log))
     = -1
  /\ DataLog.log (fst (DataLog.shrink_to (-1) Examples.diverged_log)) !! "a"
     = Some [1; 2].
Proof.
  split; [|split].
  - apply (proj1 (shrink_to_edge_cases (DataLog.init (V:=Z)) 2)).
    reflexivity.
  - apply (proj2 (shrink_to_edge_cases Examples.diverged_log (-1))). lia.
  - apply (proj2 (proj2 (shrink_to_edge_cases Examples.diverged_log (-1))
                        ltac:(lia)) "a" [1; 2; 3]).
    vm_compute. reflexivity.
Defined.

Lemma read_log_without_columns_witness :
  DataLog.read_log Examples.eval_py Examples.differs "runs/log.csv"
    (CsvTable None []) Examples.diverged_log
  = (Examples.diverged_log, [], Some TypeError)
  /\ DataLog.read_log Examples.eval_py Examples.differs "runs/log.csv"
       (CsvTable (Some []) []) Examples.diverged_log
     = (DataLog.Make ∅ 3 0, [], Some ValueError).
Proof.
  destruct (read_log_without_columns Examples.eval_py Examples.differs
              "runs/log.csv" Examples.diverged_log eq_refl) as [H1 H2].
  split; [apply H1|apply H2].
Defined.

Lemma save_log_then_read_log_witness :
  exists files out,
    DataLog.save_log Examples.str_int (fun z => z) ["a"; "b"] "runs"
                     Examples.diverged_log
    = Ok files
    /\ DataLog.pickled files = DataLog.log Examples.diverged_log
    /\ DataLog.read_log Examples.eval_py Examples.differs
                        (DataLog.csv_path files) (DataLog.csv_file files)
                        DataLog.init
       = (DataLog.Make
            (<["iteration" := [0; 1; 2]]>
               (firstn 3 <$> DataLog.log Examples.diverged_log))
            3 0,
          out, None).
Proof.
  apply (save_log_then_read_log Examples.str_int (fun z => z)
           Examples.eval_py Examples.differs ["a"; "b"] "runs"
           Examples.diverged_log DataLog.init).
  - unfold DataLog.lists_keys. apply (bool_decide_unpack _).
    vm_compute. exact I.
  - vm_compute. reflexivity.
  - intros fr key series v [[_ ->]|[_ ->]]%diverged_log_lookup Hv;
      repeat (destruct Hv as [<-|Hv]; [reflexivity|]);
      destruct Hv.
  - reflexivity.
  - intros fr r Hr.
    change (DataLog.max_len Examples.diverged_log) with 3 in Hr.
    destruct r as [|[|[|r]]]; [by split..|lia].
Defined.


(** ** Hooks observe *)

Section Agreement.
Context {S1 S2 : Type} (R : S1 -> S2 -> Prop).

Lemma agree_ret {A} (a : A) : agree R (ret a) (ret a).
Proof. by intros s1 s2 H. Qed.

Lemma agree_lift {A} (r : result A) : agree R (lift r) (lift r).
Proof. intros s1 s2 H. unfold lift. by destruct r. Qed.

Lemma agree_bind {A B} (m1 : M S1 A) (m2 : M S2 A)
    (k1 : A -> M S1 B) (k2 : A -> M S2 B) :
  agree R m1 m2 -> (forall a, agree R (k1 a) (k2 a)) ->
  agree R (bind m1 k1) (bind m2 k2).
Proof.
  intros Hm Hk s1 s2 H. unfold bind. specialize (Hm s1 s2 H).
  destruct (m1 s1) as [[a1 s1']|e1], (m2 s2) as [[a2 s2']|e2]; try done.
  destruct Hm as [<- H']. by apply Hk.
Qed.

Lemma agree_for_each {A B} (b1 : A -> B -> M S1 B) (b2 : A -> B -> M S2 B) :
  (forall v acc, agree R (b1 v acc) (b2 v acc)) ->
  forall l acc, agree R (for_each b1 l acc) (for_each b2 l acc).
Proof.
  intros Hb. induction l as [|v l IH]; intros acc; cbn [for_each].
  - apply agree_ret.
  - apply agree_bind; [apply Hb|apply IH].
Qed.

End Agreement.

Section HooksObserve.
Context {F : Type} {SF : Scalar F}.
Implicit Types (l : Linear F) (x out : tensor F).

Lemma linear_forward_same l1 l2 x :
  same_parameters l1 l2 -> linear_forward l1 x = linear_forward l2 x.
Proof.
  intros (Hi & Ho & Hw & Hb & Hd). unfold linear_forward, affine_row.
  by rewrite Hi, Hw, Hb, Hd.
Qed.

Lemma agree_call_linear l1 l2 x :
  same_parameters l1 l2 ->
  agree (fun _ _ : recorder F => True) (call_linear l1 x) (call_linear l2 x).
Proof.
  intros Hs r1 r2 _. unfold call_linear, bind, lift, modify, ret.
  rewrite (linear_forward_same l1 l2 x Hs).
  by destruct (linear_forward l2 x).
Qed.

Lemma py_index_Forall2 {A} (P : A -> A -> Prop) (ls1 ls2 : list A) (i : Z) :
  Forall2 P ls1 ls2 ->
  match py_index ls1 i, py_index ls2 i with
  | Ok a, Ok b => P a b
  | Raise e1, Raise e2 => e1 = e2
  | _, _ => False
  end.
Proof.
  intros H. unfold py_index; cbv zeta.
  rewrite <- (Forall2_length _ _ _ H).
  destruct (_ || _); [done|]. rewrite !nth_error_lookup.
  set (j := Z.to_nat _).
  destruct (ls1 !! j) as [a|] eqn:E1.
  - destruct (Forall2_lookup_l _ _ _ j a H E1) as (b & -> & Hab). done.
  - destruct (ls2 !! j) as [b|] eqn:E2; [|done].
    destruct (Forall2_lookup_r _ _ _ j b H E2) as (a & Ha & _). congruence.
Qed.

Lemma agree_layer_at {S1 S2} (R : S1 -> S2 -> Prop)
    (ls1 ls2 : list (Linear F)) (i : Z)
    (call1 : Linear F -> tensor F -> M S1 (tensor F))
    (call2 : Linear F -> tensor F -> M S2 (tensor F)) out :
  Forall2 same_parameters ls1 ls2 ->
  (forall l1 l2 x, same_parameters l1 l2 -> agree R (call1 l1 x) (call2 l2 x)) ->
  agree R (layer_at ls1 i call1 out) (layer_at ls2 i call2 out).
Proof.
  intros Hls Hcall s1 s2 H. unfold layer_at, bind, lift.
  pose proof (py_index_Forall2 _ ls1 ls2 i Hls) as Hi.
  destruct (py_index ls1 i) as [l1|e1], (py_index ls2 i) as [l2|e2];
    try done.
  by apply Hcall.
Qed.

Lemma register_hooks_layers_same (layers : list (Linear F)) :
  Forall2 same_parameters (register_hooks_layers layers) layers.
Proof.
  unfold register_hooks_layers. apply Forall2_same_length_lookup.
  split; [by rewrite length_imap|].
  intros i l1 l2. rewrite list_lookup_imap. intros H1 H2.
  rewrite H2 in H1. injection H1 as <-. by repeat split.
Qed.

Lemma register_hooks_layers_length (layers : list (Linear F)) :
  length (register_hooks_layers layers) = length layers.
Proof. apply length_imap. Qed.

End HooksObserve.

Section HooksObserveNetworks.
Context {F : Type} {SF : Scalar F} {rng BN DO : Type}.
Variable batch_norm_forward :
  BN -> list (list F) -> result (list (list F) * BN).
Variable dropout_forward : DO -> list (list F) -> rng -> list (list F) * rng.

Local Abbreviation bn_t := (FCNetworkWithBatchNorm.t (F:=F) (BN:=BN) (DO:=DO)).
Local Abbreviation bn_world :=
  (FCNetworkWithBatchNorm.world (F:=F) (rng:=rng) (BN:=BN)).
Local Abbreviation bn_forward :=
  (FCNetworkWithBatchNorm.forward batch_norm_forward dropout_forward).

Lemma FCNetwork_forward_body_agree (net1 net2 : FCNetwork.t (F:=F)) x :
  FCNetwork.in_shift net1 = FCNetwork.in_shift net2 ->
  FCNetwork.in_scale net1 = FCNetwork.in_scale net2 ->
  FCNetwork.out_shift net1 = FCNetwork.out_shift net2 ->
  FCNetwork.out_scale net1 = FCNetwork.out_scale net2 ->
  FCNetwork.nonlinearity net1 = FCNetwork.nonlinearity net2 ->
  Forall2 same_parameters (FCNetwork.fc_layers net1)
          (FCNetwork.fc_layers net2) ->
  agree (fun _ _ : recorder F => True)
        (FCNetwork.forward_body net1 x) (FCNetwork.forward_body net2 x).
Proof.
  intros E1 E2 E3 E4 E5 Hls. unfold FCNetwork.forward_body. cbv zeta.
  rewrite E1, E2, E3, E4, (Forall2_length _ _ _ Hls).
  apply agree_bind; [apply agree_lift|]. intros num.
  apply agree_bind; [apply agree_lift|]. intros out.
  apply agree_bind.
  { apply agree_for_each. intros i acc. unfold FCNetwork.hidden_step.
    rewrite E5. apply agree_bind; [|intros; apply agree_ret].
    apply agree_layer_at; [done|]. intros l1 l2 y.
    apply agree_call_linear. }
  intros out1. apply agree_bind.
  { apply agree_layer_at; [done|]. intros l1 l2 y.
    apply agree_call_linear. }
  intros out2.
  apply agree_bind; [apply agree_lift|]. intros out3.
  apply agree_bind; [apply agree_lift|]. intros out4. apply agree_ret.
Qed.

(** The worlds of two runs: the same state of the batch normalization
    and of the generator; the observers are free. *)
Lemma agree_observed {A} (m1 m2 : M (recorder F) A) :
  agree (fun _ _ => True) m1 m2 ->
  agree (fun w1 w2 : bn_world =>
           FCNetworkWithBatchNorm.w_batchnorm w1
           = FCNetworkWithBatchNorm.w_batchnorm w2
           /\ FCNetworkWithBatchNorm.w_rng w1
              = FCNetworkWithBatchNorm.w_rng w2)
        (FCNetworkWithBatchNorm.observed m1)
        (FCNetworkWithBatchNorm.observed m2).
Proof.
  intros Hm w1 w2 [Hb Hg]. unfold FCNetworkWithBatchNorm.observed.
  specialize (Hm (FCNetworkWithBatchNorm.w_observer w1)
                 (FCNetworkWithBatchNorm.w_observer w2) I).
  destruct (m1 _) as [[a1 r1]|e1], (m2 _) as [[a2 r2]|e2]; try done.
  destruct Hm as [<- _]. by cbn.
Qed.

Lemma BatchNorm_forward_body_agree (net1 net2 : bn_t) x :
  FCNetworkWithBatchNorm.device net1 = FCNetworkWithBatchNorm.device net2 ->
  FCNetworkWithBatchNorm.input_batchnorm_device net1
  = FCNetworkWithBatchNorm.input_batchnorm_device net2 ->
  FCNetworkWithBatchNorm.dropout net1 = FCNetworkWithBatchNorm.dropout net2 ->
  FCNetworkWithBatchNorm.nonlinearity net1
  = FCNetworkWithBatchNorm.nonlinearity net2 ->
  Forall2 same_parameters (FCNetworkWithBatchNorm.fc_layers net1)
          (FCNetworkWithBatchNorm.fc_layers net2) ->
  agree (fun w1 w2 : bn_world =>
           FCNetworkWithBatchNorm.w_batchnorm w1
           = FCNetworkWithBatchNorm.w_batchnorm w2
           /\ FCNetworkWithBatchNorm.w_rng w1
              = FCNetworkWithBatchNorm.w_rng w2)
        (FCNetworkWithBatchNorm.forward_body batch_norm_forward
           dropout_forward net1 x)
        (FCNetworkWithBatchNorm.forward_body batch_norm_forward
           dropout_forward net2 x).
Proof.
  intros E1 E2 E3 E4 Hls. unfold FCNetworkWithBatchNorm.forward_body.
  cbv zeta. rewrite E1, (Forall2_length _ _ _ Hls).
  apply agree_bind.
  { intros w1 w2 [Hb Hg]. unfold FCNetworkWithBatchNorm.call_batchnorm.
    rewrite E2, Hb. destruct (negb _); [done|].
    destruct (batch_norm_forward _ _) as [[rows bn']|e]; [|done].
    by cbn. }
  intros out. apply agree_bind.
  { apply agree_for_each. intros i acc.
    unfold FCNetworkWithBatchNorm.hidden_step. rewrite E4.
    apply agree_bind.
    { apply agree_layer_at; [done|]. intros l1 l2 y Hs.
      by apply agree_observed, agree_call_linear. }
    intros out1. apply agree_bind; [|intros; apply agree_ret].
    intros w1 w2 [Hb Hg]. unfold FCNetworkWithBatchNorm.call_dropout.
    rewrite E3, Hg. destruct (dropout_forward _ _ _) as [rows g'].
    by cbn. }
  intros out1. apply agree_bind; [|intros; apply agree_ret].
  apply agree_layer_at; [done|]. intros l1 l2 y Hs.
  by apply agree_observed, agree_call_linear.
Qed.

(** X9.  The hooks leave what the layers compute as it is: on both
    network variants, whenever a forward pass after [register_hooks]
    returns, the pass without the hooks returns the same tensor; with
    batch normalization it also leaves the same running statistics
    and the same state of the random generator. *)
Theorem forward_with_hooks_returns_what_forward_returns :
  (forall (net : FCNetwork.t (F:=F)) x y net1,
      FCNetwork.forward (FCNetwork.register_hooks net) x = Ok (y, net1) ->
      exists net2, FCNetwork.forward net x = Ok (y, net2))
  /\ (forall (net : bn_t) x (g : rng) r1,
        bn_forward (FCNetworkWithBatchNorm.register_hooks net) x g = Ok r1 ->
        exists r2,
          bn_forward net x g = Ok r2
          /\ FCNetworkWithBatchNorm.outcome r2
             = FCNetworkWithBatchNorm.outcome r1).
Proof.
  split.
  - intros net x y net1. unfold FCNetwork.forward.
    pose proof (FCNetwork_forward_body_agree
                  (FCNetwork.register_hooks net) net x
                  eq_refl eq_refl eq_refl eq_refl eq_refl
                  (register_hooks_layers_same _)
                  (FCNetwork.observer (FCNetwork.register_hooks net))
                  (FCNetwork.observer net) I) as H.
    destruct (FCNetwork.forward_body (FCNetwork.register_hooks net) x _)
      as [[a1 r1]|e1],
      (FCNetwork.forward_body net x _) as [[a2 r2]|e2]; try done.
    destruct H as [<- _]. intros [= <- _]. eauto.
  - intros net x g r1. unfold FCNetworkWithBatchNorm.forward.
    pose proof (BatchNorm_forward_body_agree
                  (FCNetworkWithBatchNorm.register_hooks net) net x
                  eq_refl eq_refl eq_refl eq_refl
                  (register_hooks_layers_same _)
                  (FCNetworkWithBatchNorm.World
                     (FCNetworkWithBatchNorm.observer
                        (FCNetworkWithBatchNorm.register_hooks net))
                     (FCNetworkWithBatchNorm.input_batchnorm
                        (FCNetworkWithBatchNorm.register_hooks net)) g)
                  (FCNetworkWithBatchNorm.World
                     (FCNetworkWithBatchNorm.observer net)
                     (FCNetworkWithBatchNorm.input_batchnorm net) g)
                  (conj eq_refl eq_refl)) as H.
    destruct (FCNetworkWithBatchNorm.forward_body _ _
                (FCNetworkWithBatchNorm.register_hooks net) x _)
      as [[a1 w1]|e1],
      (FCNetworkWithBatchNorm.forward_body _ _ net x _) as [[a2 w2]|e2];
      try done.
    destruct H as (<- & Hb & Hg). intros [= <-]. eexists. split; [done|].
    unfold FCNetworkWithBatchNorm.outcome. cbn. by rewrite Hb, Hg.
Qed.

End HooksObserveNetworks.

Lemma forward_with_hooks_returns_what_forward_returns_witness :
  exists y net2,
    FCNetwork.forward (SF:=Examples.F32) Examples.relu_net Examples.batch
    = Ok (y, net2)
    /\ rmap fst (FCNetwork.forward (SF:=Examples.F32)
                   (FCNetwork.register_hooks Examples.relu_net)
                   Examples.batch)
       = Ok y.
Proof.
  destruct (FCNetwork.forward (SF:=Examples.F32)
              (FCNetwork.register_hooks Examples.relu_net) Examples.batch)
    as [[y net1]|e] eqn:E; [|vm_compute in E; discriminate].
  destruct (proj1 (forward_with_hooks_returns_what_forward_returns
                     (SF:=Examples.F32)
                     Examples.bn_forward Examples.do_forward)
                  Examples.relu_net Examples.batch y net1 E) as [net2 H].
  exists y, net2. split; [exact H|reflexivity].
Defined.

(** ** What a forward pass leaves in the observer *)

Lemma bind_Ok {S A B} (m : M S A) (k : A -> M S B) s b s' :
  bind m k s = Ok (b, s') ->
  exists a s1, m s = Ok (a, s1) /\ k a s1 = Ok (b, s').
Proof.
  unfold bind. destruct (m s) as [[a s1]|e]; [|done]. eauto.
Qed.

Lemma lift_Ok {S A} (r : result A) (s : S) a s' :
  lift r s = Ok (a, s') -> r = Ok a /\ s' = s.
Proof. unfold lift. destruct r; [|done]. by intros [= <- <-]. Qed.

Lemma ret_Ok {S A} (a : A) (s : S) a' s' :
  ret a s = Ok (a', s') -> a' = a /\ s' = s.
Proof. by intros [= <- <-]. Qed.

Section LayerLoop.
Context {F S : Type}.
Variable layers : list (Linear F).
Variable call : Linear F -> tensor F -> M S (tensor F).
Variable post : tensor F -> M S (tensor F).
(** What holds of the state before layer [i] is called. *)
Variable Inv : nat -> S -> Prop.
Hypothesis Hcall : forall (i : nat) l out s out' s',
  layers !! i = Some l -> Inv i s -> call l out s = Ok (out', s') ->
  Inv (Datatypes.S i) s'.
Hypothesis Hpost : forall (i : nat) out s out' s',
  Inv i s -> post out s = Ok (out', s') -> Inv i s'.

Lemma layer_at_invariant (i : nat) out s out' s' :
  Inv i s ->
  layer_at layers (Z.of_nat i) call out s = Ok (out', s') ->
  Inv (Datatypes.S i) s'.
Proof.
  intros Hi H. unfold layer_at in H.
  apply bind_Ok in H as (l & s1 & Hl & Hc).
  apply lift_Ok in Hl as [Hl ->]. rewrite py_index_lookup in Hl.
  destruct (layers !! i) as [l'|] eqn:E; [|done]. injection Hl as ->.
  by eapply Hcall.
Qed.

Lemma hidden_loop_invariant : forall (m k : nat) out s out' s',
  Inv k s ->
  for_each (fun i out => bind (layer_at layers i call out) post)
           (map Z.of_nat (seq k m)) out s = Ok (out', s') ->
  Inv (k + m) s'.
Proof.
  induction m as [|m IH]; intros k out s out' s' Hk H.
  - apply ret_Ok in H as [_ ->]. by rewrite Nat.add_0_r.
  - cbn [seq map for_each] in H.
    apply bind_Ok in H as (out1 & s1 & H1 & H).
    apply bind_Ok in H1 as (out0 & s0 & H0 & H1).
    pose proof (layer_at_invariant k _ _ _ _ Hk H0) as Hk1.
    pose proof (Hpost _ _ _ _ _ Hk1 H1) as Hk2.
    replace (k + Datatypes.S m)%nat with (Datatypes.S k + m)%nat by lia.
    by apply (IH (Datatypes.S k) out1 s1 out' s').
Qed.

Lemma last_layer_invariant out s out' s' :
  Inv (length layers - 1) s ->
  layer_at layers (-1) call out s = Ok (out', s') ->
  Inv (length layers) s'.
Proof.
  intros Hi H. unfold layer_at in H.
  apply bind_Ok in H as (l & s1 & Hl & Hc).
  apply lift_Ok in Hl as [Hl ->]. rewrite py_index_minus_one in Hl.
  destruct (last layers) as [l'|] eqn:E; [|done]. injection Hl as ->.
  rewrite last_lookup in E.
  assert (Hlen : (0 < length layers)%nat).
  { destruct layers; [done|]. cbn. lia. }
  replace (length layers) with (Datatypes.S (length layers - 1)) at 1 by lia.
  eapply Hcall; [|done|done].
  by replace (length layers - 1)%nat with (pred (length layers)) by lia.
Qed.

End LayerLoop.

Section Observer.
Context {F : Type} {SF : Scalar F}.
Implicit Types (l : Linear F) (r : recorder F).

Lemma call_linear_Ok l x r out r' :
  call_linear l x r = Ok (out, r') ->
  linear_forward l x = Ok out
  /\ r' = fold_left (fun r0 n => hook n out r0) (forward_hooks l) r.
Proof.
  unfold call_linear, bind, lift, modify, ret.
  destruct (linear_forward l x); [|done]. by intros [= <- <-].
Qed.

Lemma hooks_histograms (out : tensor F) (names : list string) : forall r,
  length (histograms (fold_left (fun r0 n => hook n out r0) names r))
  = (length (histograms r) + length names)%nat.
Proof.
  induction names as [|n names IH]; intros r; cbn [fold_left length].
  - lia.
  - rewrite IH. cbn. rewrite length_app. cbn. lia.
Qed.

Lemma hooks_activations_keep (out : tensor F) (names : list string) k :
  forall r,
    is_Some (activations r !! k) ->
    is_Some (activations (fold_left (fun r0 n => hook n out r0) names r)
             !! k).
Proof.
  induction names as [|n names IH]; intros r H; [done|].
  cbn [fold_left]. apply IH. cbn. apply lookup_insert_is_Some'. by right.
Qed.

Lemma hooks_activations_last (out : tensor F) (names : list string) n r :
  activations (fold_left (fun r0 n => hook n out r0) (names ++ [n]) r) !! n
  = Some (t_rows out).
Proof. rewrite fold_left_app. cbn. apply lookup_insert_eq. Qed.

End Observer.

Section ForwardObserver.
Context {F : Type} {SF : Scalar F} {rng BN DO : Type}.
Variable batch_norm_forward :
  BN -> list (list F) -> result (list (list F) * BN).
Variable dropout_forward : DO -> list (list F) -> rng -> list (list F) * rng.
Implicit Types (r : recorder F).

Local Abbreviation bn_t := (FCNetworkWithBatchNorm.t (F:=F) (BN:=BN) (DO:=DO)).
Local Abbreviation bn_world :=
  (FCNetworkWithBatchNorm.world (F:=F) (rng:=rng) (BN:=BN)).
Local Abbreviation bn_forward :=
  (FCNetworkWithBatchNorm.forward batch_norm_forward dropout_forward).
Local Abbreviation layer_name i := ("fc_layer_" +:+ str_of_nat i).

Lemma py_range_layers (n : nat) :
  py_range (Z.of_nat n - 1) = map Z.of_nat (seq 0 (n - 1)).
Proof. unfold py_range. do 3 f_equal. lia. Qed.

(** A property of the observer that every layer call carries from
    its index to the next holds for all layers after [forward]. *)
Lemma FCNetwork_forward_invariant (Inv : nat -> recorder F -> Prop)
    (net : FCNetwork.t (F:=F)) x y net' :
  (forall (i : nat) l out r out' r',
      FCNetwork.fc_layers net !! i = Some l -> Inv i r ->
      call_linear l out r = Ok (out', r') -> Inv (S i) r') ->
  Inv 0%nat (FCNetwork.observer net) ->
  FCNetwork.forward net x = Ok (y, net') ->
  Inv (length (FCNetwork.fc_layers net)) (FCNetwork.observer net').
Proof.
  intros Hcall H0 H. unfold FCNetwork.forward in H.
  destruct (FCNetwork.forward_body net x (FCNetwork.observer net))
    as [[out r]|] eqn:E; [|done].
  injection H as <- <-. cbn [FCNetwork.observer FCNetwork.with_observer].
  unfold FCNetwork.forward_body in E. cbv zeta in E.
  apply bind_Ok in E as (num & s1 & H1 & E). apply lift_Ok in H1 as [_ ->].
  apply bind_Ok in E as (o1 & s1 & H1 & E). apply lift_Ok in H1 as [_ ->].
  apply bind_Ok in E as (o2 & s2 & Hloop & E).
  apply bind_Ok in E as (o3 & s3 & Hlast & E).
  apply bind_Ok in E as (o4 & s4 & H4 & E). apply lift_Ok in H4 as [_ ->].
  apply bind_Ok in E as (o5 & s5 & H5 & E). apply lift_Ok in H5 as [_ ->].
  apply ret_Ok in E as [_ ->].
  rewrite py_range_layers in Hloop.
  assert (Hpost : forall (i : nat) (out : tensor F) s out' s',
             Inv i s ->
             ret (apply_nonlin (FCNetwork.nonlinearity net) out) s
             = Ok (out', s') -> Inv i s').
  { intros i o s o' s' Hi Hr. by apply ret_Ok in Hr as [_ ->]. }
  pose proof (hidden_loop_invariant (FCNetwork.fc_layers net) call_linear
                _ Inv Hcall Hpost _ 0%nat _ _ _ _ H0 Hloop) as Hn.
  exact (last_layer_invariant (FCNetwork.fc_layers net) call_linear Inv
           Hcall _ _ _ _ Hn Hlast).
Qed.

Lemma observed_Ok {A} (m : M (recorder F) A) (w : bn_world) a w' :
  FCNetworkWithBatchNorm.observed m w = Ok (a, w') ->
  m (FCNetworkWithBatchNorm.w_observer w)
  = Ok (a, FCNetworkWithBatchNorm.w_observer w').
Proof.
  unfold FCNetworkWithBatchNorm.observed.
  destruct (m _) as [[a0 r0]|]; [|done]. by intros [= <- <-].
Qed.

Lemma BatchNorm_forward_invariant (Inv : nat -> recorder F -> Prop)
    (net : bn_t) x g y net' g' :
  (forall (i : nat) l out r out' r',
      FCNetworkWithBatchNorm.fc_layers net !! i = Some l -> Inv i r ->
      call_linear l out r = Ok (out', r') -> Inv (S i) r') ->
  Inv 0%nat (FCNetworkWithBatchNorm.observer net) ->
  bn_forward net x g = Ok (y, net', g') ->
  Inv (length (FCNetworkWithBatchNorm.fc_layers net))
      (FCNetworkWithBatchNorm.observer net').
Proof.
  intros Hcall H0 H. unfold FCNetworkWithBatchNorm.forward in H.
  destruct (FCNetworkWithBatchNorm.forward_body _ _ net x _)
    as [[out w]|] eqn:E; [|done].
  injection H as <- <- <-.
  cbn [FCNetworkWithBatchNorm.observer FCNetworkWithBatchNorm.with_state].
  unfold FCNetworkWithBatchNorm.forward_body in E. cbv zeta in E.
  apply bind_Ok in E as (o1 & w1 & H1 & E).
  apply bind_Ok in E as (o2 & w2 & Hloop & E).
  apply bind_Ok in E as (o3 & w3 & Hlast & E).
  apply ret_Ok in E as [_ ->].
  assert (Hw1 : FCNetworkWithBatchNorm.w_observer w1
                = FCNetworkWithBatchNorm.observer net).
  { unfold FCNetworkWithBatchNorm.call_batchnorm in H1.
    destruct (negb _); [done|]. cbn in H1.
    destruct (batch_norm_forward _ _) as [[rows bn']|]; [|done].
    by injection H1 as <- <-. }
  rewrite py_range_layers in Hloop.
  set (Inv' := fun (i : nat) (w : bn_world) =>
                 Inv i (FCNetworkWithBatchNorm.w_observer w)).
  assert (Hcall' : forall (i : nat) l out (s : bn_world) out' s',
             FCNetworkWithBatchNorm.fc_layers net !! i = Some l ->
             Inv' i s ->
             FCNetworkWithBatchNorm.observed (call_linear l out) s
             = Ok (out', s') -> Inv' (S i) s').
  { intros i l o s o' s' Hl Hi Hc. apply observed_Ok in Hc.
    by eapply Hcall. }
  assert (Hpost : forall (i : nat) (out : tensor F) (s : bn_world) out' s',
             Inv' i s ->
             bind (FCNetworkWithBatchNorm.call_dropout dropout_forward
                     net out)
                  (fun out0 =>
                     ret (apply_nonlin
                            (FCNetworkWithBatchNorm.nonlinearity net) out0))
                  s
             = Ok (out', s') -> Inv' i s').
  { intros i o0 s o' s' Hi Hr.
    apply bind_Ok in Hr as (o & s0 & Hd & Hr).
    apply ret_Ok in Hr as [_ ->].
    unfold FCNetworkWithBatchNorm.call_dropout in Hd.
    destruct (dropout_forward _ _ _) as [rows g0].
    by injection Hd as <- <-. }
  assert (H0' : Inv' 0%nat w1) by (unfold Inv'; by rewrite Hw1).
  pose proof (hidden_loop_invariant
                (FCNetworkWithBatchNorm.fc_layers net)
                (fun l y0 => FCNetworkWithBatchNorm.observed (call_linear l y0))
                _ Inv' Hcall' Hpost _ 0%nat _ _ _ _ H0' Hloop) as Hn.
  exact (last_layer_invariant (FCNetworkWithBatchNorm.fc_layers net)
           (fun l y0 => FCNetworkWithBatchNorm.observed (call_linear l y0))
           Inv' Hcall' _ _ _ _ Hn Hlast).
Qed.

Lemma histograms_step (layers : list (Linear F)) (n0 i : nat) l
    (out : tensor F) r out' r' :
  layers !! i = Some l ->
  length (histograms r)
  = (n0 + list_sum (map hook_count (firstn i layers)))%nat ->
  call_linear l out r = Ok (out', r') ->
  length (histograms r')
  = (n0 + list_sum (map hook_count (firstn (S i) layers)))%nat.
Proof.
  intros Hl Hi Hc. apply call_linear_Ok in Hc as [_ ->].
  rewrite hooks_histograms, Hi, (take_S_r _ _ _ Hl), map_app, list_sum_app.
  cbn. unfold hook_count. lia.
Qed.

(** X10.  A forward pass that returns has written one histogram for
    every hook of every layer: the sink grows by the number of hooks
    attached, so by twice the number of layers after two calls of
    [register_hooks]. *)
Theorem forward_writes_a_histogram_per_hook :
  (forall (net : FCNetwork.t (F:=F)) x y net',
      FCNetwork.forward net x = Ok (y, net') ->
      length (histograms (FCNetwork.observer net'))
      = (length (histograms (FCNetwork.observer net))
         + list_sum (map hook_count (FCNetwork.fc_layers net)))%nat)
  /\ (forall (net : bn_t) x (g : rng) y net' g',
        bn_forward net x g = Ok (y, net', g') ->
        length (histograms (FCNetworkWithBatchNorm.observer net'))
        = (length (histograms (FCNetworkWithBatchNorm.observer net))
           + list_sum (map hook_count
                           (FCNetworkWithBatchNorm.fc_layers net)))%nat).
Proof.
  split.
  - intros net x y net' H.
    pose proof (FCNetwork_forward_invariant
                  (fun i r =>
                     length (histograms r)
                     = (length (histograms (FCNetwork.observer net))
                        + list_sum (map hook_count
                                      (firstn i (FCNetwork.fc_layers net))))%nat)
                  net x y net') as Hinv.
    cbv beta in Hinv. rewrite firstn_all in Hinv. apply Hinv; [|by rewrite take_0, Nat.add_0_r|done].
    intros i l out r out' r'. apply histograms_step.
  - intros net x g y net' g' H.
    pose proof (BatchNorm_forward_invariant
                  (fun i r =>
                     length (histograms r)
                     = (length (histograms
                                  (FCNetworkWithBatchNorm.observer net))
                        + list_sum
                            (map hook_count
                               (firstn i (FCNetworkWithBatchNorm.fc_layers
                                            net))))%nat)
                  net x g y net' g') as Hinv.
    cbv beta in Hinv. rewrite firstn_all in Hinv. apply Hinv; [|by rewrite take_0, Nat.add_0_r|done].
    intros i l out r out' r'. apply histograms_step.
Qed.

Lemma activations_step (layers : list (Linear F)) (i : nat) l
    (out : tensor F) r out' r' :
  register_hooks_layers layers !! i = Some l ->
  (forall j : nat, (j < i)%nat -> is_Some (activations r !! layer_name j)) ->
  call_linear l out r = Ok (out', r') ->
  forall j : nat, (j < S i)%nat -> is_Some (activations r' !! layer_name j).
Proof.
  intros Hl Hi Hc j Hj. apply call_linear_Ok in Hc as [_ ->].
  unfold register_hooks_layers in Hl. rewrite list_lookup_imap in Hl.
  destruct (layers !! i) as [l0|]; [|done]. injection Hl as <-.
  cbn [forward_hooks register_forward_hook].
  destruct (decide (j = i)) as [->|Hne].
  - by rewrite hooks_activations_last.
  - apply hooks_activations_keep, Hi. lia.
Qed.

(** X11.  After [register_hooks], a forward pass that returns leaves in
    the activation cache an entry under the name [fc_layer_i] of every
    layer, on both network variants. *)
Theorem forward_caches_every_layer :
  (forall (net : FCNetwork.t (F:=F)) x y net' (i : nat),
      FCNetwork.forward (FCNetwork.register_hooks net) x = Ok (y, net') ->
      (i < length (FCNetwork.fc_layers net))%nat ->
      is_Some (activations (FCNetwork.observer net') !! layer_name i))
  /\ (forall (net : bn_t) x (g : rng) y net' g' (i : nat),
        bn_forward (FCNetworkWithBatchNorm.register_hooks net) x g
        = Ok (y, net', g') ->
        (i < length (FCNetworkWithBatchNorm.fc_layers net))%nat ->
        is_Some (activations (FCNetworkWithBatchNorm.observer net')
                 !! layer_name i)).
Proof.
  split.
  - intros net x y net' i H Hi.
    pose proof (FCNetwork_forward_invariant
                  (fun k r => forall j : nat,
                       (j < k)%nat ->
                       is_Some (activations r !! layer_name j))
                  (FCNetwork.register_hooks net) x y net') as Hinv.
    cbv beta in Hinv. apply Hinv; [|intros j Hj; lia|done|].
    + intros k l out r out' r'. apply activations_step.
    + cbn [FCNetwork.fc_layers FCNetwork.register_hooks].
      by rewrite register_hooks_layers_length.
  - intros net x g y net' g' i H Hi.
    pose proof (BatchNorm_forward_invariant
                  (fun k r => forall j : nat,
                       (j < k)%nat ->
                       is_Some (activations r !! layer_name j))
                  (FCNetworkWithBatchNorm.register_hooks net) x g y net' g')
      as Hinv.
    cbv beta in Hinv. apply Hinv; [|intros j Hj; lia|done|].
    + intros k l out r out' r'. apply activations_step.
    + cbn [FCNetworkWithBatchNorm.fc_layers
             FCNetworkWithBatchNorm.register_hooks].
      by rewrite register_hooks_layers_length.
Qed.

Lemma last_registered_layer (layers : list (Linear F)) l :
  py_index (register_hooks_layers layers) (-1) = Ok l ->
  exists l0 : Linear F,
    forward_hooks l = forward_hooks l0 ++ [layer_name (length layers - 1)].
Proof.
  rewrite py_index_minus_one, last_lookup, register_hooks_layers_length.
  unfold register_hooks_layers. rewrite list_lookup_imap.
  replace (pred (length layers)) with (length layers - 1)%nat by lia.
  destruct (layers !! (length layers - 1)%nat) as [l0|]; [|done].
  intros [= <-]. by exists l0.
Qed.

(** X12.  After [register_hooks], the cache entry of the last layer is
    what that layer returned in the latest forward pass: with batch
    normalization it is the batch that [forward] returned; on
    [FCNetwork] it is the batch before the output denormalization,
    which maps it to the batch returned. *)
Theorem forward_caches_the_output_of_the_last_layer :
  (forall (net : FCNetwork.t (F:=F)) x y net',
      FCNetwork.forward (FCNetwork.register_hooks net) x = Ok (y, net') ->
      exists out,
        activations (FCNetwork.observer net')
          !! layer_name (length (FCNetwork.fc_layers net) - 1)
        = Some (t_rows out)
        /\ (try! scaled := tensor_op f_mul out (FCNetwork.out_scale net) in
            tensor_op f_add scaled (FCNetwork.out_shift net)) = Ok y)
  /\ (forall (net : bn_t) x (g : rng) y net' g',
        bn_forward (FCNetworkWithBatchNorm.register_hooks net) x g
        = Ok (y, net', g') ->
        activations (FCNetworkWithBatchNorm.observer net')
          !! layer_name (length (FCNetworkWithBatchNorm.fc_layers net) - 1)
        = Some (t_rows y)).
Proof.
  split.
  - intros net x y net' H. unfold FCNetwork.forward in H.
    destruct (FCNetwork.forward_body _ x _) as [[out r]|] eqn:E; [|done].
    injection H as <- <-. cbn [FCNetwork.observer FCNetwork.with_observer].
    unfold FCNetwork.forward_body in E. cbv zeta in E.
    apply bind_Ok in E as (num & s1 & H1 & E). apply lift_Ok in H1 as [_ ->].
    apply bind_Ok in E as (o1 & s1 & H1 & E). apply lift_Ok in H1 as [_ ->].
    apply bind_Ok in E as (o2 & s2 & _ & E).
    apply bind_Ok in E as (o3 & s3 & Hlast & E).
    apply bind_Ok in E as (o4 & s4 & H4 & E). apply lift_Ok in H4 as [H4 ->].
    apply bind_Ok in E as (o5 & s5 & H5 & E). apply lift_Ok in H5 as [H5 ->].
    apply ret_Ok in E as [-> ->].
    unfold layer_at in Hlast.
    apply bind_Ok in Hlast as (l & s & Hl & Hc).
    apply lift_Ok in Hl as [Hl ->].
    cbn [FCNetwork.fc_layers FCNetwork.register_hooks] in Hl.
    apply last_registered_layer in Hl as [l0 Hl].
    apply call_linear_Ok in Hc as [_ ->].
    exists o3. split; [by rewrite Hl, hooks_activations_last|].
    cbn [FCNetwork.out_scale FCNetwork.out_shift FCNetwork.register_hooks]
      in H4, H5.
    by rewrite H4.
  - intros net x g y net' g' H. unfold FCNetworkWithBatchNorm.forward in H.
    destruct (FCNetworkWithBatchNorm.forward_body _ _ _ x _)
      as [[out w]|] eqn:E; [|done].
    injection H as <- <- <-.
    cbn [FCNetworkWithBatchNorm.observer FCNetworkWithBatchNorm.with_state].
    unfold FCNetworkWithBatchNorm.forward_body in E. cbv zeta in E.
    apply bind_Ok in E as (o1 & w1 & _ & E).
    apply bind_Ok in E as (o2 & w2 & _ & E).
    apply bind_Ok in E as (o3 & w3 & Hlast & E).
    apply ret_Ok in E as [-> ->].
    unfold layer_at in Hlast.
    apply bind_Ok in Hlast as (l & s & Hl & Hc).
    apply lift_Ok in Hl as [Hl ->].
    cbn [FCNetworkWithBatchNorm.fc_layers
           FCNetworkWithBatchNorm.register_hooks] in Hl.
    apply last_registered_layer in Hl as [l0 Hl].
    apply observed_Ok, call_linear_Ok in Hc as [_ ->].
    by rewrite Hl, hooks_activations_last.
Qed.

End ForwardObserver.

Lemma forward_writes_a_histogram_per_hook_witness :
  exists y net',
    FCNetwork.forward (SF:=Examples.F32)
      (FCNetwork.register_hooks (FCNetwork.register_hooks Examples.relu_net))
      Examples.batch
    = Ok (y, net')
    /\ length (histograms (FCNetwork.observer net')) = 4%nat.
Proof.
  destruct (FCNetwork.forward (SF:=Examples.F32)
              (FCNetwork.register_hooks
                 (FCNetwork.register_hooks Examples.relu_net))
              Examples.batch) as [[y net']|e] eqn:E;
    [|vm_compute in E; discriminate].
  exists y, net'. split; [reflexivity|].
  rewrite (proj1 (forward_writes_a_histogram_per_hook
                    (SF:=Examples.F32) Examples.bn_forward
                    Examples.do_forward) _ _ _ _ E).
  reflexivity.
Defined.

Lemma forward_caches_every_layer_witness :
  exists y net',
    FCNetwork.forward (SF:=Examples.F32)
      (FCNetwork.register_hooks Examples.relu_net) Examples.batch
    = Ok (y, net')
    /\ is_Some (activations (FCNetwork.observer net')
                !! ("fc_layer_" +:+ str_of_nat 1)).
Proof.
  destruct (FCNetwork.forward (SF:=Examples.F32)
              (FCNetwork.register_hooks Examples.relu_net)
              Examples.batch) as [[y net']|e] eqn:E;
    [|vm_compute in E; discriminate].
  exists y, net'. split; [reflexivity|].
  apply (proj1 (forward_caches_every_layer
                  (SF:=Examples.F32) Examples.bn_forward
                  Examples.do_forward) Examples.relu_net _ _ _ 1%nat E).
  vm_compute. lia.
Defined.

Lemma forward_caches_the_output_of_the_last_layer_witness :
  exists y net' g',
    FCNetworkWithBatchNorm.forward (SF:=Examples.F32)
      Examples.bn_forward Examples.do_forward
      (FCNetworkWithBatchNorm.register_hooks Examples.bn_net)
      Examples.batch 7%nat
    = Ok (y, net', g')
    /\ activations (FCNetworkWithBatchNorm.observer net')
         !! ("fc_layer_" +:+ str_of_nat 1)
       = Some (t_rows y).
Proof.
  destruct (FCNetworkWithBatchNorm.forward (SF:=Examples.F32)
              Examples.bn_forward Examples.do_forward
              (FCNetworkWithBatchNorm.register_hooks Examples.bn_net)
              Examples.batch 7%nat) as [[[y net'] g']|e] eqn:E;
    [|vm_compute in E; discriminate].
  exists y, net', g'. split; [reflexivity|].
  exact (proj2 (forward_caches_the_output_of_the_last_layer
                  (SF:=Examples.F32) Examples.bn_forward
                  Examples.do_forward) Examples.bn_net _ _ _ _ _ E).
Defined.

(** ** Devices *)

Lemma rmap_Ok {A B} (f : A -> B) (r : result A) (b : B) :
  rmap f r = Ok b -> exists a, r = Ok a /\ b = f a.
Proof. destruct r as [a|]; [|done]. intros [= <-]. by exists a. Qed.

Section CompositionRaises.
Context {F : Type} {SF : Scalar F}.
Implicit Types (l : Linear F) (x : list (list F)).

Lemma map_result_raises {A B} (f : A -> result B) (xs : list A) e (e0 : exn) :
  (forall a e', f a = Raise e' -> e' = e0) ->
  map_result f xs = Raise e -> e = e0.
Proof.
  intros Hf. induction xs as [|a xs IH]; [done|]. cbn [map_result].
  destruct (f a) as [b|e'] eqn:E; cbn.
  - destruct (map_result f xs); cbn; [done|]. intros [= <-]. by apply IH.
  - intros [= <-]. by apply (Hf a).
Qed.

Lemma map_result_length {A B} (f : A -> result B) (xs : list A) ys :
  map_result f xs = Ok ys -> length ys = length xs.
Proof.
  revert ys. induction xs as [|a xs IH]; intros ys; cbn [map_result].
  - by intros [= <-].
  - destruct (f a) as [b|]; [|done]. cbn.
    destruct (map_result f xs) as [ys'|]; [|done]. cbn. intros [= <-].
    cbn. by rewrite (IH ys').
Qed.

Lemma rows_op_raises op x (v : list F) e :
  Composition.rows_op op x v = Raise e -> e = ShapeMismatch.
Proof.
  apply map_result_raises. intros r e'. unfold broadcast_row.
  destruct (Nat.eqb _ _); [done|].
  destruct v as [|b [|b' v]]; destruct r as [|a [|a' r]]; try done;
    by intros [= <-].
Qed.

Lemma rows_op_length op x (v : list F) y :
  Composition.rows_op op x v = Ok y -> length y = length x.
Proof. apply map_result_length. Qed.

Lemma affine_raises l x e :
  Composition.affine l x = Raise e -> e = ShapeMismatch.
Proof.
  unfold Composition.affine. destruct (forallb _ _); [done|].
  by intros [= <-].
Qed.

Lemma affine_length l x y :
  Composition.affine l x = Ok y -> length y = length x.
Proof.
  unfold Composition.affine. destruct (forallb _ _); [|done].
  intros [= <-]. apply length_map.
Qed.

Lemma hidden_stack_raises nl hidden : forall x e,
  Composition.hidden_stack nl hidden x = Raise e -> e = ShapeMismatch.
Proof.
  induction hidden as [|l hidden IH]; intros x e; [done|].
  cbn [Composition.hidden_stack].
  destruct (Composition.affine l x) as [y|e'] eqn:E; cbn [rbind].
  - apply IH.
  - intros [= <-]. by apply affine_raises in E.
Qed.

Lemma hidden_stack_length nl hidden : forall x h,
  Composition.hidden_stack nl hidden x = Ok h -> length h = length x.
Proof.
  induction hidden as [|l hidden IH]; intros x h.
  - by intros [= <-].
  - cbn [Composition.hidden_stack].
    destruct (Composition.affine l x) as [y|] eqn:E; [|done]. cbn [rbind].
    intros H%IH. rewrite H. unfold Composition.activate.
    rewrite length_map. by apply affine_length in E.
Qed.

Lemma normalized_mlp_raises in_shift in_scale out_shift out_scale nl
    hidden final x e :
  Composition.normalized_mlp in_shift in_scale out_shift out_scale
                             nl hidden final x = Raise e ->
  e = ShapeMismatch.
Proof.
  unfold Composition.normalized_mlp, Composition.normalize,
    Composition.denormalize.
  destruct (Composition.rows_op f_sub x in_shift) as [n1|e1] eqn:E1;
    cbn [rbind]; [|intros [= <-]; by apply rows_op_raises in E1].
  destruct (Composition.rows_op f_div n1 _) as [n2|e2] eqn:E2;
    cbn [rbind]; [|intros [= <-]; by apply rows_op_raises in E2].
  destruct (Composition.hidden_stack nl hidden n2) as [h|e3] eqn:E3;
    cbn [rbind]; [|intros [= <-]; by apply hidden_stack_raises in E3].
  destruct (Composition.affine final h) as [y|e4] eqn:E4;
    cbn [rbind]; [|intros [= <-]; by apply affine_raises in E4].
  destruct (Composition.rows_op f_mul y out_scale) as [s|e5] eqn:E5;
    cbn [rbind]; [|intros [= <-]; by apply rows_op_raises in E5].
  apply rows_op_raises.
Qed.

Lemma normalized_mlp_length in_shift in_scale out_shift out_scale nl
    hidden final x y :
  Composition.normalized_mlp in_shift in_scale out_shift out_scale
                             nl hidden final x = Ok y ->
  length y = length x.
Proof.
  unfold Composition.normalized_mlp, Composition.normalize,
    Composition.denormalize.
  destruct (Composition.rows_op f_sub x in_shift) as [n1|] eqn:E1;
    cbn [rbind]; [|done].
  destruct (Composition.rows_op f_div n1 _) as [n2|] eqn:E2;
    cbn [rbind]; [|done].
  destruct (Composition.hidden_stack nl hidden n2) as [h|] eqn:E3;
    cbn [rbind]; [|done].
  destruct (Composition.affine final h) as [y0|] eqn:E4;
    cbn [rbind]; [|done].
  destruct (Composition.rows_op f_mul y0 out_scale) as [s|] eqn:E5;
    cbn [rbind]; [|done].
  intros E6.
  apply rows_op_length in E1, E2, E5, E6. apply hidden_stack_length in E3.
  apply affine_length in E4. congruence.
Qed.

End CompositionRaises.

Section BatchNormDevices.
Context {F : Type} {SF : Scalar F} {rng BN DO : Type}.
Variable batch_norm_forward :
  BN -> list (list F) -> result (list (list F) * BN).
Variable dropout_forward : DO -> list (list F) -> rng -> list (list F) * rng.
Implicit Types (self net : FCNetworkWithBatchNorm.t (F:=F) (BN:=BN) (DO:=DO)).

Local Abbreviation bn_forward :=
  (FCNetworkWithBatchNorm.forward batch_norm_forward dropout_forward).
Local Abbreviation bn_mlp :=
  (Composition.batchnorm_mlp batch_norm_forward dropout_forward).

(** The outcome of [forward] on a network whose tensors live on the
    device it records. *)
Lemma BatchNorm_forward_outcome self d x (g : rng) hidden final :
  FCNetworkWithBatchNorm.fc_layers self = hidden ++ [final] ->
  FCNetworkWithBatchNorm.resides_on d self ->
  rmap FCNetworkWithBatchNorm.outcome (bn_forward self x g)
  = rmap (fun r => (Tensor d (fst (fst r)), snd (fst r), snd r))
         (bn_mlp (FCNetworkWithBatchNorm.input_batchnorm self)
                 (FCNetworkWithBatchNorm.dropout self)
                 (FCNetworkWithBatchNorm.nonlinearity self)
                 hidden final (t_rows x) g).
Proof.
  intros Hl (Hd & Hbd & Hdl).
  rewrite Hl in Hdl. apply Forall_app in Hdl as [Hdh Hdf].
  apply Forall_inv in Hdf; simpl in Hdf.
  unfold FCNetworkWithBatchNorm.forward, Composition.batchnorm_mlp.
  unfold FCNetworkWithBatchNorm.forward_body.
  unfold bind at 1. unfold FCNetworkWithBatchNorm.call_batchnorm at 1.
  cbn [tensor_to t_device t_rows FCNetworkWithBatchNorm.w_batchnorm
       FCNetworkWithBatchNorm.w_observer FCNetworkWithBatchNorm.w_rng].
  rewrite Hd, Hbd, device_eqb_refl. cbn [negb].
  destruct (batch_norm_forward _ (t_rows x)) as [[n bn']|e]; [|done].
  cbn [rbind fst snd]. unfold bind at 1.
  rewrite Hl, py_range_length_layers.
  pose proof (bn_hidden_loop dropout_forward self d hidden [] final n
                (FCNetworkWithBatchNorm.World
                   (FCNetworkWithBatchNorm.observer self) bn' g)
                Hl Hdh) as Hloop.
  cbn [length FCNetworkWithBatchNorm.w_batchnorm
       FCNetworkWithBatchNorm.w_rng] in Hloop.
  destruct (for_each _ _ _ _) as [[h w1]|e];
    destruct (Composition.hidden_stack_dropout _ _ _ hidden n g)
      as [[hr g1]|e']; simpl in Hloop; try done.
  injection Hloop as -> Hbn Hg. cbn [rbind fst snd].
  unfold bind at 1. unfold layer_at. unfold bind at 1, lift at 1.
  rewrite py_index_last.
  pose proof (observed_call_linear final d hr w1 Hdf) as Hc.
  destruct (FCNetworkWithBatchNorm.observed _ w1) as [[out w2]|e];
    destruct (Composition.affine final hr) as [y|e'];
    simpl in Hc; try done.
  injection Hc as -> Hbn2 Hg2. unfold ret. cbn [rmap rbind].
  unfold FCNetworkWithBatchNorm.outcome; simpl.
  by rewrite Hbn2, Hg2, Hbn, Hg.
Qed.

Lemma hidden_stack_dropout_raises nl (do : DO) hidden : forall x (g : rng) e,
  Composition.hidden_stack_dropout dropout_forward nl do hidden x g
  = Raise e ->
  e = ShapeMismatch.
Proof.
  induction hidden as [|l hidden IH]; intros x g e; [done|].
  cbn [Composition.hidden_stack_dropout].
  destruct (Composition.affine l x) as [y|e'] eqn:E; cbn [rbind].
  - destruct (dropout_forward do y g) as [y' g']. apply IH.
  - intros [= <-]. by apply affine_raises in E.
Qed.

Lemma batchnorm_mlp_raises bn (do : DO) nl hidden final x (g : rng) e :
  bn_mlp bn do nl hidden final x g = Raise e ->
  batch_norm_forward bn x = Raise e \/ e = ShapeMismatch.
Proof.
  unfold Composition.batchnorm_mlp.
  destruct (batch_norm_forward bn x) as [[n bn']|e1]; cbn [rbind];
    [|intros [= <-]; by left].
  destruct (Composition.hidden_stack_dropout _ _ _ _ _ _) as [[h g1]|e2]
    eqn:E2; cbn [rbind];
    [|intros [= <-]; right; by apply hidden_stack_dropout_raises in E2].
  destruct (Composition.affine final _) as [y|e3] eqn:E3; cbn [rbind];
    [done|]. intros [= <-]. right. by apply affine_raises in E3.
Qed.

(** X13.  After [to(d)] a forward pass of [FCNetworkWithBatchNorm]
    never raises the device mismatch, whatever device the input is on
    and whatever the network was before, and what it returns is on
    [d]; the batch normalization of the library is taken not to raise
    that error on tensors of one device. *)
Theorem batchnorm_forward_after_to_stays_on_device net d x (g : rng) :
  (forall bn rows, batch_norm_forward bn rows <> Raise DeviceMismatch) ->
  bn_forward (FCNetworkWithBatchNorm.to d net) x g <> Raise DeviceMismatch
  /\ (forall y net' g',
         bn_forward (FCNetworkWithBatchNorm.to d net) x g
         = Ok (y, net', g') ->
         t_device y = d).
Proof.
  intros Hbn.
  destruct (list_snoc_case (FCNetworkWithBatchNorm.fc_layers net))
    as [Hnil|(hidden & final & Hl)].
  - assert (Hf : forall e, bn_forward (FCNetworkWithBatchNorm.to d net) x g
                           = Raise e -> e <> DeviceMismatch).
    { unfold FCNetworkWithBatchNorm.forward,
        FCNetworkWithBatchNorm.forward_body. cbv zeta.
      cbn [FCNetworkWithBatchNorm.fc_layers FCNetworkWithBatchNorm.to
           FCNetworkWithBatchNorm.device].
      rewrite Hnil. cbn [map length py_range]. unfold bind at 1.
      unfold FCNetworkWithBatchNorm.call_batchnorm at 1.
      cbn [tensor_to t_device t_rows
           FCNetworkWithBatchNorm.input_batchnorm_device
           FCNetworkWithBatchNorm.w_batchnorm].
      rewrite device_eqb_refl. cbn [negb].
      destruct (batch_norm_forward _ _) as [[rows bn']|e'] eqn:E.
      - cbn. intros e [= <-]. done.
      - intros e [= <-] ->. by apply (Hbn _ _ E). }
    split.
    + intros H. by apply (Hf _ H).
    + intros y net' g' H. exfalso. revert H.
      unfold FCNetworkWithBatchNorm.forward,
        FCNetworkWithBatchNorm.forward_body. cbv zeta.
      cbn [FCNetworkWithBatchNorm.fc_layers FCNetworkWithBatchNorm.to
           FCNetworkWithBatchNorm.device].
      rewrite Hnil. cbn [map length py_range]. unfold bind at 1.
      unfold FCNetworkWithBatchNorm.call_batchnorm at 1.
      cbn [tensor_to t_device t_rows
           FCNetworkWithBatchNorm.input_batchnorm_device
           FCNetworkWithBatchNorm.w_batchnorm].
      rewrite device_eqb_refl. cbn [negb].
      by destruct (batch_norm_forward _ _) as [[rows bn']|e'].
  - assert (Hl' : FCNetworkWithBatchNorm.fc_layers
                    (FCNetworkWithBatchNorm.to d net)
                  = map (linear_to d) hidden ++ [linear_to d final]).
    { cbn [FCNetworkWithBatchNorm.fc_layers FCNetworkWithBatchNorm.to].
      by rewrite Hl, map_app. }
    pose proof (BatchNorm_forward_outcome
                  (FCNetworkWithBatchNorm.to d net) d x g
                  (map (linear_to d) hidden) (linear_to d final)
                  Hl' (BatchNorm_to_resides_on d net)) as Ho.
    split.
    + intros H. rewrite H in Ho. cbn in Ho. symmetry in Ho.
      apply rmap_raise, batchnorm_mlp_raises in Ho as [Ho|Ho]; [|done].
      by apply Hbn in Ho.
    + intros y net' g' H. rewrite H in Ho. cbn in Ho. symmetry in Ho.
      apply rmap_Ok in Ho as ([[y0 bn0] g0] & _ & Ho).
      unfold FCNetworkWithBatchNorm.outcome in Ho. cbn in Ho.
      by injection Ho as -> _ _.
Qed.

End BatchNormDevices.

Lemma bn_forward_no_device_mismatch bn rows :
  Examples.bn_forward bn rows <> Raise DeviceMismatch.
Proof. unfold Examples.bn_forward. by destruct (forallb _ _). Qed.

Lemma batchnorm_forward_after_to_stays_on_device_witness :
  FCNetworkWithBatchNorm.forward (SF:=Examples.F32)
    Examples.bn_forward Examples.do_forward
    (FCNetworkWithBatchNorm.to (cuda 0) Examples.bn_net) Examples.batch 7%nat
  <> Raise DeviceMismatch
  /\ (forall y net' g',
         FCNetworkWithBatchNorm.forward (SF:=Examples.F32)
           Examples.bn_forward Examples.do_forward
           (FCNetworkWithBatchNorm.to (cuda 0) Examples.bn_net)
           Examples.batch 7%nat
         = Ok (y, net', g') ->
         t_device y = cuda 0).
Proof.
  apply (batchnorm_forward_after_to_stays_on_device (SF:=Examples.F32)
           Examples.bn_forward Examples.do_forward Examples.bn_net (cuda 0)
           Examples.batch 7%nat).
  exact bn_forward_no_device_mismatch.
Defined.

(** ** Construction *)

Section Constructed.
Context {F : Type} {SF : Scalar F} {rng : Type}.
Variable init_linear : nat -> nat -> rng -> (list (list F) * list F) * rng.
Hypothesis Hshapes : initialises_shapes init_linear.
Implicit Types (ls : list (pyval F)) (l : Linear F).

Lemma nn_Linear_sizes n_in n_out (g : rng) l g' :
  nn_Linear init_linear n_in n_out g = Ok (l, g') ->
  linear_of_sizes n_in n_out l.
Proof.
  unfold nn_Linear. destruct n_in as [|a| | | | |]; try done.
  destruct n_out as [|b| | | | |]; try done.
  destruct (Z.ltb_spec a 0); [done|]. destruct (Z.ltb_spec b 0); [done|].
  cbn [orb]. destruct (Hshapes (Z.to_nat a) (Z.to_nat b) g) as [Hw Hb].
  destruct (init_linear _ _ g) as [[w bs] g1]. intros [= <- <-].
  exists a, b. by repeat split.
Qed.

(** The layers that the loop of the constructors has built so far. *)
Lemma make_fc_layers_loop_sizes ls : forall (m k : nat) acc (g : rng) layers g',
  for_each
    (fun i acc =>
       let* n_in := lift (py_index ls i) in
       let* n_out := lift (py_index ls (i + 1)) in
       let* layer := nn_Linear init_linear n_in n_out in
       ret (acc ++ [layer]))
    (map Z.of_nat (seq k m)) acc g = Ok (layers, g') ->
  length acc = k ->
  (forall (i : nat) l, acc !! i = Some l ->
     exists n_in n_out, ls !! i = Some n_in /\ ls !! S i = Some n_out
                        /\ linear_of_sizes n_in n_out l) ->
  length layers = (k + m)%nat
  /\ (forall (i : nat) l, layers !! i = Some l ->
        exists n_in n_out, ls !! i = Some n_in /\ ls !! S i = Some n_out
                           /\ linear_of_sizes n_in n_out l).
Proof.
  induction m as [|m IH]; intros k acc g layers g' H Hk Hacc.
  - apply ret_Ok in H as [-> _]. split; [lia|done].
  - cbn [seq map for_each] in H.
    apply bind_Ok in H as (acc1 & g1 & Hb & H).
    apply bind_Ok in Hb as (n_in & s1 & Hin & Hb).
    apply lift_Ok in Hin as [Hin ->].
    apply bind_Ok in Hb as (n_out & s1 & Hout & Hb).
    apply lift_Ok in Hout as [Hout ->].
    apply bind_Ok in Hb as (layer & s1 & Hl & Hb).
    apply ret_Ok in Hb as [-> ->].
    rewrite py_index_lookup in Hin.
    replace (Z.of_nat k + 1) with (Z.of_nat (S k)) in Hout by lia.
    rewrite py_index_lookup in Hout.
    destruct (ls !! k) as [n_in'|] eqn:E1; [|done]. injection Hin as ->.
    destruct (ls !! S k) as [n_out'|] eqn:E2; [|done]. injection Hout as ->.
    apply nn_Linear_sizes in Hl.
    destruct (IH (S k) (acc ++ [layer]) s1 layers g' H) as [Hlen Hall].
    + rewrite length_app. cbn. lia.
    + intros i l Hi. apply lookup_app_Some in Hi as [Hi|[Hge Hi]].
      * by apply Hacc.
      * apply list_lookup_singleton_Some in Hi as [Hi <-].
        assert (i = k) as -> by lia. eauto.
    + split; [lia|done].
Qed.

Lemma make_fc_layers_sizes ls (g : rng) layers g' :
  make_fc_layers init_linear ls g = Ok (layers, g') ->
  length layers = (length ls - 1)%nat
  /\ (forall (i : nat) l, layers !! i = Some l ->
        exists n_in n_out, ls !! i = Some n_in /\ ls !! S i = Some n_out
                           /\ linear_of_sizes n_in n_out l).
Proof.
  unfold make_fc_layers. rewrite py_range_layers. intros H.
  by apply (make_fc_layers_loop_sizes ls _ 0%nat [] g layers g' H).
Qed.

End Constructed.

Lemma for_each_snoc_length {S A B} (body : A -> list B -> M S (list B)) :
  (forall v acc s acc' s',
      body v acc s = Ok (acc', s') -> length acc' = Datatypes.S (length acc)) ->
  forall l acc s r s',
    for_each body l acc s = Ok (r, s') ->
    length r = (length acc + length l)%nat.
Proof.
  intros Hb. induction l as [|v l IH]; intros acc s r s' H.
  - apply ret_Ok in H as [-> _]. cbn. lia.
  - cbn [for_each] in H. apply bind_Ok in H as (acc1 & s1 & H1 & H).
    apply IH in H. apply Hb in H1. cbn. lia.
Qed.

Section NewNetwork.
Context {F : Type} {SF : Scalar F} {rng : Type}.
Variable init_linear : nat -> nat -> rng -> (list (list F) * list F) * rng.
Implicit Types (net : FCNetwork.t (F:=F)) (x : tensor F).

Lemma make_fc_layers_length (ls : list (pyval F)) (g : rng) layers g' :
  make_fc_layers init_linear ls g = Ok (layers, g') ->
  length layers = (length ls - 1)%nat.
Proof.
  unfold make_fc_layers. intros H.
  apply for_each_snoc_length in H.
  - rewrite H. unfold py_range. rewrite length_map, length_seq. cbn. lia.
  - intros i acc s acc' s' Hb.
    apply bind_Ok in Hb as (n_in & s1 & _ & Hb).
    apply bind_Ok in Hb as (n_out & s2 & _ & Hb).
    apply bind_Ok in Hb as (layer & s3 & _ & Hb).
    apply ret_Ok in Hb as [-> _]. rewrite length_app. cbn. lia.
Qed.

Lemma buffer_or_Ok (v : option (list F)) (c : F) (n : pyval F) b :
  FCNetwork.buffer_or v c n = Ok b ->
  v_device b = cpu
  /\ match v with
     | Some a => v_data b = a
     | None => exists z, n = PyInt z /\ 0 <= z
                         /\ v_data b = repeat c (Z.to_nat z)
     end.
Proof.
  unfold FCNetwork.buffer_or. destruct v as [a|].
  - by intros [= <-].
  - unfold FCNetwork.full_of, torch_full.
    destruct n as [|z| | | | |]; try done.
    destruct (Z.ltb_spec z 0); [done|]. intros [= <-]. split; [done|].
    by exists z.
Qed.

(** What a call of the constructor that returns has built. *)
Lemma FCNetwork_init_Ok obs_dim act_dim hidden_sizes nonlinearity
    in_shift in_scale out_shift out_scale log_dir (g : rng) net g' :
  FCNetwork.init init_linear obs_dim act_dim hidden_sizes nonlinearity
                 in_shift in_scale out_shift out_scale log_dir g
  = Ok (net, g') ->
  exists hs,
    hidden_sizes = PyTuple hs
    /\ FCNetwork.buffer_or in_shift f_zero obs_dim
       = Ok (FCNetwork.in_shift net)
    /\ FCNetwork.buffer_or in_scale f_one obs_dim
       = Ok (FCNetwork.in_scale net)
    /\ FCNetwork.buffer_or out_shift f_zero act_dim
       = Ok (FCNetwork.out_shift net)
    /\ FCNetwork.buffer_or out_scale f_one act_dim
       = Ok (FCNetwork.out_scale net)
    /\ make_fc_layers init_linear ([obs_dim] ++ hs ++ [act_dim]) g
       = Ok (FCNetwork.fc_layers net, g')
    /\ resolve_nonlinearity nonlinearity = Ok (FCNetwork.nonlinearity net).
Proof.
  unfold FCNetwork.init. destruct hidden_sizes as [| | |hs| | |]; try done.
  intros H. exists hs. split; [done|].
  apply bind_Ok in H as (self1 & g1 & H1 & H).
  apply lift_Ok in H1 as [H1 ->].
  apply bind_Ok in H as (layers & g2 & Hl & H).
  apply bind_Ok in H as (nl & g3 & Hnl & H).
  apply lift_Ok in Hnl as [Hnl ->].
  apply ret_Ok in H as [-> ->].
  unfold FCNetwork.set_transformations in H1.
  cbn [FCNetwork.obs_dim FCNetwork.act_dim] in H1.
  destruct (FCNetwork.buffer_or in_shift _ _) as [b1|]; [|done].
  destruct (FCNetwork.buffer_or in_scale _ _) as [b2|]; [|done].
  destruct (FCNetwork.buffer_or out_shift _ _) as [b3|]; [|done].
  destruct (FCNetwork.buffer_or out_scale _ _) as [b4|]; [|done].
  cbn [rbind] in H1. injection H1 as <-. by cbn.
Qed.

Lemma FCNetwork_init_on_cpu obs_dim act_dim hidden_sizes nonlinearity
    in_shift in_scale out_shift out_scale log_dir (g : rng) net g' :
  FCNetwork.init init_linear obs_dim act_dim hidden_sizes nonlinearity
                 in_shift in_scale out_shift out_scale log_dir g
  = Ok (net, g') ->
  FCNetwork.resides_on cpu net
  /\ exists hidden final, FCNetwork.fc_layers net = hidden ++ [final].
Proof.
  intros H. apply FCNetwork_init_Ok in H
    as (hs & _ & H1 & H2 & H3 & H4 & Hl & _).
  apply buffer_or_Ok in H1 as [H1 _], H2 as [H2 _], H3 as [H3 _],
    H4 as [H4 _].
  split.
  - repeat split; try done. by eapply make_fc_layers_cpu.
  - apply make_fc_layers_length in Hl.
    destruct (list_snoc_case (FCNetwork.fc_layers net))
      as [Hnil|(hidden & final & ->)]; [|eauto].
    rewrite Hnil, !length_app in Hl. cbn in Hl. lia.
Qed.

Lemma relocate_cpu_or_cuda x :
  t_device x = cpu \/ (exists i, t_device x = cuda i) ->
  t_device (FCNetwork.relocate x) = cpu.
Proof.
  unfold FCNetwork.relocate, is_cuda.
  by intros [H|[i H]]; rewrite H.
Qed.

(** X15.  A network that the constructor returned has every tensor on
    the CPU, whatever normalization vectors were given; on a batch of
    its dtype on the CPU or on a CUDA device its forward pass returns
    a tensor on the CPU, and the only exception it can raise is the
    shape mismatch. *)
Theorem new_network_takes_cpu_and_cuda_batches obs_dim act_dim hidden_sizes
    nonlinearity in_shift in_scale out_shift out_scale log_dir (g : rng)
    net g' x :
  FCNetwork.init init_linear obs_dim act_dim hidden_sizes nonlinearity
                 in_shift in_scale out_shift out_scale log_dir g
  = Ok (net, g') ->
  t_device x = cpu \/ (exists i, t_device x = cuda i) ->
  FCNetwork.resides_on cpu net
  /\ (forall e, FCNetwork.forward net x = Raise e -> e = ShapeMismatch)
  /\ (forall y net', FCNetwork.forward net x = Ok (y, net') ->
                     t_device y = cpu).
Proof.
  intros Hinit Hx.
  destruct (FCNetwork_init_on_cpu _ _ _ _ _ _ _ _ _ _ _ _ Hinit)
    as (Hres & hidden & final & Hl).
  split; [done|].
  pose proof (forward_value net x _
                (forward_body_value net cpu x hidden final Hl Hres
                   (relocate_cpu_or_cuda x Hx))) as Hv.
  split.
  - intros e He. rewrite He in Hv. cbn in Hv. symmetry in Hv.
    by apply rmap_raise, normalized_mlp_raises in Hv.
  - intros y net' Hy. rewrite Hy in Hv. cbn in Hv. symmetry in Hv.
    by apply rmap_Ok in Hv as (rows & _ & ->).
Qed.

End NewNetwork.

Section ConstructedShapes.
Context {F : Type} {SF : Scalar F} {rng : Type}.
Variable init_linear : nat -> nat -> rng -> (list (list F) * list F) * rng.
Implicit Types (net : FCNetwork.t (F:=F)) (x : tensor F).

Lemma chain_ok_pointwise (w : nat -> nat) (layers : list (Linear F)) :
  forall k : nat,
    (forall (i : nat) l,
        layers !! i = Some l ->
        in_features l = w (k + i)%nat /\ out_features l = w (k + S i)%nat
        /\ length (weight l) = out_features l
        /\ length (bias l) = out_features l) ->
    Composition.chain_ok (w k) layers (w (k + length layers)%nat) = true.
Proof.
  induction layers as [|l layers IH]; intros k H.
  - cbn. rewrite Nat.add_0_r. apply Nat.eqb_refl.
  - cbn [Composition.chain_ok length].
    destruct (H 0%nat l eq_refl) as (Hi & Ho & Hw & Hb).
    rewrite Nat.add_0_r in Hi.
    rewrite Hi, Hw, Hb, !Nat.eqb_refl. cbn [andb]. rewrite Ho.
    replace (k + S (length layers))%nat with (k + 1 + length layers)%nat
      by lia.
    apply IH. intros i l' Hl'.
    destruct (H (S i) l' Hl') as (Hi' & Ho' & Hw' & Hb').
    repeat split; try done.
    + rewrite Hi'. f_equal. lia.
    + rewrite Ho'. f_equal. lia.
Qed.

Lemma buffer_or_length (v : option (list F)) (c : F) (z : Z) b :
  FCNetwork.buffer_or v c (PyInt z) = Ok b ->
  from_option length (Z.to_nat z) v = Z.to_nat z ->
  length (v_data b) = Z.to_nat z.
Proof.
  intros H Hv. apply buffer_or_Ok in H as [_ H]. destruct v as [a|].
  - by rewrite H.
  - destruct H as (z' & [= <-] & _ & ->). apply repeat_length.
Qed.

(** What the constructor builds for the dimensions [o] and [a], with
    normalization vectors of these lengths when they are given: the
    layers fit one another from [o] to [a], and so do the buffers. *)
Lemma FCNetwork_init_shapes (o a : Z) hidden_sizes
    nonlinearity in_shift in_scale out_shift out_scale log_dir (g : rng)
    net g' :
  initialises_shapes init_linear ->
  FCNetwork.init init_linear (PyInt o) (PyInt a) hidden_sizes nonlinearity
                 in_shift in_scale out_shift out_scale log_dir g
  = Ok (net, g') ->
  from_option length (Z.to_nat o) in_shift = Z.to_nat o ->
  from_option length (Z.to_nat o) in_scale = Z.to_nat o ->
  from_option length (Z.to_nat a) out_shift = Z.to_nat a ->
  from_option length (Z.to_nat a) out_scale = Z.to_nat a ->
  FCNetwork.resides_on cpu net
  /\ length (v_data (FCNetwork.in_shift net)) = Z.to_nat o
  /\ length (v_data (FCNetwork.in_scale net)) = Z.to_nat o
  /\ length (v_data (FCNetwork.out_shift net)) = Z.to_nat a
  /\ length (v_data (FCNetwork.out_scale net)) = Z.to_nat a
  /\ exists hidden final,
       FCNetwork.fc_layers net = hidden ++ [final]
       /\ Composition.chain_ok (Z.to_nat o) (hidden ++ [final]) (Z.to_nat a)
          = true.
Proof.
  intros Hshapes Hinit Hv1 Hv2 Hv3 Hv4.
  destruct (FCNetwork_init_on_cpu _ _ _ _ _ _ _ _ _ _ _ _ _ Hinit)
    as (Hres & hidden & final & Hl).
  apply FCNetwork_init_Ok in Hinit
    as (hs & _ & H1 & H2 & H3 & H4 & Hlayers & _).
  apply buffer_or_length in H1, H2, H3, H4; try done.
  repeat (split; [done|]). exists hidden, final. split; [done|].
  set (ls := [PyInt o] ++ hs ++ [PyInt a]) in *.
  destruct (make_fc_layers_sizes init_linear Hshapes ls g _ _ Hlayers)
    as [Hlen Hall].
  set (w := fun i : nat => match ls !! i with
                           | Some (PyInt z) => Z.to_nat z
                           | _ => 0%nat
                           end).
  assert (Hchain : Composition.chain_ok (w 0%nat) (FCNetwork.fc_layers net)
                     (w (0 + length (FCNetwork.fc_layers net))%nat) = true).
  { apply chain_ok_pointwise. intros i l Hi.
    destruct (Hall i l Hi) as (n_in & n_out & Hin & Hout & Hs).
    destruct Hs as (zi & zo & -> & -> & _ & _ & Hfi & Hfo & _ & _ & Hwl & Hbl).
    unfold w. cbn [Nat.add]. by rewrite Hin, Hout. }
  assert (Hw0 : w 0%nat = Z.to_nat o) by done.
  assert (Hwn : w (0 + length (FCNetwork.fc_layers net))%nat = Z.to_nat a).
  { assert (Hlast : ls !! S (length hs) = Some (PyInt a)).
    { unfold ls. cbn [app].
      change ((PyInt o :: (hs ++ [PyInt a])) !! S (length hs))
        with ((hs ++ [PyInt a]) !! length hs).
      by apply list_lookup_middle. }
    unfold w. rewrite Hlen.
    replace (0 + (length ls - 1))%nat with (S (length hs))
      by (unfold ls; rewrite !length_app; cbn [length]; lia).
    by rewrite Hlast. }
  by rewrite Hw0, Hwn, Hl in Hchain.
Qed.

(** X16.  A network that the constructor returned for the dimensions
    [o] and [a], with normalization vectors of these lengths when they
    are given, maps every batch of its dtype on the CPU or on a CUDA
    device whose rows have [o] entries to a batch on the CPU with as
    many rows, of [a] entries each: the forward pass does not raise.
    The initialiser of the library is taken to return as many weight
    rows and biases as the layer has outputs, and the product of a row
    with the parameters of a layer one entry per bias. *)
Theorem constructed_network_maps_obs_dim_to_act_dim (o a : Z) hidden_sizes
    nonlinearity in_shift in_scale out_shift out_scale log_dir (g : rng)
    net g' x :
  initialises_shapes init_linear ->
  linear_shapes ->
  FCNetwork.init init_linear (PyInt o) (PyInt a) hidden_sizes nonlinearity
                 in_shift in_scale out_shift out_scale log_dir g
  = Ok (net, g') ->
  from_option length (Z.to_nat o) in_shift = Z.to_nat o ->
  from_option length (Z.to_nat o) in_scale = Z.to_nat o ->
  from_option length (Z.to_nat a) out_shift = Z.to_nat a ->
  from_option length (Z.to_nat a) out_scale = Z.to_nat a ->
  t_device x = cpu \/ (exists i, t_device x = cuda i) ->
  Composition.width_is (Z.to_nat o) (t_rows x) = true ->
  exists y net',
    FCNetwork.forward net x = Ok (Tensor cpu y, net')
    /\ Composition.width_is (Z.to_nat a) y = true
    /\ length y = length (t_rows x).
Proof.
  intros Hshapes Hlin Hinit Hv1 Hv2 Hv3 Hv4 Hx Hw.
  destruct (FCNetwork_init_shapes _ _ _ _ _ _ _ _ _ _ _ _ Hshapes Hinit
              Hv1 Hv2 Hv3 Hv4)
    as (Hres & H1 & H2 & H3 & H4 & hidden & final & Hl & Hchain).
  destruct (normalized_mlp_ok
              (v_data (FCNetwork.in_shift net))
              (v_data (FCNetwork.in_scale net))
              (v_data (FCNetwork.out_shift net))
              (v_data (FCNetwork.out_scale net))
              (FCNetwork.nonlinearity net) hidden final (t_rows x))
    as (y & Hy & Hwy); [done|by rewrite H1, H3|congruence|congruence
                        |by rewrite H1|].
  pose proof (forward_value net x _
                (forward_body_value net cpu x hidden final Hl Hres
                   (relocate_cpu_or_cuda x Hx))) as Hv.
  rewrite Hy in Hv. cbn in Hv.
  apply rmap_Ok in Hv as ([out net'] & Hf & [= <-]).
  exists y, net'. split; [done|]. split; [by rewrite <- H3|].
  by apply normalized_mlp_length in Hy.
Qed.

End ConstructedShapes.

Lemma init_ones_shapes : initialises_shapes Examples.init_ones.
Proof.
  intros n_in n_out g. unfold Examples.init_ones. cbn [fst snd].
  by rewrite !repeat_length.
Qed.

Lemma constructed_network_maps_obs_dim_to_act_dim_witness :
  exists y net',
    FCNetwork.forward (SF:=Examples.F32) Examples.relu_net Examples.batch
    = Ok (Tensor cpu y, net')
    /\ Composition.width_is 1 y = true
    /\ length y = 2%nat.
Proof.
  apply (constructed_network_maps_obs_dim_to_act_dim (SF:=Examples.F32)
           Examples.init_ones 2 1 (PyTuple [PyInt 2]) (PyStr "relu")
           None None None None (PyStr "runs/activations") 0%nat
           Examples.relu_net 2%nat Examples.batch).
  - exact init_ones_shapes.
  - exact linear_row_shapes.
  - reflexivity.
  - reflexivity.
  - reflexivity.
  - reflexivity.
  - reflexivity.
  - left. reflexivity.
  - reflexivity.
Defined.

Lemma new_network_takes_cpu_and_cuda_batches_witness :
  FCNetwork.resides_on cpu Examples.relu_net
  /\ (forall e,
         FCNetwork.forward (SF:=Examples.F32) Examples.relu_net
                           (tensor_to (cuda 1) Examples.batch)
         = Raise e -> e = ShapeMismatch)
  /\ (forall y net',
         FCNetwork.forward (SF:=Examples.F32) Examples.relu_net
                           (tensor_to (cuda 1) Examples.batch)
         = Ok (y, net') -> t_device y = cpu).
Proof.
  apply (new_network_takes_cpu_and_cuda_batches (SF:=Examples.F32)
           Examples.init_ones (PyInt 2) (PyInt 1) (PyTuple [PyInt 2])
           (PyStr "relu") None None None None (PyStr "runs/activations")
           0%nat Examples.relu_net 2%nat
           (tensor_to (cuda 1) Examples.batch)).
  - reflexivity.
  - right. by exists 1%nat.
Defined.

Section TransformsAfterMove.
Context {F : Type} {SF : Scalar F}.
Implicit Types (net : FCNetwork.t (F:=F)) (x out : tensor F).

Lemma is_ok_bind {S A B} (m : M S A) (k : A -> M S B) s :
  is_ok (m s) = false -> is_ok (bind m k s) = false.
Proof. unfold bind. by destruct (m s) as [[a s']|]. Qed.

Lemma tensor_op_Ok op x (v : vector F) y :
  tensor_op op x v = Ok y ->
  t_device y = t_device x /\ device_eqb (t_device x) (v_device v) = true.
Proof.
  unfold tensor_op. destruct (map_result _ _) as [rows|]; [|done].
  cbn [rbind]. destruct (device_eqb _ _); [|done]. by intros [= <-].
Qed.

Lemma device_eqb_eq (a b : torch_device) : device_eqb a b = true -> a = b.
Proof.
  destruct a as [|i|], b as [|j|]; try done. cbn.
  by intros ->%Nat.eqb_eq.
Qed.

Lemma device_eqb_neq (a b : torch_device) : a <> b -> device_eqb a b = false.
Proof.
  intros H. destruct (device_eqb a b) eqn:E; [|done].
  by apply device_eqb_eq in E.
Qed.

Lemma py_index_In {A} (l : list A) i a : py_index l i = Ok a -> In a l.
Proof.
  unfold py_index; cbv zeta. destruct (_ || _); [done|].
  destruct (nth_error _ _) eqn:E; [|done]. intros [= <-].
  by eapply nth_error_In.
Qed.

(** A layer call on a tensor that is not on the device of the layers
    raises. *)
Lemma layer_at_off_device (layers : list (Linear F)) d (i : Z) out
    (r : recorder F) :
  Forall (fun l => param_device l = d) layers ->
  t_device out <> d ->
  is_ok (layer_at layers i call_linear out r) = false.
Proof.
  intros Hd Hne. unfold layer_at, bind, lift.
  destruct (py_index layers i) as [l|] eqn:E; [|done].
  apply py_index_In in E. rewrite List.Forall_forall in Hd.
  specialize (Hd l E). unfold call_linear, bind, lift, linear_forward.
  by rewrite Hd, (device_eqb_neq _ _ Hne).
Qed.

Lemma forward_off_device net d x :
  v_device (FCNetwork.in_shift net) = cpu ->
  Forall (fun l => param_device l = d) (FCNetwork.fc_layers net) ->
  d <> cpu ->
  is_ok (FCNetwork.forward net x) = false.
Proof.
  intros Hb Hd Hne. unfold FCNetwork.forward.
  assert (H : is_ok (FCNetwork.forward_body net x (FCNetwork.observer net))
              = false);
    [|by destruct (FCNetwork.forward_body _ _ _) as [[? ?]|]].
  unfold FCNetwork.forward_body. cbv zeta.
  set (r := FCNetwork.observer net). unfold bind at 1.
  destruct (lift (tensor_op f_sub _ _) r) as [[num r1]|] eqn:E1; [|done].
  apply lift_Ok in E1 as [E1 ->]. apply tensor_op_Ok in E1 as [Hn Hc].
  rewrite Hb in Hc. apply device_eqb_eq in Hc.
  unfold bind at 1.
  destruct (lift (tensor_op f_div _ _) r) as [[o1 r1]|] eqn:E2; [|done].
  apply lift_Ok in E2 as [E2 ->]. apply tensor_op_Ok in E2 as [Ho _].
  assert (Ho1 : t_device o1 <> d) by congruence.
  destruct (Z.to_nat (Z.of_nat (length (FCNetwork.fc_layers net)) - 1))
    as [|m] eqn:Em; unfold py_range; rewrite Em.
  - cbn [seq map for_each]. unfold bind at 1, ret at 1.
    apply is_ok_bind. by apply (layer_at_off_device _ d).
  - cbn [seq map for_each]. apply is_ok_bind, is_ok_bind.
    unfold FCNetwork.hidden_step. apply is_ok_bind.
    by apply (layer_at_off_device _ d).
Qed.

(** X17.  [set_transformations] puts the four buffers on the CPU,
    wherever the network is: called after [to(d)] for a device other
    than the CPU it leaves the buffers on the CPU and the layers on
    [d], and then every forward pass raises. *)
Theorem set_transformations_after_to_splits_the_network net d
    in_shift in_scale out_shift out_scale net' :
  d <> cpu ->
  FCNetwork.set_transformations in_shift in_scale out_shift out_scale
                                (FCNetwork.to d net)
  = Ok net' ->
  (v_device (FCNetwork.in_shift net') = cpu
   /\ v_device (FCNetwork.in_scale net') = cpu
   /\ v_device (FCNetwork.out_shift net') = cpu
   /\ v_device (FCNetwork.out_scale net') = cpu)
  /\ Forall (fun l => param_device l = d) (FCNetwork.fc_layers net')
  /\ forall x, is_ok (FCNetwork.forward net' x) = false.
Proof.
  intros Hne H. unfold FCNetwork.set_transformations in H.
  destruct (FCNetwork.buffer_or in_shift _ _) as [b1|] eqn:E1; [|done].
  destruct (FCNetwork.buffer_or in_scale _ _) as [b2|] eqn:E2; [|done].
  destruct (FCNetwork.buffer_or out_shift _ _) as [b3|] eqn:E3; [|done].
  destruct (FCNetwork.buffer_or out_scale _ _) as [b4|] eqn:E4; [|done].
  cbn [rbind] in H. injection H as <-.
  apply buffer_or_Ok in E1 as [E1 _], E2 as [E2 _], E3 as [E3 _],
    E4 as [E4 _].
  assert (Hl : Forall (fun l : Linear F => param_device l = d)
                      (map (linear_to d) (FCNetwork.fc_layers net))).
  { apply Forall_map, List.Forall_forall. by intros l _. }
  split; [done|]. split; [done|].
  intros x. by apply (forward_off_device _ d).
Qed.

End TransformsAfterMove.

Lemma set_transformations_after_to_splits_the_network_witness :
  exists net',
    FCNetwork.set_transformations (SF:=Examples.F32) None None None None
      (FCNetwork.to (cuda 0) Examples.relu_net)
    = Ok net'
    /\ v_device (FCNetwork.in_shift net') = cpu
    /\ Forall (fun l => param_device l = cuda 0) (FCNetwork.fc_layers net')
    /\ is_ok (FCNetwork.forward (SF:=Examples.F32) net' Examples.batch)
       = false.
Proof.
  destruct (FCNetwork.set_transformations (SF:=Examples.F32)
              None None None None (FCNetwork.to (cuda 0) Examples.relu_net))
    as [net'|e] eqn:E; [|vm_compute in E; discriminate].
  exists net'. split; [reflexivity|].
  destruct (set_transformations_after_to_splits_the_network
              (SF:=Examples.F32) Examples.relu_net (cuda 0)
              None None None None net' ltac:(discriminate) E)
    as ((H1 & _) & H2 & H3).
  split; [exact H1|]. split; [exact H2|]. apply H3.
Defined.

(** ** The names of the layers *)

Lemma str_of_nat_inj (i j : nat) : str_of_nat i = str_of_nat j -> i = j.
Proof.
  unfold str_of_nat. intros H.
  assert (Hn : forall n, Nat.to_uint n <> Decimal.Nil).
  { intros n Hnil.
    pose proof (DecimalNat.Unsigned.of_to n) as Hof. rewrite Hnil in Hof.
    cbn in Hof. subst n. discriminate. }
  apply DecimalNat.Unsigned.to_uint_inj.
  apply (f_equal NilZero.uint_of_string) in H.
  rewrite !NilZero.usu in H by apply Hn. by injection H.
Qed.

Lemma string_app_inj (p a b : string) : p +:+ a = p +:+ b -> a = b.
Proof. induction p as [|c p IH]; cbn; [done|]. intros [= H]. by apply IH. Qed.

Lemma layer_name_inj (i j : nat) :
  "fc_layer_" +:+ str_of_nat i = "fc_layer_" +:+ str_of_nat j -> i = j.
Proof. intros H%string_app_inj. by apply str_of_nat_inj. Qed.

Section CacheKeys.
Context {F : Type} {SF : Scalar F} {rng BN DO : Type}.
Variable batch_norm_forward :
  BN -> list (list F) -> result (list (list F) * BN).
Variable dropout_forward : DO -> list (list F) -> rng -> list (list F) * rng.

Local Abbreviation bn_t := (FCNetworkWithBatchNorm.t (F:=F) (BN:=BN) (DO:=DO)).
Local Abbreviation bn_forward :=
  (FCNetworkWithBatchNorm.forward batch_norm_forward dropout_forward).
Local Abbreviation layer_name i := ("fc_layer_" +:+ str_of_nat i).

Lemma cache_keys_step (layers : list (Linear F)) (i : nat) l
    (out : tensor F) (r : recorder F) out' r' :
  Forall (fun l0 : Linear F => forward_hooks l0 = []) layers ->
  register_hooks_layers layers !! i = Some l ->
  (forall k, is_Some (activations r !! k)
             <-> exists j : nat, (j < i)%nat /\ k = layer_name j) ->
  call_linear l out r = Ok (out', r') ->
  forall k, is_Some (activations r' !! k)
            <-> exists j : nat, (j < S i)%nat /\ k = layer_name j.
Proof.
  intros Hfresh Hl Hi Hc k. apply call_linear_Ok in Hc as [_ ->].
  unfold register_hooks_layers in Hl. rewrite list_lookup_imap in Hl.
  destruct (layers !! i) as [l0|] eqn:E; [|done]. injection Hl as <-.
  rewrite List.Forall_forall in Hfresh.
  assert (Hl0 : forward_hooks l0 = []).
  { apply Hfresh. apply list_elem_of_In. by eapply list_elem_of_lookup_2. }
  cbn [forward_hooks register_forward_hook]. rewrite Hl0.
  cbn [app fold_left hook activations].
  rewrite lookup_insert_is_Some, Hi. split.
  - intros [<-|[_ (j & Hj & ->)]].
    + exists i. split; [lia|done].
    + exists j. split; [lia|done].
  - intros (j & Hj & ->). destruct (decide (j = i)) as [->|Hne]; [by left|].
    right. split.
    + intros H%layer_name_inj. by subst.
    + exists j. split; [lia|done].
Qed.

(** X18.  On a network without hooks and with an empty cache,
    [register_hooks] and a forward pass that returns leave in the cache
    the names [fc_layer_0] to [fc_layer_(n-1)] of the [n] layers and no
    other key; different layers have different names, so the cache
    holds one entry for each layer. *)
Theorem forward_cache_has_one_entry_per_layer :
  (forall (net : FCNetwork.t (F:=F)) x y net' k,
      Forall (fun l : Linear F => forward_hooks l = [])
             (FCNetwork.fc_layers net) ->
      activations (FCNetwork.observer net) = ∅ ->
      FCNetwork.forward (FCNetwork.register_hooks net) x = Ok (y, net') ->
      is_Some (activations (FCNetwork.observer net') !! k)
      <-> exists j : nat,
            (j < length (FCNetwork.fc_layers net))%nat /\ k = layer_name j)
  /\ (forall (net : bn_t) x (g : rng) y net' g' k,
        Forall (fun l : Linear F => forward_hooks l = [])
               (FCNetworkWithBatchNorm.fc_layers net) ->
        activations (FCNetworkWithBatchNorm.observer net) = ∅ ->
        bn_forward (FCNetworkWithBatchNorm.register_hooks net) x g
        = Ok (y, net', g') ->
        is_Some (activations (FCNetworkWithBatchNorm.observer net') !! k)
        <-> exists j : nat,
              (j < length (FCNetworkWithBatchNorm.fc_layers net))%nat
              /\ k = layer_name j)
  /\ (forall i j : nat, layer_name i = layer_name j -> i = j).
Proof.
  split; [|split; [|apply layer_name_inj]].
  - intros net x y net' k Hfresh Hempty H.
    pose proof (FCNetwork_forward_invariant
                  (fun i r => forall k,
                       is_Some (activations r !! k)
                       <-> exists j : nat, (j < i)%nat /\ k = layer_name j)
                  (FCNetwork.register_hooks net) x y net') as Hinv.
    cbv beta in Hinv.
    cbn [FCNetwork.fc_layers FCNetwork.register_hooks FCNetwork.observer]
      in Hinv.
    rewrite register_hooks_layers_length in Hinv. apply Hinv; [| |done].
    + intros i l out r out' r'. by apply cache_keys_step.
    + intros k0. rewrite Hempty, lookup_empty. split; [by intros []|].
      intros (j & Hj & _). lia.
  - intros net x g y net' g' k Hfresh Hempty H.
    pose proof (BatchNorm_forward_invariant batch_norm_forward
                  dropout_forward
                  (fun i r => forall k,
                       is_Some (activations r !! k)
                       <-> exists j : nat, (j < i)%nat /\ k = layer_name j)
                  (FCNetworkWithBatchNorm.register_hooks net) x g y net' g')
      as Hinv.
    cbv beta in Hinv.
    cbn [FCNetworkWithBatchNorm.fc_layers
           FCNetworkWithBatchNorm.register_hooks
           FCNetworkWithBatchNorm.observer] in Hinv.
    rewrite register_hooks_layers_length in Hinv. apply Hinv; [| |done].
    + intros i l out r out' r'. by apply cache_keys_step.
    + intros k0. rewrite Hempty, lookup_empty. split; [by intros []|].
      intros (j & Hj & _). lia.
Qed.

End CacheKeys.

Lemma forward_cache_has_one_entry_per_layer_witness :
  exists y net',
    FCNetwork.forward (SF:=Examples.F32)
      (FCNetwork.register_hooks Examples.relu_net) Examples.batch
    = Ok (y, net')
    /\ (is_Some (activations (FCNetwork.observer net') !! "fc_layer_1")
        <-> exists j : nat,
              (j < 2)%nat /\ "fc_layer_1" = "fc_layer_" +:+ str_of_nat j).
Proof.
  destruct (FCNetwork.forward (SF:=Examples.F32)
              (FCNetwork.register_hooks Examples.relu_net)
              Examples.batch) as [[y net']|e] eqn:E;
    [|vm_compute in E; discriminate].
  exists y, net'. split; [reflexivity|].
  apply (proj1 (forward_cache_has_one_entry_per_layer
                  (SF:=Examples.F32) Examples.bn_forward
                  Examples.do_forward) Examples.relu_net Examples.batch
               y net' "fc_layer_1").
  - vm_compute. repeat constructor.
  - reflexivity.
  - exact E.
Defined.

(** ** Logging the same keys in every iteration *)

Section AlignedLogging.
Context {V : Type}.
Implicit Types (self : DataLog.t (V:=V)) (ks : list string).

Local Abbreviation series_length self k :=
  (length (default [] (DataLog.log self !! k))).

(** Within one iteration: the keys logged already have one entry more
    than the keys still to be logged. *)
Lemma log_round (m : nat) : forall (pending : list string) (vs : list V)
    (logged_keys : list string) self,
  length vs = length pending ->
  NoDup (logged_keys ++ pending) ->
  (forall k, In k logged_keys -> series_length self k = S m) ->
  (forall k, In k pending -> series_length self k = m) ->
  (forall k, ~ In k (logged_keys ++ pending) -> DataLog.log self !! k = None) ->
  DataLog.max_len self
  = Z.of_nat (match logged_keys with [] => m | _ => S m end) ->
  let self' :=
    fold_left (fun s kv => DataLog.log_kv (fst kv) (snd kv) s)
              (combine pending vs) self in
  (forall k, In k (logged_keys ++ pending) -> series_length self' k = S m)
  /\ (forall k, ~ In k (logged_keys ++ pending) ->
                DataLog.log self' !! k = None)
  /\ DataLog.max_len self'
     = Z.of_nat (match logged_keys ++ pending with [] => m | _ => S m end).
Proof.
  induction pending as [|k pending IH]; intros vs done self Hlen Hnd Hd Ht Hn Hm.
  - cbn [combine fold_left]. rewrite app_nil_r in *. by repeat split.
  - destruct vs as [|v vs]; [done|]. cbn [combine fold_left fst snd].
    injection Hlen as Hlen.
    replace (done ++ k :: pending) with ((done ++ [k]) ++ pending) in *
      by (by rewrite <- app_assoc).
    pose proof Hnd as Hnd'. apply NoDup_app in Hnd' as (Hnd1 & _ & _).
    apply NoDup_app in Hnd1 as (_ & Hk & _).
    assert (Hkd : ~ In k done).
    { intros Hin%list_elem_of_In. apply (Hk k Hin). left. }
    assert (Hkt : ~ In k pending).
    { intros Hin%list_elem_of_In. apply NoDup_app in Hnd as (_ & Hdis & _).
      apply (Hdis k); [|done]. apply elem_of_app. right. left. }
    assert (Hsk : series_length self k = m) by (apply Ht; by left).
    apply IH; try done.
    + intros k' Hin. rewrite log_kv_lookup.
      apply in_app_or in Hin as [Hin|[<-|[]]].
      * rewrite decide_False by (intros <-; done). by apply Hd.
      * rewrite decide_True by done. cbn. rewrite length_app, Hsk. cbn. lia.
    + intros k' Hin. rewrite log_kv_lookup.
      rewrite decide_False by (intros <-; done). apply Ht. by right.
    + intros k' Hin. rewrite log_kv_lookup.
      rewrite decide_False.
      * by apply Hn.
      * intros <-. apply Hin. apply in_or_app. left. apply in_or_app.
        right. by left.
    + rewrite log_kv_max_len, Hm, Hsk.
      destruct done as [|d done]; cbn [app].
      * rewrite (proj2 (Z.ltb_lt _ _)) by lia. lia.
      * rewrite (proj2 (Z.ltb_ge _ _)) by lia. done.
Qed.

Lemma logged_rounds ks (rounds : list (list V)) :
  NoDup ks -> ks <> [] ->
  Forall (fun vs => length vs = length ks) rounds ->
  let self := DataLog.logged (concat (map (combine ks) rounds)) in
  (forall k, In k ks -> series_length self k = length rounds)
  /\ (forall k, ~ In k ks -> DataLog.log self !! k = None)
  /\ DataLog.max_len self = Z.of_nat (length rounds).
Proof.
  intros Hnd Hne. induction rounds as [|vs rounds IH] using rev_ind.
  - intros _. cbn. repeat split; intros; by rewrite ?lookup_empty.
  - intros Hall. apply Forall_app in Hall as [Hall Hvs].
    apply Forall_inv in Hvs. specialize (IH Hall). cbv zeta in IH.
    destruct IH as (H1 & H2 & H3).
    rewrite map_app, concat_app. cbn [map concat]. rewrite app_nil_r.
    unfold DataLog.logged in *. rewrite fold_left_app.
    set (self := fold_left _ (concat _) DataLog.init) in *.
    destruct (log_round (length rounds) ks vs [] self Hvs) as (G1 & G2 & G3);
      try done.
    rewrite length_app. cbn [length app] in *.
    replace (length rounds + 1)%nat with (S (length rounds)) by lia.
    split; [done|]. split; [done|].
    rewrite G3. by destruct ks.
Qed.

(** X19.  When every iteration logs one value under each key of the
    same list of keys, the series stay aligned: after [n] iterations
    every series has [n] entries, there is no other series, [max_len]
    is [n], and every key has its series once an iteration was
    logged. *)
Theorem logging_every_key_keeps_the_series_aligned ks
    (rounds : list (list V)) :
  NoDup ks -> ks <> [] ->
  Forall (fun vs => length vs = length ks) rounds ->
  let self := DataLog.logged (concat (map (combine ks) rounds)) in
  DataLog.max_len self = Z.of_nat (length rounds)
  /\ (forall k series,
         DataLog.log self !! k = Some series ->
         In k ks /\ length series = length rounds)
  /\ (rounds <> [] ->
      forall k, In k ks -> is_Some (DataLog.log self !! k)).
Proof.
  intros Hnd Hne Hall self.
  destruct (logged_rounds ks rounds Hnd Hne Hall) as (H1 & H2 & H3).
  fold self in H1, H2, H3. split; [done|]. split.
  - intros k series Hk.
    destruct (in_dec string_dec k ks) as [Hin|Hnot].
    + split; [done|]. specialize (H1 k Hin). by rewrite Hk in H1.
    + specialize (H2 k Hnot). congruence.
  - intros Hr k Hin. specialize (H1 k Hin).
    destruct (DataLog.log self !! k) as [s|]; [done|].
    cbn in H1. destruct rounds; [done|]. cbn in H1. lia.
Qed.

End AlignedLogging.

Lemma logging_every_key_keeps_the_series_aligned_witness :
  let self :=
    DataLog.logged
      (concat (map (combine ["loss"; "reward"]) [[3; 10]; [2; 20]])) in
  DataLog.max_len self = 2
  /\ (forall k series,
         DataLog.log self !! k = Some series ->
         In k ["loss"; "reward"] /\ length series = 2%nat)
  /\ ([[3; 10]; [2; 20]] <> [] ->
      forall k, In k ["loss"; "reward"] -> is_Some (DataLog.log self !! k)).
Proof.
  apply (logging_every_key_keeps_the_series_aligned (V:=Z)
           ["loss"; "reward"] [[3; 10]; [2; 20]]).
  - apply (bool_decide_unpack _). vm_compute. exact I.
  - discriminate.
  - repeat constructor.
Defined.

(** ** A forward pass and the passes after it *)

Section LaterPasses.
Context {F : Type} {SF : Scalar F}.
Implicit Types (net : FCNetwork.t (F:=F)) (x : tensor F).

Lemma same_parameters_refl (layers : list (Linear F)) :
  Forall2 same_parameters layers layers.
Proof. apply Forall2_same_length_lookup. split; [done|].
  intros i l1 l2 H1 H2. rewrite H1 in H2. injection H2 as <-.
  by repeat split.
Qed.

(** X20.  A forward pass of [FCNetwork] changes nothing but the
    observer: the layers, the buffers and the nonlinearity are as
    before, and every later forward pass returns the tensor, or raises
    the exception, that it would have without the earlier pass. *)
Theorem forward_does_not_depend_on_earlier_passes net x y net' :
  FCNetwork.forward net x = Ok (y, net') ->
  FCNetwork.fc_layers net' = FCNetwork.fc_layers net
  /\ (FCNetwork.in_shift net', FCNetwork.in_scale net',
      FCNetwork.out_shift net', FCNetwork.out_scale net')
     = (FCNetwork.in_shift net, FCNetwork.in_scale net,
        FCNetwork.out_shift net, FCNetwork.out_scale net)
  /\ forall x',
       rmap fst (FCNetwork.forward net' x')
       = rmap fst (FCNetwork.forward net x').
Proof.
  intros H. unfold FCNetwork.forward in H.
  destruct (FCNetwork.forward_body net x _) as [[out r]|]; [|done].
  injection H as <- <-. split; [done|]. split; [done|].
  intros x'. unfold FCNetwork.forward.
  pose proof (FCNetwork_forward_body_agree
                (FCNetwork.with_observer net r) net x'
                eq_refl eq_refl eq_refl eq_refl eq_refl
                (same_parameters_refl _)
                (FCNetwork.observer (FCNetwork.with_observer net r))
                (FCNetwork.observer net) I) as Ha.
  destruct (FCNetwork.forward_body (FCNetwork.with_observer net r) x' _)
    as [[a1 r1]|e1],
    (FCNetwork.forward_body net x' _) as [[a2 r2]|e2]; try done.
  - by destruct Ha as [<- _].
  - by subst.
Qed.

End LaterPasses.

Lemma forward_does_not_depend_on_earlier_passes_witness :
  exists y net',
    FCNetwork.forward (SF:=Examples.F32)
      (FCNetwork.register_hooks Examples.relu_net) Examples.batch
    = Ok (y, net')
    /\ rmap fst (FCNetwork.forward (SF:=Examples.F32) net' Examples.batch)
       = rmap fst (FCNetwork.forward (SF:=Examples.F32)
                     (FCNetwork.register_hooks Examples.relu_net)
                     Examples.batch).
Proof.
  destruct (FCNetwork.forward (SF:=Examples.F32)
              (FCNetwork.register_hooks Examples.relu_net)
              Examples.batch) as [[y net']|e] eqn:E;
    [|vm_compute in E; discriminate].
  exists y, net'. split; [reflexivity|]. rewrite <- E.
  apply (forward_does_not_depend_on_earlier_passes
           (FCNetwork.register_hooks Examples.relu_net) Examples.batch
           y net' E).
Defined.

(** ** A new network with batch normalization *)

Section NewBatchNormNetwork.
Context {F : Type} {SF : Scalar F} {rng BN DO : Type}.
Variable init_linear : nat -> nat -> rng -> (list (list F) * list F) * rng.
Variable batch_norm_init : pyval F -> result BN.
Variable dropout_init : pyval F -> result DO.
Variable batch_norm_forward :
  BN -> list (list F) -> result (list (list F) * BN).
Variable dropout_forward : DO -> list (list F) -> rng -> list (list F) * rng.

Local Abbreviation bn_t := (FCNetworkWithBatchNorm.t (F:=F) (BN:=BN) (DO:=DO)).
Local Abbreviation bn_forward :=
  (FCNetworkWithBatchNorm.forward batch_norm_forward dropout_forward).

Lemma BatchNorm_init_on_cpu obs_dim act_dim hidden_sizes nonlinearity
    dropout log_dir args kwargs (g : rng) (net : bn_t) g' :
  FCNetworkWithBatchNorm.init init_linear batch_norm_init dropout_init
    obs_dim act_dim hidden_sizes nonlinearity dropout log_dir args kwargs g
  = Ok (net, g') ->
  FCNetworkWithBatchNorm.resides_on cpu net
  /\ exists hidden final,
       FCNetworkWithBatchNorm.fc_layers net = hidden ++ [final].
Proof.
  unfold FCNetworkWithBatchNorm.init.
  destruct hidden_sizes as [| | |hs| | |]; try done. intros H.
  apply bind_Ok in H as (layers & g1 & Hl & H).
  apply bind_Ok in H as (nl & g2 & _ & H).
  apply bind_Ok in H as (bn & g3 & _ & H).
  apply bind_Ok in H as (do & g4 & _ & H).
  apply ret_Ok in H as [-> _].
  cbn [FCNetworkWithBatchNorm.fc_layers]. split.
  - repeat split. by eapply make_fc_layers_cpu.
  - apply make_fc_layers_length in Hl.
    destruct (list_snoc_case layers) as [Hnil|(hidden & final & ->)];
      [|eauto].
    rewrite Hnil, !length_app in Hl. cbn in Hl. lia.
Qed.

(** X21.  A [FCNetworkWithBatchNorm] that the constructor returned has
    every tensor on the CPU and records the CPU as its device: its
    forward pass brings a batch from any device there, never raises
    the device mismatch, and returns a tensor on the CPU; the batch
    normalization of the library is taken not to raise that error on
    tensors of one device. *)
Theorem new_batchnorm_network_takes_any_batch obs_dim act_dim hidden_sizes
    nonlinearity dropout log_dir args kwargs (g : rng) (net : bn_t) g'
    x (gx : rng) :
  FCNetworkWithBatchNorm.init init_linear batch_norm_init dropout_init
    obs_dim act_dim hidden_sizes nonlinearity dropout log_dir args kwargs g
  = Ok (net, g') ->
  (forall bn rows, batch_norm_forward bn rows <> Raise DeviceMismatch) ->
  FCNetworkWithBatchNorm.resides_on cpu net
  /\ bn_forward net x gx <> Raise DeviceMismatch
  /\ (forall y net' g'',
         bn_forward net x gx = Ok (y, net', g'') -> t_device y = cpu).
Proof.
  intros Hinit Hbn.
  destruct (BatchNorm_init_on_cpu _ _ _ _ _ _ _ _ _ _ _ Hinit)
    as (Hres & hidden & final & Hl).
  split; [done|].
  pose proof (BatchNorm_forward_outcome batch_norm_forward dropout_forward
                net cpu x gx hidden final Hl Hres) as Ho.
  split.
  - intros H. rewrite H in Ho. cbn in Ho. symmetry in Ho.
    apply rmap_raise, batchnorm_mlp_raises in Ho as [Ho|Ho]; [|done].
    by apply Hbn in Ho.
  - intros y net' g'' H. rewrite H in Ho. cbn in Ho. symmetry in Ho.
    apply rmap_Ok in Ho as ([[y0 bn0] g0] & _ & Ho).
    unfold FCNetworkWithBatchNorm.outcome in Ho. cbn in Ho.
    by injection Ho as -> _ _.
Qed.

End NewBatchNormNetwork.

Lemma new_batchnorm_network_takes_any_batch_witness :
  FCNetworkWithBatchNorm.resides_on cpu Examples.bn_net
  /\ FCNetworkWithBatchNorm.forward (SF:=Examples.F32)
       Examples.bn_forward Examples.do_forward Examples.bn_net
       (tensor_to mps Examples.batch) 7%nat
     <> Raise DeviceMismatch
  /\ (forall y net' g'',
         FCNetworkWithBatchNorm.forward (SF:=Examples.F32)
           Examples.bn_forward Examples.do_forward Examples.bn_net
           (tensor_to mps Examples.batch) 7%nat
         = Ok (y, net', g'') -> t_device y = cpu).
Proof.
  apply (new_batchnorm_network_takes_any_batch (SF:=Examples.F32)
           Examples.init_ones Examples.bn_init Examples.do_init
           Examples.bn_forward Examples.do_forward
           (PyInt 2) (PyInt 1) (PyTuple [PyInt 2]) (PyStr "relu") (PyInt 0)
           (PyStr "runs/activations_with_batchnorm") [] [] 0%nat
           Examples.bn_net 2%nat (tensor_to mps Examples.batch) 7%nat).
  - reflexivity.
  - exact bn_forward_no_device_mismatch.
Defined.

(** ** The default boundary transform of a constructed network *)

Section DefaultTransformOfNetwork.
Variable tanh : spec_float -> spec_float.
Variable linear : list (list spec_float) -> list spec_float
                  -> list spec_float -> list spec_float.
Local Abbreviation F32 := (Float32.scalar tanh linear).

(** C4, as the code has it.  A float32 network built without
    normalization vectors, whose layers hold binary32 numbers, returns
    on a float32 batch on the CPU or on a CUDA device, with rows of
    the width of [in_shift], what the plain multi-layer perceptron
    with its layers and nonlinearity returns on that batch, except
    that a negative zero in the output of the perceptron is returned
    as the positive zero: every entry is equal as a number, not every
    entry is the same binary32 value.  The hyperbolic tangent and the
    product of a row with the parameters of a layer are any functions
    from binary32 numbers to binary32 numbers; the product and the
    initialiser of the library are taken to return as many entries as
    the layer has outputs. *)
Theorem default_transform_keeps_all_but_the_sign_of_zero {rng : Type}
    (init_linear : nat -> nat -> rng
                   -> (list (list spec_float) * list spec_float) * rng)
    obs_dim act_dim hidden_sizes nonlinearity log_dir g net g'
    (x : tensor spec_float) :
  Float32.closed_tanh tanh ->
  Float32.closed_linear linear ->
  linear_shapes (SF:=F32) ->
  initialises_shapes init_linear ->
  FCNetwork.init (SF:=F32) init_linear obs_dim act_dim hidden_sizes
                 nonlinearity None None None None log_dir g
  = Ok (net, g') ->
  forallb Float32.valid_layer (FCNetwork.fc_layers net) = true ->
  t_device x = cpu \/ (exists i, t_device x = cuda i) ->
  Composition.width_is (length (v_data (FCNetwork.in_shift net)))
                       (t_rows x) = true ->
  Float32.valid_rows (t_rows x) = true ->
  exists hidden final y net',
    FCNetwork.fc_layers net = hidden ++ [final]
    /\ Composition.plain_mlp (SF:=F32) (FCNetwork.nonlinearity net)
                             hidden final (t_rows x)
       = Ok y
    /\ FCNetwork.forward (SF:=F32) net x
       = Ok (Tensor cpu (map (map Float32.unsigned_zero) y), net').
Proof.
  intros Htanh Hlin Hsh Hshapes Hinit Hvl Hx Hw Hv.
  pose proof (FCNetwork_init_Ok (SF:=F32) init_linear _ _ _ _ _ _ _ _ _ _
                _ _ Hinit) as (hs & _ & B1 & _ & B3 & _ & _ & _).
  apply buffer_or_Ok in B1 as [_ (o & -> & Ho & B1)].
  apply buffer_or_Ok in B3 as [_ (a & -> & Ha & B3)].
  destruct (FCNetwork_init_shapes (SF:=F32) init_linear o a _ _ _ _ _ _ _
              _ _ _ Hshapes Hinit eq_refl eq_refl eq_refl eq_refl)
    as (Hres & L1 & L2 & L3 & L4 & hidden & final & Hl & Hchain).
  destruct (init_default_buffers (SF:=F32) init_linear _ _ _ _ _ _ _ _
              Hinit) as (n & k & Hb1 & Hb2 & Hb3 & Hb4 & _).
  assert (Hn : n = Z.to_nat o)
    by (rewrite Hb1 in L1; cbn in L1; by rewrite repeat_length in L1).
  assert (Hk : k = Z.to_nat a)
    by (rewrite Hb3 in L3; cbn in L3; by rewrite repeat_length in L3).
  subst n k. rewrite L1 in Hw.
  destruct (layers_ok (SF:=F32) (FCNetwork.nonlinearity net) hidden final
              _ _ (t_rows x) Hsh Hchain Hw) as (y & Hy & Hwy).
  pose proof (plain_mlp_valid tanh linear Htanh Hlin _ hidden final _ y
                ltac:(by rewrite <- Hl) Hv Hy) as Hvy.
  pose proof (forward_value (SF:=F32) net x _
                (forward_body_value (SF:=F32) net cpu x hidden final
                   Hl Hres (relocate_cpu_or_cuda x Hx))) as Hval.
  rewrite Hb1, Hb2, Hb3, Hb4 in Hval. cbn [v_data] in Hval.
  unfold Composition.normalized_mlp in Hval.
  change (f_zero (Scalar:=F32)) with Float32.zero in Hval.
  change (f_one (Scalar:=F32)) with Float32.one in Hval.
  rewrite normalize_default in Hval by done. cbn [rbind] in Hval.
  unfold Composition.plain_mlp in Hy.
  destruct (Composition.hidden_stack _ hidden (t_rows x)) as [h|] eqn:Hh;
    cbn [rbind] in Hval, Hy; [|done].
  rewrite Hy in Hval. cbn [rbind] in Hval.
  rewrite denormalize_default in Hval by done.
  destruct (FCNetwork.forward net x) as [[out net']|]; [|done].
  simpl in Hval. injection Hval as ->.
  exists hidden, final, y, net'. repeat split; try done.
  unfold Composition.plain_mlp. by rewrite Hh.
Qed.

End DefaultTransformOfNetwork.

Lemma init_signed_zeros_shapes : initialises_shapes Examples.init_signed_zeros.
Proof.
  intros n_in n_out g. unfold Examples.init_signed_zeros. cbn [fst snd].
  by rewrite !repeat_length.
Qed.

Lemma default_transform_keeps_all_but_the_sign_of_zero_witness :
  (exists hidden final y net',
      FCNetwork.fc_layers Examples.relu_net = hidden ++ [final]
      /\ Composition.plain_mlp (SF:=Examples.F32) Relu hidden final
                               (t_rows Examples.batch)
         = Ok y
      /\ FCNetwork.forward (SF:=Examples.F32) Examples.relu_net
                           Examples.batch
         = Ok (Tensor cpu (map (map Float32.unsigned_zero) y), net'))
  /\ (exists hidden final y net',
        FCNetwork.fc_layers Examples.signed_zero_net = hidden ++ [final]
        /\ Composition.plain_mlp (SF:=Examples.F32) Tanh hidden final
                                 [[Float32.of_Z (-1)]]
           = Ok y
        /\ FCNetwork.forward (SF:=Examples.F32) Examples.signed_zero_net
                             (Tensor cpu [[Float32.of_Z (-1)]])
           = Ok (Tensor cpu (map (map Float32.unsigned_zero) y), net')).
Proof.
  split.
  - exact (default_transform_keeps_all_but_the_sign_of_zero
             Examples.hardtanh Examples.linear_row
             Examples.init_ones (PyInt 2) (PyInt 1) (PyTuple [PyInt 2])
             (PyStr "relu") (PyStr "runs/activations") 0%nat
             Examples.relu_net 2%nat Examples.batch
             hardtanh_valid linear_row_valid linear_row_shapes
             init_ones_shapes
             eq_refl eq_refl (or_introl eq_refl) eq_refl eq_refl).
  - exact (default_transform_keeps_all_but_the_sign_of_zero
             Examples.hardtanh Examples.linear_row
             Examples.init_signed_zeros (PyInt 1) (PyInt 1) (PyTuple [])
             (PyStr "tanh") (PyStr "runs/activations") 0%nat
             Examples.signed_zero_net 1%nat
             (Tensor cpu [[Float32.of_Z (-1)]])
             hardtanh_valid linear_row_valid linear_row_shapes
             init_signed_zeros_shapes
             eq_refl eq_refl (or_introl eq_refl) eq_refl eq_refl).
Defined.

(** C4 as stated fails.  Were [forward] to return exactly what the
    plain perceptron returns, it would on the network
    [FCNetwork(1, 1, hidden_sizes=())] whose weight is zero and whose
    bias is the negative zero; on the batch [[-1]] the perceptron
    returns the negative zero and [forward], which adds [out_shift],
    the positive zero. *)
Lemma default_transform_drops_the_sign_of_zero :
  ~ (forall x y : list (list spec_float),
        Float32.valid_rows x = true ->
        Composition.width_is 1 x = true ->
        Composition.plain_mlp (SF:=Examples.F32) Tanh []
                              Examples.signed_zero_final x
        = Ok y ->
        rmap fst (FCNetwork.forward (SF:=Examples.F32)
                    Examples.signed_zero_net (Tensor cpu x))
        = Ok (Tensor cpu y)).
Proof.
  intros H.
  specialize (H [[Float32.of_Z (-1)]] [[S754_zero true]]
                eq_refl eq_refl eq_refl).
  vm_compute in H. discriminate.
Qed.

(** The network of this example as the constructor returns it, and
    the two outputs. *)
Lemma default_transform_on_signed_zero :
  FCNetwork.init (SF:=Examples.F32) Examples.init_signed_zeros
    (PyInt 1) (PyInt 1) (PyTuple []) (PyStr "tanh") None None None None
    (PyStr "runs/activations") 0%nat
  = Ok (Examples.signed_zero_net, 1%nat)
  /\ FCNetwork.fc_layers Examples.signed_zero_net
     = [MkLinear 1 1 [[S754_zero false]] [S754_zero true] cpu []]
  /\ Composition.plain_mlp (SF:=Examples.F32) Tanh []
                           Examples.signed_zero_final [[Float32.of_Z (-1)]]
     = Ok [[S754_zero true]]
  /\ rmap fst (FCNetwork.forward (SF:=Examples.F32)
                 Examples.signed_zero_net
                 (Tensor cpu [[Float32.of_Z (-1)]]))
     = Ok (Tensor cpu [[S754_zero false]]).
Proof. repeat split; vm_compute; reflexivity. Qed.
